(** * nsdal: typed property access over a NetSuite record handle

    A shallow embedding of [nsdal] (the converters, [addFieldProperties],
    [fromRecord] and [withSublist]) together with the properties its
    design document states about it.

    The record handle ([nlobjRecord]), the date helpers and the script
    context flag are external to the module: they are gathered in the
    [Platform] record and every definition is parametric in it. *)

From Stdlib Require Import ZArith Bool List.
From stdpp Require Import gmap strings list.

Local Open Scope string_scope.
Local Open Scope Z_scope.

(** ** JavaScript values *)

(** Arguments frozen into a bound function by [Function.prototype.bind]:
    sublist names and field names (strings) and line numbers. *)
Inductive Arg :=
| AStr (s : string)
| ANum (n : Z)
| ANaN.

(** The values that flow through the accessors.  Numbers are integers
    ([VNaN] apart); [VArr] is an array of internal ids; [VDate] and
    [VMoment] are a native date and a moment wrapper, each carrying what
    the external date helpers gave them; [VField] is an [nlobjField]
    with its [type] property; [VMethod name pre] is the handle's method
    [name] bound to the handle with the leading arguments [pre];
    [VAdapterFn] is one of the module's own functions ([save],
    [withSublist]) seen as a value. *)
Inductive Value :=
| VUndefined
| VNull
| VBool (b : bool)
| VNum (n : Z)
| VNaN
| VStr (s : string)
| VArr (xs : list string)
| VDate (stamp : Z)
| VMoment (stamp : Z)
| VField (type : string)
| VRecord
| VMethod (name : string) (pre : list Arg)
| VAdapterFn (name : string).

Definition argValue (a : Arg) : Value :=
  match a with
  | AStr s => VStr s
  | ANum n => VNum n
  | ANaN => VNaN
  end.

(** [ToBoolean]: what [value ? a : b] and [if (value)] test. *)
Definition truthy (v : Value) : bool :=
  match v with
  | VUndefined | VNull | VNaN => false
  | VBool b => b
  | VNum n => negb (n =? 0)
  | VStr s => negb (String.eqb s "")
  | _ => true
  end.

(** [value !== undefined] *)
Definition isDefined (v : Value) : bool :=
  match v with
  | VUndefined => false
  | _ => true
  end.

(** [value === true] *)
Definition isTrue (v : Value) : bool :=
  match v with
  | VBool true => true
  | _ => false
  end.

(** [value === 'T'] *)
Definition isT (v : Value) : bool :=
  match v with
  | VStr s => String.eqb s "T"
  | _ => false
  end.

(** ** Exceptions and the state-and-exception monad *)

Inductive Exn :=
| TypeError
| Thrown (what : string).

(** [e.constructor === TypeError] *)
Definition isTypeError (e : Exn) : bool :=
  match e with
  | TypeError => true
  | Thrown _ => false
  end.

(** How a call ends.  [Unmodelled] marks the one situation the
    embedding does not follow: the adapter calling, as a method of the
    adapted record, a function value that is not a method of the handle
    (the remote store handed back one of the module's own functions). *)
Inductive Result (A : Type) :=
| Ok (a : A)
| Throw (e : Exn)
| Unmodelled.
Arguments Ok {A} a.
Arguments Throw {A} e.
Arguments Unmodelled {A}.

(** A computation over a mutable state [S]: the state survives a throw,
    as the side effects of JavaScript code do. *)
Definition M (S A : Type) : Type := S -> Result A * S.

Definition ret {S A} (a : A) : M S A := fun s => (Ok a, s).

Definition throw {S A} (e : Exn) : M S A := fun s => (Throw e, s).

Definition bind {S A B} (c : M S A) (k : A -> M S B) : M S B :=
  fun s =>
    match c s with
    | (Ok a, s') => k a s'
    | (Throw e, s') => (Throw e, s')
    | (Unmodelled, s') => (Unmodelled, s')
    end.

Notation "'let!' x ':=' c 'in' k" := (bind c (fun x => k))
  (at level 10, x name, c at level 100, k at level 200).
Notation "'do!' c 'in' k" := (bind c (fun _ => k))
  (at level 10, c at level 100, k at level 200).

(** [try { body } catch (e) { handler e }] *)
Definition tryCatch {S A} (body : M S A) (handler : Exn -> M S A) : M S A :=
  fun s =>
    match body s with
    | (Throw e, s') => handler e s'
    | r => r
    end.

(** Lift a pure outcome (a value or a thrown exception). *)
Definition liftR {S A} (r : Result A) : M S A := fun s => (r, s).

(** [xs.forEach(f)] where [f] updates a local object [b] *)
Fixpoint foldM {S A B} (f : B -> A -> M S B) (b : B) (xs : list A) : M S B :=
  match xs with
  | [] => ret b
  | x :: rest => let! b' := f b x in foldM f b' rest
  end.

(** [xs.forEach(f)] *)
Fixpoint forEach {S A} (f : A -> M S unit) (xs : list A) : M S unit :=
  match xs with
  | [] => ret tt
  | x :: rest => do! f x in forEach f rest
  end.

(** ** Property descriptors *)

(** The [{get, set, enumerable}] object handed to [Object.defineProperty]. *)
Record Descriptor (S : Type) := {
  get : M S Value;
  set : Value -> M S unit;
  enumerable : bool
}.
Arguments get {S} d.
Arguments set {S} d v.
Arguments enumerable {S} d.

(** ** What an object literal inherits *)

(** The descriptor tables are object literals, so indexing one with a
    field type also finds the members of [Object.prototype].  The
    module then calls what it found, with [this] undefined, and hands
    the result to [Object.defineProperty]; for that use a member is one
    of three kinds: [Wrapper] returns an object that describes no
    attribute ([Object(name)] is a [String] wrapper), [Primitive]
    returns a string or a boolean, which is no descriptor, and [Raises]
    cannot be called that way ([ToObject(undefined)], a missing
    function argument, or no function at all). *)
Inductive Member := Wrapper | Primitive | Raises.

(** [Object.prototype[key]]: the members of ECMAScript 5 (15.2.4),
    called as the standard specifies them for an undefined [this], and
    the legacy [__proto__] and accessor helpers that engines add. *)
Definition objectPrototype (key : string) : option Member :=
  if String.eqb key "constructor" then Some Wrapper
  else if existsb (String.eqb key) ["toString"; "isPrototypeOf"]
  then Some Primitive
  else if existsb (String.eqb key)
            ["toLocaleString"; "valueOf"; "hasOwnProperty";
             "propertyIsEnumerable"; "__proto__"; "__defineGetter__";
             "__defineSetter__"; "__lookupGetter__"; "__lookupSetter__"]
  then Some Raises
  else None.

(** What a descriptor table inherits under a field type; a type that is
    not a string ([undefined]) names no member. *)
Definition inherited (fieldType : Value) : option Member :=
  match fieldType with
  | VStr t => objectPrototype t
  | _ => None
  end.

(** ** The external platform *)

Record Platform := {
  Remote : Type;
  (** [theRecord[name]] is a function *)
  hasMethod : string -> bool;
  (** [theRecord[name](args...)] *)
  callMethod : string -> list Value -> Remote -> Result Value * Remote;
  (** [EC.isClientScript] *)
  isClientScript : bool;
  (** [nlapiStringToDate(value, fieldType)] *)
  nlapiStringToDate : Value -> string -> Value;
  (** [nlapiDateToString(date, fieldType)] *)
  nlapiDateToString : Value -> string -> Value;
  (** [parseInt(s)] on a string *)
  parseIntStr : string -> option Z;
  (** [moment(value)] *)
  moment : Value -> Value;
  (** [m.toDate()] *)
  toDate : Value -> Value
}.

(** ** Type converters *)

Section Converters.
Context {S : Type}.
Variable P : Platform.

(** [dateTimeDescriptor(fieldType, getter, setter)] *)
Definition dateTimeDescriptor (fieldType : string)
    (getter : M S Value) (setter : Value -> M S Value) : Descriptor S :=
  {| get :=
       let! value := getter in
       ret (if truthy value
            then moment P (nlapiStringToDate P value fieldType)
            else value);
     set := fun value =>
       if isDefined value
       then do! setter (if truthy value
                    then nlapiDateToString P (toDate P (moment P value)) fieldType
                    else VNull) in ret tt
       else ret tt;
     enumerable := true |}.

(** [multiSelectDescriptor(getter, setter)] *)
Definition multiSelectDescriptor
    (getter : M S Value) (setter : Value -> M S Value) : Descriptor S :=
  {| get :=
       let! values := getter in
       ret (if truthy values then values else VArr []);
     set := fun value =>
       if isDefined value then do! setter value in ret tt else ret tt;
     enumerable := true |}.

(** [checkboxDescriptor(getter, setter)] *)
Definition checkboxDescriptor
    (getter : M S Value) (setter : Value -> M S Value) : Descriptor S :=
  {| get :=
       let! v := getter in
       ret (VBool (isT v));
     set := fun value =>
       if isDefined value
       then do! setter (if isTrue value then VStr "T" else VStr "F") in ret tt
       else ret tt;
     enumerable := true |}.

(** [defaultDescriptor(getter, setter)] *)
Definition defaultDescriptor
    (getter : M S Value) (setter : Value -> M S Value) : Descriptor S :=
  {| get := let! v := getter in ret v;
     set := fun value =>
       if isDefined value then do! setter value in ret tt else ret tt;
     enumerable := true |}.

End Converters.

(** ** The world: remote record state and the logger *)

Inductive Level := Debug | Info | Warn | Error.

(** A piece of a log message built by string concatenation: a literal,
    or the string conversion of a value. *)
Inductive Part :=
| Lit (s : string)
| Shown (v : Value).

Record LogEntry := {
  level : Level;
  title : list Part;
  details : list Part
}.

Record World (P : Platform) := {
  remote : Remote P;
  logged : list LogEntry
}.
Arguments remote {P} w.
Arguments logged {P} w.

Section Handle.
Variable P : Platform.

(** [log.<level>(title, details)] *)
Definition log (l : Level) (t d : list Part) : M (World P) unit :=
  fun w => (Ok tt,
            {| remote := remote w;
               logged := logged w ++ [{| level := l; title := t; details := d |}] |}).

(** [theRecord[name](args...)]: a missing method is [undefined], and
    calling [undefined] is a [TypeError]. *)
Definition invoke (name : string) (args : list Value) : M (World P) Value :=
  fun w =>
    if hasMethod P name
    then let (r, rem) := callMethod P name args (remote w) in
         (r, {| remote := rem; logged := logged w |})
    else (Throw TypeError, w).

(** [theRecord[name]] *)
Definition member (name : string) : Value :=
  if hasMethod P name then VMethod name [] else VUndefined.

(** [f.bind(thisArg, args...)].  A handle method is already tied to
    the handle, so only the arguments accumulate; a value that is not
    a function has no callable [bind]. *)
Definition bindValue (f : Value) (args : list Arg) : Result Value :=
  match f with
  | VMethod name pre => Ok (VMethod name (pre ++ args))
  | VAdapterFn name => Ok (VAdapterFn name)
  | _ => Throw TypeError
  end.

(** [f(args...)] *)
Definition callValue (f : Value) (args : list Value) : M (World P) Value :=
  match f with
  | VMethod name pre => invoke name (map argValue pre ++ args)
  | VAdapterFn _ => liftR Unmodelled
  | _ => throw TypeError
  end.

(** [field.type] *)
Definition typeProperty (field : Value) : Value :=
  match field with
  | VField t => VStr t
  | _ => VUndefined
  end.

End Handle.

(** ** Objects *)

(** The attributes of a data property. *)
Record Attrs := {
  writable : bool;
  enumerableA : bool;
  configurable : bool
}.

(** A property created by plain assignment. *)
Definition assigned : Attrs :=
  {| writable := true; enumerableA := true; configurable := true |}.

Section Objects.
Variable P : Platform.

(** A property of an object that only [Object.defineProperty] has
    written to: an accessor, or the blank data property that a
    descriptor without attributes creates ([undefined], read-only,
    hidden).  Neither is configurable, so neither can be redefined. *)
Inductive Cell :=
| CAccessor (d : Descriptor (World P))
| CBlank.

(** An object of such properties: a sublist row, and the adapted record
    while [addFieldProperties] attaches its fields. *)
Definition Row : Type := gmap string Cell.

(** The array attached by [withSublist], with what its methods close
    over ([listname], [propNames]); [ready] tells whether [addLine]
    and [commitLine] have been attached yet.  Its [parent] is the
    record that holds it. *)
Record SubList := {
  rows : list Row;
  listname : string;
  propNames : list string;
  ready : bool
}.

Inductive Property :=
| PAccessor (d : Descriptor (World P))
| PValue (v : Value) (a : Attrs)
| PList (l : SubList) (a : Attrs).

(** The adapted record. *)
Definition Obj : Type := gmap string Property.

(** [Object.defineProperty(o, name, descriptor)] with a [get]/[set]
    descriptor: a fresh name is added; an existing property is not
    configurable and cannot become this accessor (the closures are new,
    and a data property cannot turn into an accessor). *)
Definition defineAccessor (o : Row) (name : string)
    (d : Descriptor (World P)) : Result Row :=
  match o !! name with
  | None => Ok (<[name := CAccessor d]> o)
  | Some _ => Throw TypeError
  end.

(** [Object.defineProperty(o, name, wrapper)] with an object that has
    none of the descriptor fields: a fresh name gets a blank data
    property, an existing property is left as it is; nothing is
    raised. *)
Definition defineNothing (o : Row) (name : string) : Row :=
  match o !! name with
  | None => <[name := CBlank]> o
  | Some _ => o
  end.

(** [Object.defineProperty(o, name, member(...))] for a member that a
    descriptor table inherits. *)
Definition defineInherited (m : Member) (o : Row) (name : string) : Result Row :=
  match m with
  | Wrapper => Ok (defineNothing o name)
  | Primitive | Raises => Throw TypeError
  end.

(** The property of the adapted record that a cell is. *)
Definition cellProperty (c : Cell) : Property :=
  match c with
  | CAccessor d => PAccessor d
  | CBlank => PValue VUndefined {| writable := false; enumerableA := false;
                                   configurable := false |}
  end.

(** [Object.defineProperty(obj, 'nlobjRecord', {value: theRecord,
    enumerable: false, writable: false, configurable: false})] on the
    object built so far: a property of that name is not configurable
    and holds another value. *)
Definition defineRecordRef (o : Row) : Result Obj :=
  match o !! "nlobjRecord" with
  | None =>
      Ok (<["nlobjRecord" :=
              PValue VRecord {| writable := false; enumerableA := false;
                                configurable := false |}]>
            (cellProperty <$> o))
  | Some _ => Throw TypeError
  end.

(** [obj[name] = v]: an accessor runs its setter, a writable data
    property is overwritten, a read-only one is left alone (the module
    is not in strict mode), and a missing one is created. *)
Definition assign (obj : Obj) (name : string) (v : Value) : M (World P) Obj :=
  match obj !! name with
  | Some (PAccessor d) => do! set d v in ret obj
  | Some (PValue _ a) | Some (PList _ a) =>
      ret (if writable a then <[name := PValue v a]> obj else obj)
  | None => ret (<[name := PValue v assigned]> obj)
  end.

(** A descriptor over a bound getter and a bound setter. *)
Definition getterOf (g : Value) : M (World P) Value := callValue P g [].
Definition setterOf (s : Value) : Value -> M (World P) Value :=
  fun v => callValue P s [v].

End Objects.
Arguments rows {P} s.
Arguments listname {P} s.
Arguments propNames {P} s.
Arguments ready {P} s.
Arguments CAccessor {P} d.
Arguments CBlank {P}.
Arguments PAccessor {P} d.
Arguments PValue {P} v a.
Arguments PList {P} l a.

(** ** nsdal.functionsToPassThru *)

Definition functionsToPassThru : list string :=
  [ "getId"; "getRecordType"; "getField"; "getSubList"; "getMatrixField";
    "getLineItemField"; "getLineItemMatrixField"; "getLineItemMatrixValue";
    "setFieldValue"; "setFieldValues"; "getFieldValue"; "getFieldValues";
    "setFieldText"; "setFieldTexts"; "getFieldText"; "getFieldTexts";
    "getMatrixValue"; "setMatrixValue"; "getAllFields";
    "getAllLineItemFields"; "setLineItemValue"; "getLineItemValue";
    "getLineItemText"; "setCurrentLineItemValue"; "getCurrentLineItemValue";
    "getCurrentLineItemText"; "setCurrentLineItemMatrixValue";
    "getCurrentLineItemMatrixValue"; "getMatrixCount"; "getLineItemCount";
    "findLineItemValue"; "findLineItemMatrixValue"; "insertLineItem";
    "removeLineItem"; "selectNewLineItem"; "selectLineItem";
    "viewLineItemSubrecord"; "viewCurrentLineItemSubrecord";
    "createCurrentLineItemSubrecord"; "editCurrentLineItemSubrecord";
    "removeCurrentLineItemSubrecord"; "createSubrecord"; "editSubrecord";
    "viewSubrecord"; "removeSubrecord"; "commitLineItem" ].

(** ** addFieldProperties and fromRecord *)

Section Record.
Variable P : Platform.

(** A converter applied to two methods of the handle bound to a field
    name: [conv(theRecord[g].bind(theRecord, fieldname),
                theRecord[s].bind(theRecord, fieldname))]. *)
Definition bodyBound
    (conv : M (World P) Value -> (Value -> M (World P) Value)
            -> Descriptor (World P))
    (g s fieldname : string) : Result (Descriptor (World P)) :=
  match bindValue (member P g) [AStr fieldname] with
  | Ok gv =>
      match bindValue (member P s) [AStr fieldname] with
      | Ok sv => Ok (conv (getterOf P gv) (setterOf P sv))
      | Throw e => Throw e
      | Unmodelled => Unmodelled
      end
  | Throw e => Throw e
  | Unmodelled => Unmodelled
  end.

(** [dateHandler(fieldType, fieldname)] of [addFieldProperties] *)
Definition bodyDateHandler (fieldType fieldname : string)
    : Result (Descriptor (World P)) :=
  bodyBound (dateTimeDescriptor P fieldType)
    "getFieldValue" "setFieldValue" fieldname.

(** The own properties of the object literal [bodyFieldDescriptors],
    by field type.  A field type that is not a string (the [type] of
    something that is not a field object is [undefined]) names none.
    Indexing the literal also finds what it inherits: [attachField]
    looks that up with [inherited] when no own property answers. *)
Definition bodyFieldDescriptors (fieldType : Value)
    : option (string -> Result (Descriptor (World P))) :=
  match fieldType with
  | VStr t =>
      if String.eqb t "date" then Some (bodyDateHandler "date")
      else if String.eqb t "datetime" then Some (bodyDateHandler "datetime")
      else if String.eqb t "datetimetz" then Some (bodyDateHandler "datetimetz")
      else if String.eqb t "multiselect" then
        Some (bodyBound multiSelectDescriptor "getFieldValues" "setFieldValues")
      else if String.eqb t "checkbox" then
        Some (bodyBound checkboxDescriptor "getFieldValue" "setFieldValue")
      else if String.eqb t "defaultDesc" then
        Some (bodyBound defaultDescriptor "getFieldValue" "setFieldValue")
      else None
  | _ => None
  end.

(** [bodyFieldDescriptors["defaultDesc"]] *)
Definition bodyDefaultDesc : string -> Result (Descriptor (World P)) :=
  bodyBound defaultDescriptor "getFieldValue" "setFieldValue".

(** The body of the [try] block, for one field name.  In
    [(bodyFieldDescriptors[fieldType] || bodyFieldDescriptors["defaultDesc"])(name)]
    the index finds an own property of the table, or a member of
    [Object.prototype] (truthy as well, so it is what gets called), or
    nothing, and only then the default entry is taken. *)
Definition attachField (obj : Row P) (name : string) : M (World P) (Row P) :=
  let! field := (if isClientScript P then ret VUndefined
                 else invoke P "getField" [VStr name]) in
  let fieldType := if truthy field then typeProperty field
                   else VStr "defaultDesc" in
  match bodyFieldDescriptors fieldType with
  | Some make =>
      let! descriptor := liftR (make name) in
      liftR (defineAccessor P obj name descriptor)
  | None =>
      match inherited fieldType with
      | Some member => liftR (defineInherited P member obj name)
      | None =>
          let! descriptor := liftR (bodyDefaultDesc name) in
          liftR (defineAccessor P obj name descriptor)
      end
  end.

(** The diagnostic logged for a field name. *)
Definition invalidFieldEntry (name : string) : LogEntry :=
  {| level := Error;
     title := [Lit "addFieldProperties() error"];
     details := [Lit ("possibly invalid field name: '" +:+ name +:+ "'")] |}.

(** The [catch] block, for one field name. *)
Definition onAttachError (name : string) (e : Exn) : M (World P) (Row P) :=
  do! (if isTypeError e
       then log P Error [Lit "addFieldProperties() error"]
              [Lit ("possibly invalid field name: '" +:+ name +:+ "'")]
       else ret tt) in
  throw e.

(** [addFieldProperties(theRecord, propNames)] *)
Definition addFieldProperties (names : list string) : M (World P) (Obj P) :=
  let! fields :=
    foldM (fun obj name => tryCatch (attachField obj name) (onAttachError name))
          (∅ : Row P) names in
  do! log P Debug [Lit "adding [nlobjRecord] property to nsdal object"] [] in
  let! obj := liftR (defineRecordRef P fields) in
  let! obj := assign P obj "save" (VAdapterFn "save") in
  let! obj := assign P obj "withSublist" (VAdapterFn "withSublist") in
  ret obj.

(** One round of the [_.each] of [fromRecord]. *)
Definition passThru (obj : Obj P) (name : string) : M (World P) (Obj P) :=
  let func := member P name in
  if truthy func
  then let! bound := liftR (bindValue func []) in assign P obj name bound
  else ret obj.

(** [fromRecord(theRecord, propNames)] *)
Definition fromRecord (names : list string) : M (World P) (Obj P) :=
  let! obj := addFieldProperties names in
  let! obj := foldM passThru obj functionsToPassThru in
  do! log P Info [Lit "nsdal object loaded or created successfully"] [] in
  ret obj.

End Record.

(** ** withSublist *)

Section Sublist.
Variable P : Platform.

(** The state of a call on an adapted record: the record itself
    ([this], or the [parent] of its sublist) and the world. *)
Definition Scope : Type := Obj P * World P.

Definition inWorld {A} (c : M (World P) A) : M Scope A :=
  fun s => let (r, w) := c (snd s) in (r, (fst s, w)).

Definition getThis : M Scope (Obj P) := fun s => (Ok (fst s), s).

Definition modifyThis (f : Obj P -> Obj P) : M Scope unit :=
  fun s => (Ok tt, (f (fst s), snd s)).

(** [parseInt(v)]; [None] is [NaN].  A number is an integer already,
    an array converts to its elements joined by commas, of which
    [parseInt] reads the first, and the other values convert to text
    that starts with no digit. *)
Definition parseInt (v : Value) : option Z :=
  match v with
  | VNum n => Some n
  | VStr s => parseIntStr P s
  | VArr (x :: _) => parseIntStr P x
  | _ => None
  end.

Definition numValue (n : option Z) : Value :=
  match n with Some z => VNum z | None => VNaN end.

Definition numArg (n : option Z) : Arg :=
  match n with Some z => ANum z | None => ANaN end.

(** [recordObj[name](args...)] *)
Definition callProp (name : string) (args : list Value) : M Scope Value :=
  let! obj := getThis in
  match obj !! name with
  | Some (PAccessor d) => inWorld (let! f := get d in callValue P f args)
  | Some (PValue f _) => inWorld (callValue P f args)
  | Some (PList _ _) | None => throw TypeError
  end.

(** [recordObj[name].bind(recordObj, args...)] *)
Definition bindProp (name : string) (args : list Arg) : M Scope Value :=
  let! obj := getThis in
  match obj !! name with
  | Some (PAccessor d) => inWorld (let! f := get d in liftR (bindValue f args))
  | Some (PValue f _) => liftR (bindValue f args)
  | Some (PList _ _) | None => throw TypeError
  end.

(** A converter applied to two methods of the record bound to a
    coordinate. *)
Definition sublistBound
    (conv : M (World P) Value -> (Value -> M (World P) Value)
            -> Descriptor (World P))
    (g s : string) (coord : list Arg) : M Scope (Descriptor (World P)) :=
  let! gv := bindProp g coord in
  let! sv := bindProp s coord in
  ret (conv (getterOf P gv) (setterOf P sv)).

(** [dateHandler(fieldType, listname, fieldname, linenum)] of
    [addNewLineItem] *)
Definition sublistDateHandler (fieldType listname fieldname : string)
    (linenum : Arg) : M Scope (Descriptor (World P)) :=
  sublistBound (dateTimeDescriptor P fieldType)
    "getLineItemValue" "setLineItemValue"
    [AStr listname; AStr fieldname; linenum].

(** The own properties of the object literal [sublistFieldDescriptors],
    by field type; what the literal inherits is looked up by
    [attachCell] with [inherited]. *)
Definition sublistFieldDescriptors (fieldType : Value)
    : option (string -> string -> Arg -> M Scope (Descriptor (World P))) :=
  match fieldType with
  | VStr t =>
      if String.eqb t "date" then Some (sublistDateHandler "date")
      else if String.eqb t "datetime" then Some (sublistDateHandler "datetime")
      else if String.eqb t "datetimetz" then Some (sublistDateHandler "datetimetz")
      else if String.eqb t "multiselect" then
        Some (fun listname fieldname line =>
                sublistBound multiSelectDescriptor
                  "getLineItemValues" "setLineItemValues"
                  [AStr fieldname; line])
      else if String.eqb t "checkbox" then
        Some (fun listname fieldname line =>
                sublistBound checkboxDescriptor
                  "getLineItemValue" "setLineItemValue"
                  [AStr listname; AStr fieldname; line])
      else if String.eqb t "defaultDesc" then
        Some (fun listname fieldname linenum =>
                sublistBound defaultDescriptor
                  "getLineItemValue" "setLineItemValue"
                  [AStr listname; AStr fieldname; linenum])
      else None
  | _ => None
  end.

(** [sublistFieldDescriptors["defaultDesc"]] *)
Definition sublistDefaultDesc (listname fieldname : string) (linenum : Arg)
    : M Scope (Descriptor (World P)) :=
  sublistBound defaultDescriptor "getLineItemValue" "setLineItemValue"
    [AStr listname; AStr fieldname; linenum].

(** One round of the [propNames.forEach] of [addNewLineItem]; the
    table is indexed as in [attachField]. *)
Definition attachCell (lname : string) (linenum : Arg)
    (newItem : Row P) (name : string) : M Scope (Row P) :=
  let! fieldObj := (if isClientScript P then ret VUndefined
                    else callProp "getLineItemField" [VStr lname; VStr name]) in
  let fieldType := if truthy fieldObj then typeProperty fieldObj
                   else VStr "unknown" in
  match sublistFieldDescriptors fieldType with
  | Some make =>
      let! descriptor := make lname name linenum in
      liftR (defineAccessor P newItem name descriptor)
  | None =>
      match inherited fieldType with
      | Some member => liftR (defineInherited P member newItem name)
      | None =>
          let! descriptor := sublistDefaultDesc lname name linenum in
          liftR (defineAccessor P newItem name descriptor)
      end
  end.

(** [this.push(newItem)] on the array stored under [key]. *)
Definition pushRow (key : string) (newItem : Row P) (obj : Obj P) : Obj P :=
  match obj !! key with
  | Some (PList l a) =>
      <[key := PList {| rows := rows l ++ [newItem]; listname := listname l;
                        propNames := propNames l; ready := ready l |} a]> obj
  | _ => obj
  end.

(** [list.addNewLineItem(linenum, recordObj)], for the array that
    [withSublist(lname, names)] attached. *)
Definition addNewLineItem (lname : string) (names : list string)
    (linenum : Arg) : M Scope (Row P) :=
  let! newItem := foldM (attachCell lname linenum) (∅ : Row P) names in
  do! modifyThis (pushRow lname newItem) in
  ret newItem.

(** [Object.defineProperty(this, listname, {value: [], writable:
    false, enumerable: true})].  A missing property is created with
    [configurable] false; a configurable one is replaced and stays
    configurable; one that is not configurable is kept: an accessor
    cannot become a data property, [enumerable] cannot change, and a
    read-only value cannot be replaced by the fresh array. *)
Definition defineSublist (lname : string) (names : list string)
    (obj : Obj P) : Result (Obj P) :=
  let fresh := {| rows := []; listname := lname; propNames := names;
                  ready := false |} in
  match obj !! lname with
  | None =>
      Ok (<[lname := PList fresh {| writable := false; enumerableA := true;
                                    configurable := false |}]> obj)
  | Some (PAccessor _) => Throw TypeError
  | Some (PValue _ a) | Some (PList _ a) =>
      if configurable a
      then Ok (<[lname := PList fresh {| writable := false; enumerableA := true;
                                         configurable := true |}]> obj)
      else if enumerableA a && writable a
      then Ok (<[lname := PList fresh {| writable := false; enumerableA := true;
                                         configurable := false |}]> obj)
      else Throw TypeError
  end.

(** [for (var i = 1; i <= numLines; i++)]: the values [i] takes. *)
Definition lineNumbers (numLines : option Z) : list Z :=
  match numLines with
  | Some n => map Z.of_nat (seq 1 (Z.to_nat n))
  | None => []
  end.

(** [list.addLine = ...; list.commitLine = ...] *)
Definition markReady (key : string) (obj : Obj P) : Obj P :=
  match obj !! key with
  | Some (PList l a) =>
      <[key := PList {| rows := rows l; listname := listname l;
                        propNames := propNames l; ready := true |} a]> obj
  | _ => obj
  end.

(** [withSublist(listname, propNames)], the function the module exports
    as [nsdal.withSublist] and assigns to the [withSublist] property of
    every record, run with the adapted record as [this]. *)
Definition withSublist (lname : string) (names : list string)
    : M Scope (Obj P) :=
  let! count := callProp "getLineItemCount" [VStr lname] in
  let numLines := parseInt count in
  let! this := getThis in
  let! this' := liftR (defineSublist lname names this) in
  do! modifyThis (fun _ => this') in
  do! forEach (fun i => do! addNewLineItem lname names (ANum i) in ret tt)
        (lineNumbers numLines) in
  do! modifyThis (markReady lname) in
  getThis.

(** [record[key].addLine()] *)
Definition addLine (key : string) : M Scope (Row P) :=
  let! obj := getThis in
  match obj !! key with
  | Some (PList l _) =>
      if ready l
      then
        let! currentLineCount :=
          callProp "getLineItemCount" [VStr (listname l)] in
        let insertLinePosition :=
          match parseInt currentLineCount with
          | Some n => Some (n + 1)
          | None => None
          end in
        do! inWorld (log P Debug [Lit "Inserting Line Item"]
                       [Lit ("sublist: '" +:+ listname l +:+ "' line: ");
                        Shown (numValue insertLinePosition)]) in
        do! callProp "insertLineItem"
              [VStr (listname l); numValue insertLinePosition] in
        let! after := callProp "getLineItemCount" [VStr (listname l)] in
        do! inWorld (log P Debug [Lit "Line count after adding:"; Shown after] []) in
        addNewLineItem key (propNames l) (numArg insertLinePosition)
      else throw TypeError
  | _ => throw TypeError
  end.

(** [record[key].commitLine()] *)
Definition commitLine (key : string) : M Scope unit :=
  let! obj := getThis in
  match obj !! key with
  | Some (PList l _) =>
      if ready l
      then
        do! inWorld (log P Debug
                       [Lit ("Committing line on list '" +:+ listname l +:+ "'")] []) in
        do! callProp "commitLineItem" [VStr (listname l)] in
        ret tt
      else throw TypeError
  | _ => throw TypeError
  end.

End Sublist.

(** ** The four converters, as one family *)

Inductive Converter :=
| DateTime (fieldType : string)
| MultiSelect
| Checkbox
| Default.

Definition descriptorOf {S} (P : Platform) (c : Converter)
    (getter : M S Value) (setter : Value -> M S Value) : Descriptor S :=
  match c with
  | DateTime fieldType => dateTimeDescriptor P fieldType getter setter
  | MultiSelect => multiSelectDescriptor getter setter
  | Checkbox => checkboxDescriptor getter setter
  | Default => defaultDescriptor getter setter
  end.

(** ** Instrumented accessors, for statements about calls *)

(** A setter that counts its invocations next to the state it works on. *)
Definition counted {S} (setter : Value -> M S Value) : Value -> M (S * nat) Value :=
  fun v sn => let (r, s') := setter v (fst sn) in (r, (s', Datatypes.S (snd sn))).

(** A getter run on the state next to the counter. *)
Definition uncounted {S} (getter : M S Value) : M (S * nat) Value :=
  fun sn => let (r, s') := getter (fst sn) in (r, (s', snd sn)).

(** A store of one value that echoes back what was set: the getter
    reads the cell and the setter overwrites it. *)
Definition cellGetter : M Value Value := fun s => (Ok s, s).
Definition cellSetter : Value -> M Value Value := fun v _ => (Ok VUndefined, v).

(** A store echoes when a read after a write returns what was written. *)
Definition echoes {S} (getter : M S Value) (setter : Value -> M S Value) : Prop :=
  forall v s, getter (snd (setter v s)) = (Ok v, snd (setter v s))
              /\ exists r, fst (setter v s) = Ok r.

(** ** A record held in memory

    A stand-in for the remote record, used to run the adapter on
    concrete inputs: body values, sublist cells, line counts and the
    declared field types. *)

Record MemRecord := {
  body : gmap string Value;
  cells : gmap (string * string * Z) Value;
  counts : gmap string Z
}.

(** The declared types of the body fields and of the sublist fields. *)
Record Schema := {
  bodyTypes : gmap string string;
  cellTypes : gmap (string * string) string
}.

Definition memCall (schema : Schema) (name : string) (args : list Value)
    (r : MemRecord) : Result Value * MemRecord :=
  if String.eqb name "getFieldValue" || String.eqb name "getFieldValues" then
    match args with
    | VStr f :: _ => (Ok (default VNull (body r !! f)), r)
    | _ => (Throw (Thrown "SSS_MISSING_REQD_ARGUMENT"), r)
    end
  else if String.eqb name "setFieldValue" || String.eqb name "setFieldValues" then
    match args with
    | VStr f :: v :: _ =>
        (Ok VUndefined,
         {| body := <[f := v]> (body r); cells := cells r; counts := counts r |})
    | _ => (Throw (Thrown "SSS_MISSING_REQD_ARGUMENT"), r)
    end
  else if String.eqb name "getField" then
    match args with
    | VStr f :: _ =>
        (Ok (match bodyTypes schema !! f with
             | Some t => VField t
             | None => VNull
             end), r)
    | _ => (Throw (Thrown "SSS_MISSING_REQD_ARGUMENT"), r)
    end
  else if String.eqb name "getLineItemField" then
    match args with
    | VStr l :: VStr f :: _ =>
        (Ok (match cellTypes schema !! (l, f) with
             | Some t => VField t
             | None => VNull
             end), r)
    | _ => (Throw (Thrown "SSS_MISSING_REQD_ARGUMENT"), r)
    end
  else if String.eqb name "getLineItemCount" then
    match args with
    | VStr l :: _ => (Ok (VNum (default 0 (counts r !! l))), r)
    | _ => (Throw (Thrown "SSS_MISSING_REQD_ARGUMENT"), r)
    end
  else if String.eqb name "insertLineItem" then
    match args with
    | VStr l :: VNum _ :: _ =>
        (Ok VUndefined,
         {| body := body r; cells := cells r;
            counts := <[l := default 0 (counts r !! l) + 1]> (counts r) |})
    | _ => (Throw (Thrown "SSS_MISSING_REQD_ARGUMENT"), r)
    end
  else if String.eqb name "getLineItemValue" then
    match args with
    | VStr l :: VStr f :: VNum n :: _ =>
        (Ok (default VNull (cells r !! (l, f, n))), r)
    | _ => (Throw (Thrown "SSS_MISSING_REQD_ARGUMENT"), r)
    end
  else if String.eqb name "setLineItemValue" then
    match args with
    | VStr l :: VStr f :: VNum n :: v :: _ =>
        (Ok VUndefined,
         {| body := body r; cells := <[(l, f, n) := v]> (cells r);
            counts := counts r |})
    | _ => (Throw (Thrown "SSS_MISSING_REQD_ARGUMENT"), r)
    end
  else (Ok VUndefined, r).

(** The platform around a [MemRecord]: the handle has the methods
    listed in [methods]; dates are stamps written in text as their
    format name. *)
Definition memPlatform (schema : Schema) (methods : list string)
    (client : bool) : Platform :=
  {| Remote := MemRecord;
     hasMethod := fun name => existsb (String.eqb name) methods;
     callMethod := memCall schema;
     isClientScript := client;
     nlapiStringToDate := fun v _ =>
       match v with VStr s => VDate (Z.of_nat (String.length s)) | _ => VNaN end;
     nlapiDateToString := fun v fieldType =>
       match v with VDate _ => VStr fieldType | _ => VStr "" end;
     parseIntStr := fun _ => None;
     moment := fun v =>
       match v with
       | VDate n | VMoment n | VNum n => VMoment n
       | _ => VMoment 0
       end;
     toDate := fun v => match v with VMoment n => VDate n | _ => VDate 0 end |}.

Definition noSchema : Schema := {| bodyTypes := ∅; cellTypes := ∅ |}.

Definition emptyRecord : MemRecord :=
  {| body := ∅; cells := ∅; counts := ∅ |}.

(** ** Field types with a converter of their own *)

Definition recognizedTypes : list string :=
  ["date"; "datetime"; "datetimetz"; "multiselect"; "checkbox"].

Definition isRecognized (fieldType : Value) : bool :=
  match fieldType with
  | VStr t => existsb (String.eqb t) recognizedTypes
  | _ => false
  end.

(** ** Worlds around a record in memory *)

Definition memWorld (schema : Schema) (methods : list string) (client : bool)
    (r : MemRecord) : World (memPlatform schema methods client) :=
  {| remote := (r : Remote (memPlatform schema methods client)); logged := [] |}.

(** ** Descriptors by the coordinate they are bound to *)

(** The coordinate of a sublist cell, as bound arguments. *)
Definition coordinate (lname fieldname : string) (linenum : Arg) : list Arg :=
  [AStr lname; AStr fieldname; linenum].


(** A sublist cell under a converter: the handle's [getLineItemValue]
    and [setLineItemValue] bound to the full coordinate. *)
Definition cellDescriptor (P : Platform) (c : Converter)
    (lname fieldname : string) (linenum : Arg) : Descriptor (World P) :=
  descriptorOf P c
    (getterOf P (VMethod "getLineItemValue" (coordinate lname fieldname linenum)))
    (setterOf P (VMethod "setLineItemValue" (coordinate lname fieldname linenum))).

(** What is known of a field's metadata when it could not be obtained:
    the lookup gave nothing, or a type that names neither a converter
    of its own nor a member the descriptor table inherits. *)
Definition unresolved (field : Value) : Prop :=
  truthy field = false
  \/ (isRecognized (typeProperty field) = false
      /\ inherited (typeProperty field) = None).

(** The adapted record passes the line-item accessors of the handle
    through. *)
Definition passesCells {P : Platform} (this : Obj P) : Prop :=
  (exists a, this !! "getLineItemValue"
             = Some (PValue (VMethod "getLineItemValue" []) a))
  /\ (exists a, this !! "setLineItemValue"
                = Some (PValue (VMethod "setLineItemValue" []) a)).

(** ** What an adapted record exposes *)

(** The record exposes, under [name], the handle's method of that name
    bound to the handle. *)
Definition exposes {P : Platform} (obj : Obj P) (name : string) : Prop :=
  obj !! name = Some (PValue (VMethod name []) assigned).

(** The names [addFieldProperties] itself puts on the record. *)
Definition ownNames : list string := ["nlobjRecord"; "save"; "withSublist"].

(** A computation on a record and the world that only reads the record. *)
Definition readsThis {P : Platform} {A} (c : M (Scope P) A) : Prop :=
  forall s, fst (snd (c s)) = fst s.

(** The record holds, under [key], a sublist array with attributes [a]. *)
Definition holdsList {P : Platform} (this : Obj P) (key : string) (a : Attrs)
    : Prop :=
  exists l, this !! key = Some (PList l a).

(** The attributes of a sublist property created on a new name. *)
Definition sealed : Attrs :=
  {| writable := false; enumerableA := true; configurable := false |}.

(** ** A concrete record to run the adapter on *)

(** Tests on outcomes and records, for running concrete inputs. *)
Definition isOk {A} (r : Result A) : bool :=
  match r with
  | Ok _ => true
  | _ => false
  end.

Definition raisesTypeError {A} (r : Result A) : bool :=
  match r with
  | Throw TypeError => true
  | _ => false
  end.

Definition hasProp {P : Platform} (o : Obj P) (key : string) : bool :=
  match o !! key with
  | Some _ => true
  | None => false
  end.

(** The value of a result that is known to be [Ok]. *)
Definition valueOr {A} (d : A) (r : Result A) : A :=
  match r with
  | Ok a => a
  | _ => d
  end.

(** A sales order with one line in its [item] sublist: [quantity] has
    no declared type, [shipdate] is a date and [tags] a multiselect. *)
Definition demoMethods : list string :=
  ["getId"; "getField"; "getFieldValue"; "setFieldValue";
   "getLineItemField"; "getLineItemValue"; "setLineItemValue";
   "getLineItemCount"; "insertLineItem"; "commitLineItem"].

Definition demoSchema : Schema :=
  {| bodyTypes := ∅;
     cellTypes := {[("item", "shipdate") := "date";
                    ("item", "tags") := "multiselect"]} |}.

Definition demoPlatform : Platform := memPlatform demoSchema demoMethods false.

Definition demoRecord : MemRecord :=
  {| body := {["memo" := VStr "hi"]};
     cells := {[("item", "quantity", 1) := VStr "3"]};
     counts := {["item" := 1]} |}.

Definition demoWorld : World demoPlatform :=
  memWorld demoSchema demoMethods false demoRecord.

(** [nsdal.fromRecord(salesOrder, ["memo"])] and the world it leaves. *)
Definition demoAdapted : Obj demoPlatform :=
  valueOr ∅ (fst (fromRecord demoPlatform ["memo"] demoWorld)).

Definition demoLoaded : World demoPlatform :=
  snd (fromRecord demoPlatform ["memo"] demoWorld).

(** ** What a cell is expected to be bound to *)

(** The converter the descriptor tables select for a field type. *)
Definition converterFor (fieldType : Value) : Converter :=
  match fieldType with
  | VStr t =>
      if String.eqb t "date" then DateTime "date"
      else if String.eqb t "datetime" then DateTime "datetime"
      else if String.eqb t "datetimetz" then DateTime "datetimetz"
      else if String.eqb t "multiselect" then MultiSelect
      else if String.eqb t "checkbox" then Checkbox
      else Default
  | _ => Default
  end.

Definition isMultiSelect (c : Converter) : bool :=
  match c with
  | MultiSelect => true
  | _ => false
  end.

(** [fieldObj ? fieldObj.type : "unknown"] *)
Definition cellType (fieldObj : Value) : Value :=
  if truthy fieldObj then typeProperty fieldObj else VStr "unknown".

(** The row whose every property, one per name, is the converter of the
    field's type over the line-item accessors bound to the full
    coordinate; [meta] gives the metadata of each field. *)
Definition boundRow (P : Platform) (meta : string -> Value)
    (lname : string) (names : list string) (linenum : Arg) : Row P :=
  foldl (fun o f =>
           <[f := CAccessor (cellDescriptor P (converterFor (cellType (meta f)))
                               lname f linenum)]> o)
        ∅ names.

(** The record passes through the handle methods that [withSublist]
    and its rows call. *)
Definition wired {P : Platform} (this : Obj P) : Prop :=
  Forall (exposes this)
    ["getLineItemCount"; "insertLineItem"; "getLineItemField";
     "getLineItemValue"; "setLineItemValue"].

(** How the metadata of the sublist fields is read: not at all in a
    client script (the field object stays [undefined]); otherwise by a
    call of the handle's [getLineItemField] that answers [meta f] and
    changes nothing. *)
Definition readsMetadata (P : Platform) (lname : string)
    (names : list string) (meta : string -> Value) : Prop :=
  forall f, In f names ->
    if isClientScript P then meta f = VUndefined
    else forall w, invoke P "getLineItemField" [VStr lname; VStr f] w
                   = (Ok (meta f), w).

(** No field of the list is a multiselect, and no field's type names a
    member that the descriptor table inherits. *)
Definition plainCells (names : list string) (meta : string -> Value) : Prop :=
  forall f, In f names ->
    isMultiSelect (converterFor (cellType (meta f))) = false
    /\ inherited (cellType (meta f)) = None.

(** The rows of the sequence the record holds under [key]. *)
Definition rowsAt {P : Platform} (this : Obj P) (key : string) : list (Row P) :=
  match this !! key with
  | Some (PList l _) => rows l
  | _ => []
  end.

(** The handle answers its line count for the sublist, as a number,
    and reading it changes nothing. *)
Definition countsLines (P : Platform) (lname : string)
    (lineCount : Remote P -> Z) : Prop :=
  forall w, invoke P "getLineItemCount" [VStr lname] w
            = (Ok (VNum (lineCount (remote w))), w).

(** Inserting a line after the last one makes the count one more. *)
Definition insertsLine (P : Platform) (lname : string)
    (lineCount : Remote P -> Z) : Prop :=
  forall w, exists v w',
    invoke P "insertLineItem" [VStr lname; VNum (lineCount (remote w) + 1)] w
    = (Ok v, w')
    /\ lineCount (remote w') = lineCount (remote w) + 1.

(** The record after rows for the given lines have been appended. *)
Definition pushRows (P : Platform) (meta : string -> Value)
    (lname : string) (names : list string) (this : Obj P) (lines : list Z)
    : Obj P :=
  foldl (fun o i => pushRow P lname (boundRow P meta lname names (ANum i)) o)
        this lines.

(** A test for [exposes] on a concrete record. *)
Definition exposesb {P : Platform} (this : Obj P) (name : string) : bool :=
  match this !! name with
  | Some (PValue (VMethod n []) a) =>
      String.eqb n name && writable a && enumerableA a && configurable a
  | _ => false
  end.

(** The metadata and the line count of the demo sales order. *)
Definition demoMeta (f : string) : Value :=
  match cellTypes demoSchema !! ("item", f) with
  | Some t => VField t
  | None => VNull
  end.

Definition demoLineCount (r : MemRecord) : Z := default 0 (counts r !! "item").

(** ** The shape of an adapted record *)

(** The attributes of the [nlobjRecord] back-reference. *)
Definition hidden : Attrs :=
  {| writable := false; enumerableA := false; configurable := false |}.

(** The record refers back to the handle, for good. *)
Definition refersToHandle {P : Platform} (this : Obj P) : Prop :=
  this !! "nlobjRecord" = Some (PValue VRecord hidden).

(** A property that assignment cannot replace: an accessor (its setter
    runs instead) or a read-only data property. *)
Definition fixedProperty {P : Platform} (p : Property P) : bool :=
  match p with
  | PAccessor _ => true
  | PValue _ a | PList _ a => negb (writable a)
  end.

(** ** What a body field is expected to be bound to *)

(** [field ? field.type : "defaultDesc"] *)
Definition bodyType (field : Value) : Value :=
  if truthy field then typeProperty field else VStr "defaultDesc".

(** A body field under a converter: the handle's value accessors bound
    to the field name, the plural ones for a multiselect. *)
Definition bodyDescriptor (P : Platform) (c : Converter) (name : string)
    : Descriptor (World P) :=
  match c with
  | MultiSelect =>
      multiSelectDescriptor (getterOf P (VMethod "getFieldValues" [AStr name]))
                            (setterOf P (VMethod "setFieldValues" [AStr name]))
  | _ =>
      descriptorOf P c (getterOf P (VMethod "getFieldValue" [AStr name]))
                       (setterOf P (VMethod "setFieldValue" [AStr name]))
  end.

(** How the metadata of the body fields is read: not at all in a client
    script; otherwise by a call of the handle's [getField] that answers
    [meta f] and changes nothing. *)
Definition readsBodyMetadata (P : Platform) (names : list string)
    (meta : string -> Value) : Prop :=
  forall f, In f names ->
    if isClientScript P then meta f = VUndefined
    else forall w, invoke P "getField" [VStr f] w = (Ok (meta f), w).

(** The handle has the four value accessors of body fields. *)
Definition hasValueAccessors (P : Platform) : Prop :=
  Forall (fun m => hasMethod P m = true)
    ["getFieldValue"; "setFieldValue"; "getFieldValues"; "setFieldValues"].

(** The world after some entries were logged. *)
Definition withLogged {P : Platform} (w : World P) (entries : list LogEntry)
    : World P :=
  {| remote := remote w; logged := logged w ++ entries |}.

(** The two entries a successful [fromRecord] logs. *)
Definition buildLog : list LogEntry :=
  [ {| level := Debug;
       title := [Lit "adding [nlobjRecord] property to nsdal object"];
       details := [] |};
    {| level := Info;
       title := [Lit "nsdal object loaded or created successfully"];
       details := [] |} ].

(** The metadata of the body fields of the demo sales order. *)
Definition demoBodyMeta (f : string) : Value :=
  match bodyTypes demoSchema !! f with
  | Some t => VField t
  | None => VNull
  end.

(** The demo sales order over a handle that has every accessor. *)
Definition fullMethods : list string :=
  demoMethods ++ ["getFieldValues"; "setFieldValues"].

Definition fullPlatform : Platform := memPlatform demoSchema fullMethods false.

Definition fullWorld : World fullPlatform :=
  memWorld demoSchema fullMethods false demoRecord.

(** A computation that, run from [w], leaves the remote record as it
    found it. *)
Definition keepsRemoteAt {P : Platform} {A} (c : M (World P) A) (w : World P)
    : Prop :=
  remote (snd (c w)) = remote w.

(** The name of the handle method a body property writes through. *)
Definition setterName (c : Converter) : string :=
  match c with
  | MultiSelect => "setFieldValues"
  | _ => "setFieldValue"
  end.

(** [obj[name] = v] seen from the caller: the assignment itself returns
    nothing, so only the outcome kind and the world remain. *)
Definition discard {A B} (b : B) (r : Result A) : Result B :=
  match r with
  | Ok _ => Ok b
  | Throw e => Throw e
  | Unmodelled => Unmodelled
  end.

(** ** save *)

Section Save.
Variable P : Platform.

(** [nlapiSubmitRecord(record, doSourcing, ignoreMandatoryFields)], a
    function of the platform: it answers the internal id or raises. *)
Variable nlapiSubmitRecord :
  Value -> Value -> Value -> Remote P -> Result Value * Remote P.

Definition submit (record doSourcing ignoreMandatoryFields : Value)
    : M (World P) Value :=
  fun w =>
    let (r, rem) :=
      nlapiSubmitRecord record doSourcing ignoreMandatoryFields (remote w) in
    (r, {| remote := rem; logged := logged w |}).

(** The body of [save(doSourcing, ignoreMandatoryFields)], run with
    the record as [this].  The function is private to the module: a
    caller reaches it through the [save] property of a record, see
    [callSave].  What [this.nlobjRecord] reads is handed to the platform
    as it is; a sequence stored under that name has no counterpart
    among the values, which leaves that one call outside the model. *)
Definition save (doSourcing ignoreMandatoryFields : Value) (this : Obj P)
    : M (World P) Value :=
  do! log P Info [Lit "saving record"]
        [Lit "doSourcing:"; Shown doSourcing;
         Lit " ignoreMandatoryFields:"; Shown ignoreMandatoryFields] in
  match this !! "nlobjRecord" with
  | Some (PAccessor d) =>
      let! record := get d in
      submit record doSourcing ignoreMandatoryFields
  | Some (PValue record _) => submit record doSourcing ignoreMandatoryFields
  | Some (PList _ _) => liftR Unmodelled
  | None => submit VUndefined doSourcing ignoreMandatoryFields
  end.

(** [obj.save(doSourcing, ignoreMandatoryFields)]: whatever the [save]
    property of the record holds is called with the record as [this].
    It is the module's [save] only as long as the property still holds
    the function [addFieldProperties] assigned; an accessor (a body
    field of that name) is read first, and a sequence or a missing
    property cannot be called. *)
Definition callSave (doSourcing ignoreMandatoryFields : Value)
    : M (Scope P) Value :=
  let! obj := getThis P in
  match obj !! "save" with
  | Some (PValue (VAdapterFn f) _) =>
      if String.eqb f "save"
      then inWorld P (save doSourcing ignoreMandatoryFields obj)
      else callProp P "save" [doSourcing; ignoreMandatoryFields]
  | _ => callProp P "save" [doSourcing; ignoreMandatoryFields]
  end.

End Save.

(** The entry [save] logs. *)
Definition saveEntry (doSourcing ignoreMandatoryFields : Value) : LogEntry :=
  {| level := Info;
     title := [Lit "saving record"];
     details := [Lit "doSourcing:"; Shown doSourcing;
                 Lit " ignoreMandatoryFields:"; Shown ignoreMandatoryFields] |}.

(** A submit that files the record under the id 42 unless mandatory
    fields are enforced on a record without a memo. *)
Definition demoSubmit (record doSourcing ignoreMandatoryFields : Value)
    (r : MemRecord) : Result Value * MemRecord :=
  match record with
  | VRecord =>
      if truthy ignoreMandatoryFields
      then (Ok (VNum 42), r)
      else match body r !! "memo" with
           | Some _ => (Ok (VNum 42), r)
           | None => (Throw (Thrown "USER_ERROR"), r)
           end
  | _ => (Throw (Thrown "SSS_INVALID_RECORD_OBJ"), r)
  end.

(** A computation on a record and the world that changes no property
    of the record other than the one under [key]. *)
Definition touchesOnly {P : Platform} {A} (key : string) (c : M (Scope P) A)
    : Prop :=
  forall s k, k <> key -> fst (snd (c s)) !! k = fst s !! k.

(** The record holds, under [key], a sequence that has not received its
    [addLine] and [commitLine] methods. *)
Definition unready {P : Platform} (this : Obj P) (key : string) : Prop :=
  exists l a, this !! key = Some (PList l a) /\ ready l = false.

(** The sequence [withSublist(key, names)] attaches when there is no
    line to read. *)
Definition emptySequence (P : Platform) (key : string) (names : list string)
    : Property P :=
  PList {| rows := []; listname := key; propNames := names; ready := true |}
        sealed.

(** The demo record with an empty sequence already attached for its
    [item] sublist, although the handle counts one line. *)
Definition demoStale : Obj demoPlatform :=
  <["item" := emptySequence demoPlatform "item" ["quantity"; "shipdate"]]>
    demoAdapted.

(** The entry [commitLine] logs. *)
Definition commitEntry (lname : string) : LogEntry :=
  {| level := Debug;
     title := [Lit ("Committing line on list '" +:+ lname +:+ "'")];
     details := [] |}.

(** A property that [Object.defineProperty] cannot turn into the
    sequence of a sublist: an accessor, or a data property that is not
    configurable and is hidden or read-only. *)
Definition resists {P : Platform} (p : Property P) : bool :=
  match p with
  | PAccessor _ => true
  | PValue _ a | PList _ a =>
      negb (configurable a) && negb (enumerableA a && writable a)
  end.

(** ** A field type that names an inherited member *)






(** * Properties *)

(** ** Monad and converter equations *)

Lemma bind_ok {S A B} (c : M S A) (k : A -> M S B) s a s' :
  c s = (Ok a, s') -> bind c k s = k a s'.
Proof. intros H. unfold bind. now rewrite H. Qed.

Lemma bind_throw {S A B} (c : M S A) (k : A -> M S B) s e s' :
  c s = (Throw e, s') -> bind c k s = (Throw e, s').
Proof. intros H. unfold bind. now rewrite H. Qed.

Lemma isDefined_true v : isDefined v = true <-> v <> VUndefined.
Proof. destruct v; simpl; split; congruence. Qed.

(** What the setter of each converter hands to the bound setter. *)
Lemma set_defined {S} P (c : Converter) (getter : M S Value)
    (setter : Value -> M S Value) v :
  isDefined v = true ->
  exists arg, set (descriptorOf P c getter setter) v
              = (do! setter arg in ret tt).
Proof.
  intros Hv. destruct c; simpl; rewrite Hv; eauto.
Qed.

Lemma set_undefined {S} P (c : Converter) (getter : M S Value)
    (setter : Value -> M S Value) s :
  set (descriptorOf P c getter setter) VUndefined s = (Ok tt, s).
Proof. destruct c; reflexivity. Qed.

(** C1: for each of the four converters, [set(undefined)] is a no-op:
    the bound setter is not invoked (its call counter stays put) and
    the state is unchanged; any other argument ([null], [false], the
    empty string and the empty list among them) makes exactly one call
    of the bound setter: the counter grows by one and the state is the
    one that single call leaves. *)
Theorem set_skips_undefined_calls_once {S} P (c : Converter)
    (getter : M S Value) (setter : Value -> M S Value) (s : S) (n : nat) :
  let d := descriptorOf P c (uncounted getter) (counted setter) in
  set d VUndefined (s, n) = (Ok tt, (s, n))
  /\ (forall v, v <> VUndefined ->
        exists arg, snd (set d v (s, n)) = (snd (setter arg s), Datatypes.S n))
  /\ (forall v, In v [VNull; VBool false; VStr ""; VArr []] ->
        exists arg, snd (set d v (s, n)) = (snd (setter arg s), Datatypes.S n)).
Proof.
  intros d. split; [apply set_undefined |].
  assert (Hone : forall v, v <> VUndefined ->
            exists arg, snd (set d v (s, n)) = (snd (setter arg s), Datatypes.S n)).
  { intros v Hv. apply isDefined_true in Hv.
    destruct (set_defined P c (uncounted getter) (counted setter) v Hv) as [arg Harg].
    exists arg. unfold d. rewrite Harg.
    unfold bind, counted, ret. simpl.
    destruct (setter arg s) as [[a | e |] s']; reflexivity. }
  split; [exact Hone |].
  intros v Hin. apply Hone. simpl in Hin.
  destruct Hin as [<- | [<- | [<- | [<- | []]]]]; discriminate.
Qed.

Lemma set_skips_undefined_calls_once_witness :
  VNull <> VUndefined
  /\ exists arg,
       snd (set (descriptorOf (memPlatform noSchema [] false) Checkbox
                   (uncounted cellGetter) (counted cellSetter)) VNull
              (VStr "T", 0%nat))
       = (snd (cellSetter arg (VStr "T")), 1%nat).
Proof.
  split; [discriminate |].
  apply (proj1 (proj2 (set_skips_undefined_calls_once (memPlatform noSchema [] false) Checkbox
                  cellGetter cellSetter (VStr "T") 0%nat))).
  discriminate.
Defined.

(** ** The date/time converter *)

Section DateTime.
Context {S : Type}.
Variable P : Platform.
Variable fieldType : string.
Variable getter : M S Value.
Variable setter : Value -> M S Value.

Let d := dateTimeDescriptor P fieldType getter setter.

Lemma dateTime_get s raw s' :
  getter s = (Ok raw, s') ->
  get d s = (Ok (if truthy raw
                 then moment P (nlapiStringToDate P raw fieldType)
                 else raw), s').
Proof. intros H. unfold d. simpl. now rewrite (bind_ok _ _ _ _ _ H). Qed.

Lemma dateTime_set_truthy v :
  truthy v = true ->
  set d v = (do! setter (nlapiDateToString P (toDate P (moment P v)) fieldType)
             in ret tt).
Proof.
  intros H. unfold d. simpl. rewrite H.
  destruct v; simpl in *; congruence.
Qed.

Lemma dateTime_set_falsy v :
  v <> VUndefined -> truthy v = false ->
  set d v = (do! setter VNull in ret tt).
Proof.
  intros Hd H. apply isDefined_true in Hd. unfold d. simpl.
  now rewrite Hd, H.
Qed.

(** C3, as the code has it: [get] returns a falsy raw value as it is
    and the moment of the parsed raw value (under the sub-type)
    otherwise; [set] with [null], and with every other defined falsy
    value ([false], [0], [NaN], the empty string), calls the setter
    with [null]; [set] with a truthy value calls the setter with the
    value converted to a native date and serialised for the
    sub-type. *)
Theorem dateTime_get_and_set :
  (forall s raw s', getter s = (Ok raw, s') ->
     (truthy raw = false -> get d s = (Ok raw, s'))
     /\ (truthy raw = true ->
         get d s = (Ok (moment P (nlapiStringToDate P raw fieldType)), s')))
  /\ set d VNull = (do! setter VNull in ret tt)
  /\ (forall v, v <> VUndefined -> truthy v = false ->
        set d v = (do! setter VNull in ret tt))
  /\ (forall v, truthy v = true ->
        set d v = (do! setter (nlapiDateToString P (toDate P (moment P v))
                                 fieldType)
                   in ret tt)).
Proof.
  split; [| split; [| split]].
  - intros s raw s' H. pose proof (dateTime_get s raw s' H) as Hg.
    split; intros Ht; rewrite Ht in Hg; exact Hg.
  - apply dateTime_set_falsy; [discriminate | reflexivity].
  - apply dateTime_set_falsy.
  - apply dateTime_set_truthy.
Qed.

End DateTime.

Lemma dateTime_get_and_set_witness :
  truthy (VStr "") = false
  /\ get (dateTimeDescriptor (memPlatform noSchema [] false) "date" cellGetter cellSetter)
       (VStr "")
     = (Ok (VStr ""), VStr "").
Proof.
  split; [reflexivity |].
  apply (proj1 (dateTime_get_and_set (memPlatform noSchema [] false) "date"
                  cellGetter cellSetter) (VStr "") (VStr "") (VStr "")
           eq_refl).
  reflexivity.
Defined.

(** The setter does not serialise every defined value other than
    [null]: the empty string reaches the store as [null]. *)
Lemma dateTime_set_not_always_serialised :
  ~ (forall (P : Platform) (fieldType : string) (v s : Value),
       v <> VUndefined -> v <> VNull ->
       snd (set (dateTimeDescriptor P fieldType cellGetter cellSetter) v s)
       = nlapiDateToString P (toDate P (moment P v)) fieldType).
Proof.
  intros H.
  specialize (H (memPlatform noSchema [] false) "date" (VStr "") (VStr "1/2/2020")).
  simpl in H. discriminate H; discriminate.
Qed.

(** ** The checkbox converter *)

Section Checkbox.
Context {S : Type}.
Variable getter : M S Value.
Variable setter : Value -> M S Value.

Let d := checkboxDescriptor getter setter.

Lemma isT_spec v : isT v = true <-> v = VStr "T".
Proof.
  destruct v; simpl; try (split; congruence).
  rewrite String.eqb_eq. split; congruence.
Qed.

Lemma isTrue_spec v : isTrue v = true <-> v = VBool true.
Proof. destruct v as [| | [|] | | | | | | | | | |]; simpl; split; congruence. Qed.

Lemma checkbox_get s raw s' :
  getter s = (Ok raw, s') -> get d s = (Ok (VBool (isT raw)), s').
Proof. intros H. unfold d. simpl. now rewrite (bind_ok _ _ _ _ _ H). Qed.

Lemma checkbox_set v :
  v <> VUndefined ->
  set d v = (do! setter (if isTrue v then VStr "T" else VStr "F") in ret tt).
Proof.
  intros Hd. apply isDefined_true in Hd. unfold d. simpl. now rewrite Hd.
Qed.

Lemma checkbox_set_get v s :
  echoes getter setter -> v <> VUndefined ->
  fst (get d (snd (set d v s))) = Ok (VBool (isTrue v)).
Proof.
  intros He Hd. rewrite (checkbox_set v Hd).
  set (tok := if isTrue v then VStr "T" else VStr "F").
  destruct (He tok s) as [Hget [r0 Hset]].
  unfold bind at 1. destruct (setter tok s) as [r s1] eqn:E.
  cbn [fst snd] in *. subst r. unfold ret. cbn [snd].
  rewrite (checkbox_get _ _ _ Hget). cbn [fst].
  unfold tok. now destruct (isTrue v).
Qed.

(** C5: [get] returns [true] exactly when the raw stored value is the
    token ['T'] and [false] for every other raw value; [set] sends ['T']
    for [true] and ['F'] for every other defined value; over a store
    that echoes, [set(true)] then [get()] gives [true] and [set(false)]
    then [get()] gives [false]. *)
Theorem checkbox_get_set_roundtrip :
  (forall s raw s', getter s = (Ok raw, s') ->
     exists b, get d s = (Ok (VBool b), s') /\ (b = true <-> raw = VStr "T"))
  /\ set d (VBool true) = (do! setter (VStr "T") in ret tt)
  /\ (forall v, v <> VUndefined -> v <> VBool true ->
        set d v = (do! setter (VStr "F") in ret tt))
  /\ (echoes getter setter ->
      forall s,
        fst (get d (snd (set d (VBool true) s))) = Ok (VBool true)
        /\ fst (get d (snd (set d (VBool false) s))) = Ok (VBool false)).
Proof.
  split; [| split; [| split]].
  - intros s raw s' H. exists (isT raw). split.
    + now apply checkbox_get.
    + apply isT_spec.
  - now rewrite checkbox_set.
  - intros v Hd Ht. rewrite (checkbox_set v Hd).
    destruct (isTrue v) eqn:E; [| reflexivity].
    apply isTrue_spec in E. contradiction.
  - intros He s. split.
    + now rewrite checkbox_set_get.
    + now rewrite checkbox_set_get.
Qed.

End Checkbox.

Lemma cell_echoes : echoes cellGetter cellSetter.
Proof. intros v s. split; [reflexivity | now exists VUndefined]. Qed.

Lemma checkbox_get_set_roundtrip_witness :
  echoes cellGetter cellSetter
  /\ fst (get (checkboxDescriptor cellGetter cellSetter)
            (snd (set (checkboxDescriptor cellGetter cellSetter) (VBool true)
                    (VStr "F"))))
     = Ok (VBool true).
Proof.
  split; [exact cell_echoes |].
  apply (proj2 (proj2 (proj2 (checkbox_get_set_roundtrip cellGetter cellSetter)))
           cell_echoes (VStr "F")).
Defined.

(** ** The multiselect converter *)

Section MultiSelect.
Context {S : Type}.
Variable getter : M S Value.
Variable setter : Value -> M S Value.

Let d := @multiSelectDescriptor S getter setter.

Lemma multiSelect_get s raw s' :
  getter s = (Ok raw, s') ->
  get d s = (Ok (if truthy raw then raw else VArr []), s').
Proof. intros H. unfold d. simpl. now rewrite (bind_ok _ _ _ _ _ H). Qed.

Lemma multiSelect_get_truthy s r :
  fst (get d s) = Ok r -> truthy r = true.
Proof.
  unfold d. simpl. unfold bind.
  destruct (getter s) as [[raw | e |] s']; simpl; try discriminate.
  intros [= <-]. destruct (truthy raw) eqn:E; [exact E | reflexivity].
Qed.

Lemma multiSelect_set v :
  v <> VUndefined -> set d v = (do! setter v in ret tt).
Proof.
  intros Hd. apply isDefined_true in Hd. unfold d. simpl. now rewrite Hd.
Qed.

(** C6: [get] returns the raw list of the getter when there is one and
    the empty list when the remote value is absent (falsy), and so never
    [null] or [undefined]; [set] forwards every defined value as it is,
    the empty list included; over a store that echoes, [set([])] then
    [get()] returns [[]]. *)
Theorem multiSelect_get_set_roundtrip :
  (forall s raw s', getter s = (Ok raw, s') ->
     (forall xs, raw = VArr xs -> get d s = (Ok (VArr xs), s'))
     /\ (truthy raw = false -> get d s = (Ok (VArr []), s')))
  /\ (forall s r, fst (get d s) = Ok r -> r <> VNull /\ r <> VUndefined)
  /\ (forall v, v <> VUndefined -> set d v = (do! setter v in ret tt))
  /\ set d (VArr []) = (do! setter (VArr []) in ret tt)
  /\ (echoes getter setter ->
      forall s, fst (get d (snd (set d (VArr []) s))) = Ok (VArr [])).
Proof.
  split; [| split; [| split; [| split]]].
  - intros s raw s' H. pose proof (multiSelect_get s raw s' H) as Hg. split.
    + intros xs ->. exact Hg.
    + intros Hf. now rewrite Hf in Hg.
  - intros s r H. apply multiSelect_get_truthy in H.
    split; intros ->; discriminate.
  - apply multiSelect_set.
  - now apply multiSelect_set.
  - intros He s. rewrite multiSelect_set by discriminate.
    destruct (He (VArr []) s) as [Hget [r0 Hset]].
    unfold bind at 1. destruct (setter (VArr []) s) as [r s1].
    cbn [fst snd] in *. subst r. unfold ret. cbn [snd].
    now rewrite (multiSelect_get _ _ _ Hget).
Qed.

End MultiSelect.

Lemma multiSelect_get_set_roundtrip_witness :
  echoes cellGetter cellSetter
  /\ fst (get (multiSelectDescriptor cellGetter cellSetter)
            (snd (set (multiSelectDescriptor cellGetter cellSetter) (VArr [])
                    VNull)))
     = Ok (VArr []).
Proof.
  split; [exact cell_echoes |].
  apply (proj2 (proj2 (proj2 (proj2
           (multiSelect_get_set_roundtrip cellGetter cellSetter))))
           cell_echoes VNull).
Defined.

(** ** Errors while attaching body fields *)

Section AttachErrors.
Variable P : Platform.

Lemma foldM_app {S A B} (f : B -> A -> M S B) (b : B) (xs ys : list A) s b' s' :
  foldM f b xs s = (Ok b', s') ->
  foldM f b (xs ++ ys) s = foldM f b' ys s'.
Proof.
  revert b s. induction xs as [| x xs IH]; intros b s H; simpl in *.
  - unfold ret in H. now inversion H.
  - unfold bind in *. destruct (f b x s) as [[b1 | e |] s1]; try discriminate.
    now apply IH.
Qed.

Lemma onAttachError_throws name e w :
  onAttachError P name e w
  = (Throw e,
     {| remote := remote w;
        logged := if isTypeError e
                  then logged w ++ [invalidFieldEntry name]
                  else logged w |}).
Proof.
  unfold onAttachError, bind. destruct e; simpl; try reflexivity.
  now destruct w.
Qed.

(** C7: when attaching the property of a field raises an error [e]
    (the fields before it having been attached), [addFieldProperties]
    raises that same error to its caller, whatever [e] is; and when [e]
    is a [TypeError] the logger has received, as its last entry, the
    error diagnostic that names the field. *)
Theorem attach_error_logged_and_rethrown
    (before after : list string) (name : string) (e : Exn)
    (w w1 w2 : World P) (obj : Row P) :
  foldM (fun o n => tryCatch (attachField P o n) (onAttachError P n))
        (∅ : Row P) before w = (Ok obj, w1) ->
  attachField P obj name w1 = (Throw e, w2) ->
  exists w3,
    addFieldProperties P (before ++ name :: after) w = (Throw e, w3)
    /\ remote w3 = remote w2
    /\ (isTypeError e = true ->
        logged w3 = (logged w2 ++ [invalidFieldEntry name])%list
        /\ details (invalidFieldEntry name)
           = [Lit ("possibly invalid field name: '" +:+ name +:+ "'")])
    /\ (isTypeError e = false -> logged w3 = logged w2).
Proof.
  intros Hbefore Hname.
  eexists. split; [| split; [| split]].
  - unfold addFieldProperties. apply bind_throw.
    rewrite (foldM_app _ _ _ _ _ _ _ Hbefore). simpl.
    apply bind_throw. unfold tryCatch. rewrite Hname.
    apply onAttachError_throws.
  - reflexivity.
  - intros He. simpl. rewrite He. split; reflexivity.
  - intros He. simpl. now rewrite He.
Qed.

End AttachErrors.

Lemma attach_error_logged_and_rethrown_witness :
  let P := memPlatform noSchema ["getField"] false in
  let w := memWorld noSchema ["getField"] false emptyRecord in
  exists w3,
    addFieldProperties P ["title"] w = (Throw TypeError, w3)
    /\ logged w3 = [invalidFieldEntry "title"].
Proof.
  intros P w.
  destruct (attach_error_logged_and_rethrown P [] [] "title" TypeError w w w ∅
              eq_refl eq_refl) as (w3 & Hrun & _ & Hlog & _).
  exists w3. split; [exact Hrun |].
  exact (proj1 (Hlog eq_refl)).
Defined.

(** ** Falling back to the default converter *)

Section Fallback.
Variable P : Platform.

Lemma isRecognized_false_eqb t :
  isRecognized (VStr t) = false ->
  String.eqb t "date" = false /\ String.eqb t "datetime" = false
  /\ String.eqb t "datetimetz" = false /\ String.eqb t "multiselect" = false
  /\ String.eqb t "checkbox" = false.
Proof.
  unfold isRecognized, recognizedTypes. simpl.
  rewrite !orb_false_iff. tauto.
Qed.

(** A type that is not recognised finds no own entry of the body
    table, or the default one. *)
Lemma body_table_unrecognized fieldType :
  isRecognized fieldType = false ->
  bodyFieldDescriptors P fieldType = None
  \/ bodyFieldDescriptors P fieldType = Some (bodyDefaultDesc P).
Proof.
  intros H. destruct fieldType; try (now left).
  apply isRecognized_false_eqb in H as (H1 & H2 & H3 & H4 & H5).
  unfold bodyFieldDescriptors. rewrite H1, H2, H3, H4, H5.
  destruct (String.eqb s "defaultDesc"); [now right | now left].
Qed.


(** The type the adapter works with once the metadata is there (or
    not): every outcome listed in C8 leaves a type that is neither
    recognised nor inherited. *)
Lemma missing_metadata_plain field fallback :
  isRecognized (VStr fallback) = false -> inherited (VStr fallback) = None ->
  unresolved field ->
  let fieldType := if truthy field then typeProperty field else VStr fallback in
  isRecognized fieldType = false /\ inherited fieldType = None.
Proof.
  intros Hf Hi [H | [H1 H2]]; cbv zeta.
  - rewrite H. now split.
  - destruct (truthy field); now split.
Qed.


(** The way of the default converter through [attachField], once the
    metadata lookup is over. *)
Lemma attachField_plain obj name w field w' :
  (if isClientScript P then ret VUndefined
   else invoke P "getField" [VStr name]) w = (Ok field, w') ->
  unresolved field ->
  attachField P obj name w
  = (let! d := liftR (bodyDefaultDesc P name) in
     liftR (defineAccessor P obj name d)) w'.
Proof.
  intros Hget Hty. unfold attachField.
  rewrite (bind_ok _ _ _ _ _ Hget).
  destruct (missing_metadata_plain field "defaultDesc" eq_refl eq_refl Hty)
    as [Hrec Hinh].
  cbv zeta in Hrec, Hinh.
  destruct (body_table_unrecognized _ Hrec) as [-> | ->]; [| reflexivity].
  now rewrite Hinh.
Qed.

End Fallback.

Section CellFallback.
Variable P : Platform.

Lemma bindProp_passed (this : Obj P) w name a coord :
  this !! name = Some (PValue (VMethod name []) a) ->
  bindProp P name coord (this, w) = (Ok (VMethod name coord), (this, w)).
Proof.
  intros H. unfold bindProp, bind, getThis. cbn [fst snd]. now rewrite H.
Qed.

Lemma sublistBound_passed conv (this : Obj P) w coord :
  passesCells this ->
  sublistBound P conv "getLineItemValue" "setLineItemValue" coord (this, w)
  = (Ok (conv (getterOf P (VMethod "getLineItemValue" coord))
              (setterOf P (VMethod "setLineItemValue" coord))), (this, w)).
Proof.
  intros [[a1 Hg] [a2 Hs]]. unfold sublistBound.
  rewrite (bind_ok _ _ _ _ _ (bindProp_passed _ _ _ _ _ Hg)).
  now rewrite (bind_ok _ _ _ _ _ (bindProp_passed _ _ _ _ _ Hs)).
Qed.


End CellFallback.







(** ** The pass-through methods *)

Section PassThru.
Variable P : Platform.

Lemma liftR_ok {S A} (r : Result A) (s s' : S) a :
  liftR r s = (Ok a, s') -> r = Ok a /\ s' = s.
Proof. unfold liftR. intros [= -> ->]. split; reflexivity. Qed.

Lemma bind_ok_inv {S A B} (c : M S A) (k : A -> M S B) s b s' :
  bind c k s = (Ok b, s') ->
  exists a s1, c s = (Ok a, s1) /\ k a s1 = (Ok b, s').
Proof.
  unfold bind. destruct (c s) as [[a | e |] s1]; try discriminate.
  intros H. now exists a, s1.
Qed.

Lemma defineInherited_ok member (obj obj' : Row P) name :
  defineInherited P member obj name = Ok obj' ->
  (obj !! name = None /\ obj' = <[name := CBlank]> obj)
  \/ (is_Some (obj !! name) /\ obj' = obj).
Proof.
  destruct member; try discriminate. simpl. unfold defineNothing.
  destruct (obj !! name) eqn:E; intros [= <-].
  - right. split; [now eexists | reflexivity].
  - now left.
Qed.

Lemma defineAccessor_ok (obj obj' : Row P) name d :
  defineAccessor P obj name d = Ok obj' ->
  obj !! name = None /\ obj' = <[name := CAccessor d]> obj.
Proof.
  unfold defineAccessor. destruct (obj !! name); [discriminate |].
  now intros [= <-].
Qed.

(** A field that was attached is a new cell of the object, or was
    there already and is left as it was. *)
Lemma attachField_ok obj name w obj' w' :
  attachField P obj name w = (Ok obj', w') ->
  (exists c, obj !! name = None /\ obj' = <[name := c]> obj)
  \/ (is_Some (obj !! name) /\ obj' = obj).
Proof.
  unfold attachField. intros H.
  apply bind_ok_inv in H as (field & w1 & _ & H).
  destruct (bodyFieldDescriptors P _) as [make |].
  - apply bind_ok_inv in H as (d & w2 & _ & H).
    apply liftR_ok in H as [H _]. apply defineAccessor_ok in H as [Hn ->].
    left. now exists (CAccessor d).
  - destruct (inherited _) as [member |].
    + apply liftR_ok in H as [H _].
      apply defineInherited_ok in H as [[Hn ->] | [Hn ->]].
      * left. now exists CBlank.
      * now right.
    + apply bind_ok_inv in H as (d & w2 & _ & H).
      apply liftR_ok in H as [H _]. apply defineAccessor_ok in H as [Hn ->].
      left. now exists (CAccessor d).
Qed.

Lemma tryCatch_ok {S A} (body : M S A) handler (s s' : S) a :
  (forall e s1 r s2, handler e s1 = (r, s2) -> forall x, r <> Ok x) ->
  tryCatch body handler s = (Ok a, s') -> body s = (Ok a, s').
Proof.
  intros Hh. unfold tryCatch.
  destruct (body s) as [[x | e |] s1] eqn:E; try easy.
  intros H. exfalso. exact (Hh _ _ _ _ H a eq_refl).
Qed.

Lemma onAttachError_never_ok name e w r w' :
  onAttachError P name e w = (r, w') -> forall x, r <> Ok x.
Proof.
  rewrite onAttachError_throws. intros [= <- _] x. discriminate.
Qed.

(** The fields attached are among the names asked for. *)
Lemma attached_fields_named names : forall (o0 fields : Row P) w w',
  foldM (fun o n => tryCatch (attachField P o n) (onAttachError P n))
        o0 names w = (Ok fields, w') ->
  forall k, is_Some (fields !! k) -> is_Some (o0 !! k) \/ In k names.
Proof.
  induction names as [| n names IH]; intros o0 fields w w' H k Hk.
  - simpl in H. unfold ret in H. inversion H; subst. now left.
  - simpl in H. apply bind_ok_inv in H as (o1 & w1 & Hstep & Hrest).
    apply tryCatch_ok in Hstep; [| apply onAttachError_never_ok].
    destruct (IH _ _ _ _ Hrest k Hk) as [Hin | Hin]; [| right; now right].
    apply attachField_ok in Hstep as [(c & _ & ->) | [_ ->]]; [| now left].
    destruct (decide (n = k)) as [-> | Hne].
    + right. now left.
    + left. unfold Row in *. now rewrite lookup_insert_ne in Hin.
Qed.

End PassThru.

Section PassThruAll.
Variable P : Platform.

Lemma assign_ok (obj : Obj P) name v w obj' w' :
  assign P obj name v w = (Ok obj', w') ->
  forall k, is_Some (obj' !! k) -> k = name \/ is_Some (obj !! k).
Proof.
  unfold assign. intros H k Hk.
  assert (Hins : forall a, is_Some ((<[name := PValue v a]> obj : Obj P) !! k) ->
                 k = name \/ is_Some (obj !! k)).
  { intros a Ha. destruct (decide (name = k)) as [-> | Hne]; [now left |].
    right. unfold Obj in *. now rewrite lookup_insert_ne in Ha. }
  destruct (obj !! name) as [[d | x a | l a] |] eqn:E.
  - apply bind_ok_inv in H as (_ & w1 & _ & H). inversion H; subst. now right.
  - inversion H; subst. destruct (writable a); [now apply Hins with a | now right].
  - inversion H; subst. destruct (writable a); [now apply Hins with a | now right].
  - inversion H; subst. now apply Hins with assigned.
Qed.

(** The properties of the record [addFieldProperties] returns are the
    requested fields and its own three names. *)
Lemma addFieldProperties_names names w obj w' :
  addFieldProperties P names w = (Ok obj, w') ->
  forall k, is_Some (obj !! k) -> In k names \/ In k ownNames.
Proof.
  unfold addFieldProperties. intros H k Hk.
  apply bind_ok_inv in H as (fields & w1 & Hfields & H).
  apply bind_ok_inv in H as (_ & w2 & _ & H).
  apply bind_ok_inv in H as (o1 & w3 & Href & H).
  apply bind_ok_inv in H as (o2 & w4 & Hsave & H).
  apply bind_ok_inv in H as (o3 & w5 & Hwith & H).
  inversion H; subst; clear H.
  destruct (assign_ok _ _ _ _ _ _ Hwith k Hk) as [-> | Hk2];
    [right; simpl; tauto |].
  destruct (assign_ok _ _ _ _ _ _ Hsave k Hk2) as [-> | Hk1];
    [right; simpl; tauto |].
  apply liftR_ok in Href as [Href _]. unfold defineRecordRef in Href.
  destruct (fields !! "nlobjRecord"); [discriminate |].
  inversion Href; subst; clear Href.
  destruct (decide ("nlobjRecord" = k)) as [<- | Hne];
    [right; simpl; tauto |].
  unfold Obj, Row in *. rewrite lookup_insert_ne in Hk1 by exact Hne.
  rewrite lookup_fmap in Hk1. apply fmap_is_Some in Hk1.
  destruct (attached_fields_named P _ _ _ _ _ Hfields k Hk1) as [Hempty | Hin].
  - destruct Hempty as [x Hx]. unfold Row in Hx.
    now rewrite lookup_empty in Hx.
  - now left.
Qed.

Lemma passThru_step (obj : Obj P) n w :
  obj !! n = None \/ exposes obj n ->
  passThru P obj n w
  = (Ok (if hasMethod P n
         then <[n := PValue (VMethod n []) assigned]> obj else obj), w).
Proof.
  intros Hn. unfold passThru, member.
  destruct (hasMethod P n); [| reflexivity].
  simpl. unfold bind, liftR, assign. simpl.
  destruct Hn as [-> | ->]; reflexivity.
Qed.

Lemma passThru_all names : forall (obj : Obj P) w,
  (forall n, In n names -> obj !! n = None \/ exposes obj n) ->
  exists obj',
    foldM (passThru P) obj names w = (Ok obj', w)
    /\ (forall k, ~ In k names -> obj' !! k = obj !! k)
    /\ (forall n, In n names ->
          obj' !! n = if hasMethod P n
                      then Some (PValue (VMethod n []) assigned)
                      else obj !! n).
Proof.
  induction names as [| m names IH]; intros obj w Hpre.
  - exists obj. split; [reflexivity |]. split; [now intros | now intros n []].
  - set (obj1 := if hasMethod P m
                 then <[m := PValue (VMethod m []) assigned]> obj else obj).
    assert (Hm : obj1 !! m = if hasMethod P m
                             then Some (PValue (VMethod m []) assigned)
                             else obj !! m).
    { unfold obj1. destruct (hasMethod P m); [| reflexivity].
      unfold Obj. apply lookup_insert_eq. }
    assert (Hother : forall k, k <> m -> obj1 !! k = obj !! k).
    { intros k Hk. unfold obj1. destruct (hasMethod P m); [| reflexivity].
      unfold Obj. now apply lookup_insert_ne. }
    assert (Hpre1 : forall n, In n names -> obj1 !! n = None \/ exposes obj1 n).
    { intros n Hn. destruct (decide (n = m)) as [-> | Hne].
      - unfold exposes. rewrite Hm.
        destruct (hasMethod P m); [now right |].
        apply Hpre. now left.
      - unfold exposes. rewrite (Hother n Hne). apply Hpre. now right. }
    destruct (IH obj1 w Hpre1) as (obj' & Hrun & Hout & Hin).
    exists obj'. split; [| split].
    + simpl. rewrite (bind_ok _ _ _ _ _ (passThru_step obj m w (Hpre m (or_introl eq_refl)))).
      exact Hrun.
    + intros k Hk. rewrite Hout by (intros Hin'; apply Hk; now right).
      apply Hother. intros ->. apply Hk. now left.
    + intros n Hn. destruct (in_dec String.string_dec n names) as [Hin' | Hout'].
      * rewrite (Hin n Hin'). destruct (decide (n = m)) as [-> | Hne].
        -- rewrite Hm. now destruct (hasMethod P m).
        -- now rewrite (Hother n Hne).
      * destruct Hn as [-> | Hn]; [| contradiction].
        now rewrite (Hout n Hout').
Qed.

End PassThruAll.

Lemma passThru_not_own n : In n functionsToPassThru -> ~ In n ownNames.
Proof.
  intros Hn Hown.
  assert (Hall : forallb (fun m => negb (existsb (String.eqb m) ownNames))
                   functionsToPassThru = true) by reflexivity.
  rewrite forallb_forall in Hall. specialize (Hall n Hn).
  apply negb_true_iff in Hall.
  assert (existsb (String.eqb n) ownNames = true); [| congruence].
  apply existsb_exists. exists n. split; [exact Hown | apply String.eqb_refl].
Qed.

(** C9, as the code has it: once the requested fields have been
    attached (which itself binds the handle's [getFieldValue] and
    [setFieldValue], and calls its [getField] outside client scripts),
    and when no requested field bears the name of an allow-listed
    method, copying the methods raises nothing, whatever the handle
    lacks, and for every name on the allow-list the adapted record
    exposes the method, bound to the handle, if and only if the handle
    has it; a missing method leaves no property at all. *)
Theorem fromRecord_exposes_handle_methods (P : Platform)
    (names : list string) (w w0 : World P) (obj0 : Obj P) :
  addFieldProperties P names w = (Ok obj0, w0) ->
  (forall n, In n functionsToPassThru -> ~ In n names) ->
  exists obj w',
    fromRecord P names w = (Ok obj, w')
    /\ remote w' = remote w0
    /\ forall n, In n functionsToPassThru ->
         (exposes obj n <-> hasMethod P n = true)
         /\ (hasMethod P n = false -> obj !! n = None).
Proof.
  intros Hadd Hfree.
  assert (Hnone : forall n, In n functionsToPassThru -> obj0 !! n = None).
  { intros n Hn. destruct (obj0 !! n) eqn:E; [| reflexivity].
    exfalso.
    destruct (addFieldProperties_names P _ _ _ _ Hadd n) as [Hin | Hin].
    - rewrite E. now eexists.
    - now apply (Hfree n).
    - now apply (passThru_not_own n). }
  destruct (passThru_all P functionsToPassThru obj0 w0) as (obj & Hrun & _ & Hin).
  { intros n Hn. left. now apply Hnone. }
  eexists obj, _. split; [| split].
  - unfold fromRecord. rewrite (bind_ok _ _ _ _ _ Hadd).
    rewrite (bind_ok _ _ _ _ _ Hrun). reflexivity.
  - reflexivity.
  - intros n Hn. unfold exposes. rewrite (Hin n Hn), (Hnone n Hn).
    destruct (hasMethod P n); split; try split; congruence.
Qed.

Lemma fromRecord_exposes_handle_methods_witness :
  let P := memPlatform noSchema ["getId"; "getFieldValue"] true in
  exists obj w',
    fromRecord P [] (memWorld noSchema ["getId"; "getFieldValue"] true emptyRecord)
    = (Ok obj, w')
    /\ exposes obj "getId"
    /\ obj !! "setFieldValue" = None.
Proof.
  intros P.
  destruct (fromRecord_exposes_handle_methods P []
              (memWorld noSchema ["getId"; "getFieldValue"] true emptyRecord)
              _ _ eq_refl (fun n _ H => H))
    as (obj & w' & Hrun & _ & Hall).
  exists obj, w'. split; [exact Hrun |]. split.
  - apply (proj1 (Hall "getId" ltac:(simpl; tauto))). reflexivity.
  - apply (proj2 (Hall "setFieldValue" ltac:(simpl; tauto))). reflexivity.
Defined.

Lemma raisesTypeError_spec {A} (r : Result A) :
  raisesTypeError r = true -> r = Throw TypeError.
Proof. destruct r as [a | [| what] |]; simpl; congruence. Qed.

Lemma isOk_eta {A S} (r : Result A * S) (d : A) :
  isOk (fst r) = true -> r = (Ok (valueOr d (fst r)), snd r).
Proof. destruct r as [[a | e |] s]; simpl; congruence. Qed.

Lemma hasProp_false {P} (o : Obj P) k : hasProp o k = false -> o !! k = None.
Proof. unfold hasProp. destruct (o !! k); congruence. Qed.

Lemma fromRecord_title_without_setter :
  raisesTypeError
    (fst (fromRecord (memPlatform noSchema ["getField"; "getFieldValue"] false) ["title"]
            (memWorld noSchema ["getField"; "getFieldValue"] false emptyRecord)))
  = true.
Proof. vm_compute. reflexivity. Qed.

(** Building is not free of errors over every handle: a handle without
    [setFieldValue] (a name on the allow-list) makes [fromRecord] raise
    as soon as one field is requested. *)
Lemma fromRecord_raises_without_value_accessor :
  ~ (forall (P : Platform) (names : list string) (w : World P),
       exists obj w',
         fromRecord P names w = (Ok obj, w')
         /\ forall n, In n functionsToPassThru ->
              (exposes obj n <-> hasMethod P n = true)).
Proof.
  intros H.
  destruct (H (memPlatform noSchema ["getField"; "getFieldValue"] false) ["title"]
              (memWorld noSchema ["getField"; "getFieldValue"] false emptyRecord))
    as (obj & w' & Hrun & _).
  pose proof fromRecord_title_without_setter as Hthrow.
  rewrite Hrun in Hthrow. discriminate Hthrow.
Qed.

(** ** Row construction leaves the record alone *)

Section ThisPreserved.
Variable P : Platform.

Lemma readsThis_bind {A B} (c : M (Scope P) A) (k : A -> M (Scope P) B) :
  readsThis c -> (forall a, readsThis (k a)) -> readsThis (bind c k).
Proof.
  intros Hc Hk s. unfold bind. specialize (Hc s).
  destruct (c s) as [[a | e |] s1]; cbn [fst snd] in *; try exact Hc.
  now rewrite Hk.
Qed.

Lemma readsThis_inWorld {A} (c : M (World P) A) : readsThis (inWorld P c).
Proof. intros s. unfold inWorld. now destruct (c (snd s)). Qed.

Lemma readsThis_liftR {A} (r : Result A) : readsThis (P := P) (liftR r).
Proof. now intros s. Qed.

Lemma readsThis_ret {A} (a : A) : readsThis (P := P) (ret a).
Proof. now intros s. Qed.

Lemma readsThis_throw {A} e : readsThis (P := P) (@throw (Scope P) A e).
Proof. now intros s. Qed.

Lemma readsThis_getThis : readsThis (getThis P).
Proof. now intros s. Qed.

Lemma readsThis_callProp name args : readsThis (callProp P name args).
Proof.
  unfold callProp. apply readsThis_bind; [apply readsThis_getThis |].
  intros obj. destruct (obj !! name) as [[d | f a | l a] |];
    auto using readsThis_inWorld, readsThis_throw.
Qed.

Lemma readsThis_bindProp name args : readsThis (bindProp P name args).
Proof.
  unfold bindProp. apply readsThis_bind; [apply readsThis_getThis |].
  intros obj. destruct (obj !! name) as [[d | f a | l a] |];
    auto using readsThis_inWorld, readsThis_throw, readsThis_liftR.
Qed.

Lemma readsThis_sublistBound conv g s coord :
  readsThis (sublistBound P conv g s coord).
Proof.
  unfold sublistBound.
  apply readsThis_bind; [apply readsThis_bindProp | intros gv].
  apply readsThis_bind; [apply readsThis_bindProp | intros sv].
  apply readsThis_ret.
Qed.

Lemma readsThis_table fieldType make lname name linenum :
  sublistFieldDescriptors P fieldType = Some make ->
  readsThis (make lname name linenum).
Proof.
  destruct fieldType; try discriminate.
  unfold sublistFieldDescriptors.
  repeat (match goal with |- context [String.eqb ?a ?b] =>
            destruct (String.eqb a b) end;
          try (intros [= <-]; apply readsThis_sublistBound)).
Qed.

Lemma readsThis_attachCell lname linenum newItem name :
  readsThis (attachCell P lname linenum newItem name).
Proof.
  unfold attachCell. apply readsThis_bind.
  - destruct (isClientScript P); [apply readsThis_ret | apply readsThis_callProp].
  - intros field. destruct (sublistFieldDescriptors P _) as [make |] eqn:E.
    + apply readsThis_bind; [apply (readsThis_table _ _ _ _ _ E) |].
      intros d. apply readsThis_liftR.
    + destruct (inherited _); [apply readsThis_liftR |].
      apply readsThis_bind; [apply readsThis_sublistBound |].
      intros d. apply readsThis_liftR.
Qed.

Lemma readsThis_foldM {A B} (f : B -> A -> M (Scope P) B) xs :
  (forall b x, readsThis (f b x)) -> forall b, readsThis (foldM f b xs).
Proof.
  intros Hf. induction xs as [| x xs IH]; intros b; simpl.
  - apply readsThis_ret.
  - apply readsThis_bind; [apply Hf | intros b'; apply IH].
Qed.

(** [addNewLineItem] either appends the row it returns, or fails and
    leaves the record as it was. *)
Lemma addNewLineItem_this lname names linenum this w :
  match addNewLineItem P lname names linenum (this, w) with
  | (Ok row, s) => fst s = pushRow P lname row this
  | (_, s) => fst s = this
  end.
Proof.
  unfold addNewLineItem, bind.
  pose proof (readsThis_foldM (attachCell P lname linenum) names
                (fun b x => readsThis_attachCell lname linenum b x) ∅ (this, w))
    as Hread.
  destruct (foldM _ _ _ _) as [[row | e |] [this' w']]; cbn [fst snd] in *;
    now subst.
Qed.

End ThisPreserved.

(** ** Calling withSublist again *)

Section Again.
Variable P : Platform.

Lemma pushRow_holds (this : Obj P) key row a :
  holdsList this key a -> holdsList (pushRow P key row this) key a.
Proof.
  intros [l Hl]. unfold pushRow. rewrite Hl. eexists.
  unfold Obj. apply lookup_insert_eq.
Qed.

Lemma markReady_holds (this : Obj P) key a :
  holdsList this key a -> holdsList (markReady P key this) key a.
Proof.
  intros [l Hl]. unfold markReady. rewrite Hl. eexists.
  unfold Obj. apply lookup_insert_eq.
Qed.

Lemma addNewLineItem_holds key names linenum this w a :
  holdsList this key a ->
  holdsList (fst (snd (addNewLineItem P key names linenum (this, w)))) key a.
Proof.
  intros H. pose proof (addNewLineItem_this P key names linenum this w) as Ht.
  destruct (addNewLineItem _ _ _ _ _) as [[row | e |] s]; cbn [fst snd] in *;
    rewrite Ht; auto using pushRow_holds.
Qed.

Lemma rows_loop_holds key names a lines : forall this w,
  holdsList this key a ->
  holdsList (fst (snd (forEach (fun i => do! addNewLineItem P key names (ANum i)
                                         in ret tt) lines (this, w)))) key a.
Proof.
  induction lines as [| i lines IH]; intros this w H; simpl; [exact H |].
  unfold bind at 1. unfold bind at 1.
  pose proof (addNewLineItem_holds key names (ANum i) this w a H) as H1.
  destruct (addNewLineItem _ _ _ _ _) as [[row | e |] [this1 w1]];
    cbn [fst snd] in *; try exact H1.
  unfold ret at 1. now apply IH.
Qed.

Lemma defineSublist_new key names (this : Obj P) :
  this !! key = None ->
  exists this', defineSublist P key names this = Ok this'
                /\ holdsList this' key sealed.
Proof.
  intros H. unfold defineSublist. rewrite H. eexists. split; [reflexivity |].
  eexists. unfold Obj. apply lookup_insert_eq.
Qed.

Lemma defineSublist_sealed key names (this : Obj P) :
  holdsList this key sealed -> defineSublist P key names this = Throw TypeError.
Proof. intros [l Hl]. unfold defineSublist. now rewrite Hl. Qed.

(** A first call on a new name leaves the sublist property sealed. *)
Lemma withSublist_seals key names this w r s1 :
  this !! key = None ->
  withSublist P key names (this, w) = (Ok r, s1) ->
  holdsList (fst s1) key sealed.
Proof.
  intros Hnew Hrun. unfold withSublist in Hrun.
  apply bind_ok_inv in Hrun as (count & s & Hcount & Hrun).
  pose proof (readsThis_callProp P "getLineItemCount" [VStr key] (this, w)) as Hs.
  rewrite Hcount in Hs. cbn [fst snd] in Hs.
  apply bind_ok_inv in Hrun as (this0 & s0 & Hget & Hrun).
  unfold getThis in Hget. inversion Hget; subst this0 s0; clear Hget.
  apply bind_ok_inv in Hrun as (this' & s0 & Hdef & Hrun).
  apply liftR_ok in Hdef as [Hdef ->].
  rewrite Hs in Hdef.
  destruct (defineSublist_new key names this Hnew) as (this2 & Hdef2 & Hholds).
  rewrite Hdef2 in Hdef. inversion Hdef; subst this2; clear Hdef.
  apply bind_ok_inv in Hrun as (u & s2 & Hmod & Hrun).
  unfold modifyThis in Hmod. inversion Hmod; subst u s2; clear Hmod.
  cbn [fst snd] in Hrun.
  apply bind_ok_inv in Hrun as (u & s3 & Hloop & Hrun).
  pose proof (rows_loop_holds key names sealed
                (lineNumbers (parseInt P count)) this' (snd s) Hholds) as Hl.
  rewrite Hloop in Hl. cbn [fst snd] in Hl.
  apply bind_ok_inv in Hrun as (u' & s4 & Hmod & Hrun).
  unfold modifyThis in Hmod. inversion Hmod; subst u' s4; clear Hmod.
  unfold getThis in Hrun. inversion Hrun; subst. cbn [fst].
  now apply markReady_holds.
Qed.

(** C10, as the code has it: when a first call of [withSublist] has
    attached the sequence under a name that was new on the record, the
    property is neither writable nor configurable, and a second call
    with that name never returns: it raises a [TypeError] as soon as
    the handle has answered the line count. *)
Theorem withSublist_again_raises key names1 names2 (this : Obj P) w r s1 :
  this !! key = None ->
  withSublist P key names1 (this, w) = (Ok r, s1) ->
  holdsList (fst s1) key sealed
  /\ forall w2,
       (forall x s, withSublist P key names2 (fst s1, w2) <> (Ok x, s))
       /\ (forall count s,
             callProp P "getLineItemCount" [VStr key] (fst s1, w2) = (Ok count, s) ->
             withSublist P key names2 (fst s1, w2) = (Throw TypeError, s)).
Proof.
  intros Hnew Hrun.
  pose proof (withSublist_seals _ _ _ _ _ _ Hnew Hrun) as Hsealed.
  split; [exact Hsealed |]. intros w2.
  assert (Hthrow : forall count s,
            callProp P "getLineItemCount" [VStr key] (fst s1, w2) = (Ok count, s) ->
            withSublist P key names2 (fst s1, w2) = (Throw TypeError, s)).
  { intros count s Hcount. unfold withSublist.
    rewrite (bind_ok _ _ _ _ _ Hcount).
    pose proof (readsThis_callProp P "getLineItemCount" [VStr key] (fst s1, w2)) as Hs.
    rewrite Hcount in Hs. cbn [fst snd] in Hs.
    unfold bind, getThis, liftR. rewrite Hs.
    now rewrite (defineSublist_sealed key names2 _ Hsealed). }
  split; [| exact Hthrow].
  intros x s Hok. pose proof Hok as Hok'. unfold withSublist in Hok'.
  apply bind_ok_inv in Hok' as (count & s' & Hcount & _).
  rewrite (Hthrow count s' Hcount) in Hok. discriminate Hok.
Qed.

End Again.


(** ** Running the adapter on the demo sales order *)

Lemma demoAdapted_ok :
  isOk (fst (fromRecord demoPlatform ["memo"] demoWorld)) = true.
Proof. vm_compute. reflexivity. Qed.

Lemma demoAdapted_built :
  fromRecord demoPlatform ["memo"] demoWorld = (Ok demoAdapted, demoLoaded).
Proof. exact (isOk_eta _ ∅ demoAdapted_ok). Qed.

Lemma demoAdapted_no_item : hasProp demoAdapted "item" = false.
Proof. vm_compute. reflexivity. Qed.

Lemma demo_quantity_rows_ok :
  isOk (fst (withSublist demoPlatform "item" ["quantity"]
               (demoAdapted, demoLoaded))) = true.
Proof. vm_compute. reflexivity. Qed.

Lemma withSublist_again_raises_witness :
  let first := withSublist demoPlatform "item" ["quantity"]
                 (demoAdapted, demoLoaded) in
  demoAdapted !! "item" = None
  /\ holdsList (fst (snd first)) "item" sealed
  /\ forall x s,
       withSublist demoPlatform "item" ["quantity"] (fst (snd first), demoLoaded)
       <> (Ok x, s).
Proof.
  intros first.
  pose proof (hasProp_false _ _ demoAdapted_no_item) as Hnew.
  pose proof (isOk_eta first ∅ demo_quantity_rows_ok) as Hrun.
  split; [exact Hnew |].
  destruct (withSublist_again_raises demoPlatform "item" ["quantity"] ["quantity"]
              demoAdapted demoLoaded _ _ Hnew Hrun) as [Hsealed Hagain].
  split; [exact Hsealed |].
  exact (proj1 (Hagain demoLoaded)).
Defined.

(** The sequence property is replaceable when [withSublist] is given
    the name of a method of the record: the property stays configurable
    and a second call returns as the first did. *)
Lemma demo_save_rows_twice :
  let first := withSublist demoPlatform "save" [] (demoAdapted, demoLoaded) in
  isOk (fst first) = true
  /\ isOk (fst (withSublist demoPlatform "save" [] (fst (snd first), demoLoaded)))
     = true.
Proof. vm_compute. split; reflexivity. Qed.

Lemma withSublist_twice_over_a_method :
  ~ (forall (P : Platform) (fields : list string) (w0 w : World P)
            (this : Obj P) (key : string) (names1 names2 : list string)
            (r : Obj P) (s1 : Scope P),
       fromRecord P fields w0 = (Ok this, w) ->
       withSublist P key names1 (this, w) = (Ok r, s1) ->
       forall w2, exists s,
         withSublist P key names2 (fst s1, w2) = (Throw TypeError, s)).
Proof.
  intros H. destruct demo_save_rows_twice as [Hfirst Hsecond].
  destruct (H demoPlatform ["memo"] demoWorld demoLoaded demoAdapted "save" [] []
              _ _ demoAdapted_built (isOk_eta _ ∅ Hfirst) demoLoaded)
    as [s Hs].
  cbn [snd fst] in Hs. rewrite Hs in Hsecond. discriminate Hsecond.
Qed.

(** ** Cells bound to their coordinate *)

Section Cells.
Variable P : Platform.

Lemma sublist_table_bound fieldType lname name linenum (this : Obj P) w :
  isMultiSelect (converterFor fieldType) = false ->
  passesCells this ->
  match sublistFieldDescriptors P fieldType with
  | Some make => make lname name linenum
  | None => sublistDefaultDesc P lname name linenum
  end (this, w)
  = (Ok (cellDescriptor P (converterFor fieldType) lname name linenum),
     (this, w)).
Proof.
  intros Hms Hpass.
  destruct fieldType;
    try (apply (sublistBound_passed P defaultDescriptor); exact Hpass).
  unfold sublistFieldDescriptors, converterFor in *.
  destruct (String.eqb s "date");
    [apply (sublistBound_passed P (dateTimeDescriptor P "date")); exact Hpass |].
  destruct (String.eqb s "datetime");
    [apply (sublistBound_passed P (dateTimeDescriptor P "datetime")); exact Hpass |].
  destruct (String.eqb s "datetimetz");
    [apply (sublistBound_passed P (dateTimeDescriptor P "datetimetz")); exact Hpass |].
  destruct (String.eqb s "multiselect"); [discriminate |].
  destruct (String.eqb s "checkbox");
    [apply (sublistBound_passed P checkboxDescriptor); exact Hpass |].
  destruct (String.eqb s "defaultDesc");
    apply (sublistBound_passed P defaultDescriptor); exact Hpass.
Qed.

End Cells.

Section BoundRows.
Variable P : Platform.
Variable lname : string.
Variable names : list string.
Variable meta : string -> Value.
Hypothesis Hmeta : readsMetadata P lname names meta.
Hypothesis Hplain : plainCells names meta.

Lemma wired_exposes (this : Obj P) m :
  wired this ->
  In m ["getLineItemCount"; "insertLineItem"; "getLineItemField";
        "getLineItemValue"; "setLineItemValue"] ->
  exposes this m.
Proof.
  unfold wired. rewrite Forall_forall. intros H Hin.
  apply H. now apply list_elem_of_In.
Qed.

Lemma wired_passesCells (this : Obj P) : wired this -> passesCells this.
Proof.
  intros H. split; eexists; eapply wired_exposes; try exact H; simpl; tauto.
Qed.

Lemma callProp_exposed (this : Obj P) m args w :
  exposes this m ->
  callProp P m args (this, w)
  = (fst (invoke P m args w), (this, snd (invoke P m args w))).
Proof.
  intros H. unfold callProp, bind, getThis. cbn [fst snd].
  rewrite H. unfold inWorld, callValue. cbn [fst snd map app].
  now destruct (invoke P m args w).
Qed.

Lemma attachCell_bound linenum (newItem : Row P) name (this : Obj P) w :
  wired this -> In name names -> newItem !! name = None ->
  attachCell P lname linenum newItem name (this, w)
  = (Ok (<[name := CAccessor (cellDescriptor P (converterFor (cellType (meta name)))
                                  lname name linenum)]> newItem), (this, w)).
Proof.
  intros Hw Hin Hnew. unfold attachCell.
  assert (Hfield : (if isClientScript P then ret VUndefined
                    else callProp P "getLineItemField" [VStr lname; VStr name])
                     (this, w) = (Ok (meta name), (this, w))).
  { specialize (Hmeta name Hin). destruct (isClientScript P).
    - now rewrite Hmeta.
    - rewrite callProp_exposed
        by (eapply wired_exposes; [exact Hw | simpl; tauto]).
      now rewrite Hmeta. }
  rewrite (bind_ok _ _ _ _ _ Hfield).
  fold (cellType (meta name)).
  destruct (Hplain name Hin) as [Hms Hinh].
  pose proof (sublist_table_bound P (cellType (meta name)) lname name linenum
                this w Hms (wired_passesCells this Hw)) as Ht.
  rewrite Hinh.
  destruct (sublistFieldDescriptors P (cellType (meta name))) as [make |];
    rewrite (bind_ok _ _ _ _ _ Ht); unfold liftR, defineAccessor;
    now rewrite Hnew.
Qed.

Lemma cells_fold linenum (this : Obj P) w : forall rest (acc : Row P),
  wired this -> NoDup rest ->
  (forall f, In f rest -> In f names /\ acc !! f = None) ->
  foldM (attachCell P lname linenum) acc rest (this, w)
  = (Ok (foldl (fun o f =>
                  <[f := CAccessor (cellDescriptor P (converterFor (cellType (meta f)))
                                      lname f linenum)]> o) acc rest),
     (this, w)).
Proof.
  induction rest as [| f rest IH]; intros acc Hw Hnd Hacc; [reflexivity |].
  simpl. apply NoDup_cons in Hnd as [Hnotin Hnd].
  destruct (Hacc f (or_introl eq_refl)) as [Hin Hnew].
  rewrite (bind_ok _ _ _ _ _ (attachCell_bound linenum acc f this w Hw Hin Hnew)).
  apply IH; [exact Hw | exact Hnd |].
  intros g Hg. destruct (Hacc g (or_intror Hg)) as [Hgin Hgnew].
  split; [exact Hgin |].
  unfold Row in *. rewrite lookup_insert_ne; [exact Hgnew |].
  intros ->. apply Hnotin. now apply list_elem_of_In.
Qed.

(** With distinct field names, none a multiselect, [addNewLineItem]
    returns the row bound to the coordinate and appends it. *)
Lemma addNewLineItem_bound linenum (this : Obj P) w :
  wired this -> NoDup names ->
  addNewLineItem P lname names linenum (this, w)
  = (Ok (boundRow P meta lname names linenum),
     (pushRow P lname (boundRow P meta lname names linenum) this, w)).
Proof.
  intros Hw Hnd. unfold addNewLineItem.
  rewrite (bind_ok _ _ _ _ _ (cells_fold linenum this w names ∅ Hw Hnd
             (fun f Hf => conj Hf (lookup_empty f)))).
  reflexivity.
Qed.

End BoundRows.

(** ** The rows of a sublist *)

Section RowCount.
Variable P : Platform.
Variable lname : string.
Variable names : list string.
Variable meta : string -> Value.
Hypothesis Hmeta : readsMetadata P lname names meta.
Hypothesis Hplain : plainCells names meta.
Hypothesis Hnodup : NoDup names.

Lemma exposes_not_list (this : Obj P) m l a :
  exposes this m -> this !! lname = Some (PList l a) -> m <> lname.
Proof. unfold exposes. intros Hm Hl ->. congruence. Qed.

Lemma wired_insert_list (this : Obj P) p :
  wired this ->
  (forall m, exposes this m -> m <> lname) ->
  wired (<[lname := p]> this).
Proof.
  unfold wired. rewrite !Forall_forall. intros Hw Hne m Hm.
  unfold exposes, Obj in *. rewrite lookup_insert_ne; [now apply Hw |].
  intros <-. now apply (Hne lname (Hw _ Hm)).
Qed.

Lemma pushRow_lookup (this : Obj P) row l a :
  this !! lname = Some (PList l a) ->
  pushRow P lname row this
  = <[lname := PList {| rows := rows l ++ [row]; listname := listname l;
                        propNames := propNames l; ready := ready l |} a]> this.
Proof. intros H. unfold pushRow. now rewrite H. Qed.

Lemma pushRow_wired (this : Obj P) row l a :
  this !! lname = Some (PList l a) -> wired this ->
  wired (pushRow P lname row this).
Proof.
  intros Hl Hw. rewrite (pushRow_lookup _ _ _ _ Hl).
  apply wired_insert_list; [exact Hw |].
  intros m Hm. now apply (exposes_not_list this m l a).
Qed.

Lemma pushRows_lookup lines : forall (this : Obj P) l a,
  this !! lname = Some (PList l a) ->
  pushRows P meta lname names this lines !! lname
  = Some (PList {| rows := rows l ++ map (fun i => boundRow P meta lname names (ANum i)) lines;
                   listname := listname l; propNames := propNames l;
                   ready := ready l |} a).
Proof.
  unfold pushRows.
  induction lines as [| i lines IH]; intros this l a Hl; simpl.
  - rewrite app_nil_r. now destruct l.
  - rewrite (IH _ {| rows := rows l ++ [boundRow P meta lname names (ANum i)];
                      listname := listname l; propNames := propNames l;
                      ready := ready l |} a).
    + cbn [rows listname propNames ready].
      rewrite <- (app_assoc (rows l)). reflexivity.
    + rewrite (pushRow_lookup _ _ _ _ Hl). unfold Obj. apply lookup_insert_eq.
Qed.

Lemma pushRows_wired lines : forall (this : Obj P) l a,
  this !! lname = Some (PList l a) -> wired this ->
  wired (pushRows P meta lname names this lines).
Proof.
  unfold pushRows.
  induction lines as [| i lines IH]; intros this l a Hl Hw; simpl; [exact Hw |].
  eapply IH.
  - rewrite (pushRow_lookup _ _ _ _ Hl). unfold Obj. apply lookup_insert_eq.
  - now apply (pushRow_wired this _ l a).
Qed.

(** The loop of [withSublist] appends one bound row per line number. *)
Lemma rows_loop lines : forall (this : Obj P) w l a,
  this !! lname = Some (PList l a) -> wired this ->
  forEach (fun i => do! addNewLineItem P lname names (ANum i) in ret tt)
          lines (this, w)
  = (Ok tt, (pushRows P meta lname names this lines, w)).
Proof.
  induction lines as [| i lines IH]; intros this w l a Hl Hw; [reflexivity |].
  simpl.
  rewrite (bind_ok _ _ _ _ _
             (bind_ok _ _ _ _ _
                (addNewLineItem_bound P lname names meta Hmeta Hplain
                   (ANum i) this w Hw Hnodup))).
  eapply IH.
  - rewrite (pushRow_lookup _ _ _ _ Hl). unfold Obj. apply lookup_insert_eq.
  - now apply (pushRow_wired this _ l a).
Qed.

End RowCount.

Section Sequence.
Variable P : Platform.
Variable lname : string.
Variable names : list string.
Variable meta : string -> Value.
Variable lineCount : Remote P -> Z.
Hypothesis Hmeta : readsMetadata P lname names meta.
Hypothesis Hplain : plainCells names meta.
Hypothesis Hnodup : NoDup names.
Hypothesis Hcount : countsLines P lname lineCount.
Hypothesis Hinsert : insertsLine P lname lineCount.

Let row (i : Z) : Row P := boundRow P meta lname names (ANum i).

Let fresh : SubList P :=
  {| rows := []; listname := lname; propNames := names; ready := false |}.

Lemma count_exposed (this : Obj P) w :
  wired this ->
  callProp P "getLineItemCount" [VStr lname] (this, w)
  = (Ok (VNum (lineCount (remote w))), (this, w)).
Proof.
  intros Hw. rewrite callProp_exposed
    by (eapply wired_exposes; [exact Hw | simpl; tauto]).
  now rewrite Hcount.
Qed.

Lemma markReady_lookup (this : Obj P) l a :
  this !! lname = Some (PList l a) ->
  markReady P lname this
  = <[lname := PList {| rows := rows l; listname := listname l;
                        propNames := propNames l; ready := true |} a]> this.
Proof. intros H. unfold markReady. now rewrite H. Qed.

(** What [withSublist] returns on a wired record and a new name. *)
Lemma withSublist_rows (this : Obj P) w :
  wired this -> this !! lname = None ->
  exists this1,
    withSublist P lname names (this, w) = (Ok this1, (this1, w))
    /\ wired this1
    /\ this1 !! lname
       = Some (PList {| rows := map row (lineNumbers (Some (lineCount (remote w))));
                        listname := lname; propNames := names; ready := true |}
                 sealed).
Proof.
  intros Hw Hnew.
  set (lines := lineNumbers (Some (lineCount (remote w)))).
  set (this0 := (<[lname := PList fresh sealed]> this : Obj P)).
  assert (H0 : this0 !! lname = Some (PList fresh sealed))
    by (unfold this0, Obj; apply lookup_insert_eq).
  assert (Hw0 : wired this0).
  { apply wired_insert_list; [exact Hw |].
    intros m Hm ->. unfold exposes in Hm. congruence. }
  set (thisN := pushRows P meta lname names this0 lines).
  pose proof (pushRows_lookup P lname names meta lines this0 fresh sealed H0) as HN.
  fold thisN in HN. cbn [rows listname propNames ready fresh app] in HN.
  pose proof (pushRows_wired P lname names meta lines this0 fresh sealed H0 Hw0)
    as HwN. fold thisN in HwN.
  exists (markReady P lname thisN). split; [| split].
  - unfold withSublist.
    rewrite (bind_ok _ _ _ _ _ (count_exposed this w Hw)).
    cbn [parseInt]. fold lines.
    unfold bind at 1. unfold getThis at 1. cbn [fst].
    unfold bind at 1. unfold liftR, defineSublist. rewrite Hnew.
    fold fresh. fold sealed. fold this0.
    unfold bind at 1. unfold modifyThis at 1. cbn [fst snd].
    rewrite (bind_ok _ _ _ _ _
               (rows_loop P lname names meta Hmeta Hplain Hnodup
                  lines this0 w fresh sealed H0 Hw0)).
    reflexivity.
  - rewrite (markReady_lookup _ _ _ HN).
    apply wired_insert_list; [exact HwN |].
    intros m Hm. now apply (exposes_not_list P lname thisN m _ _ Hm HN).
  - rewrite (markReady_lookup _ _ _ HN). unfold Obj. apply lookup_insert_eq.
Qed.

Lemma log_run l t d (w : World P) :
  log P l t d w
  = (Ok tt, {| remote := remote w;
               logged := logged w ++ [{| level := l; title := t; details := d |}] |}).
Proof. reflexivity. Qed.

(** What [addLine] does on a wired record that holds a complete
    sequence for the sublist. *)
Lemma addLine_row (this : Obj P) w rs :
  wired this ->
  this !! lname
  = Some (PList {| rows := rs; listname := lname; propNames := names;
                   ready := true |} sealed) ->
  exists this2 w2,
    addLine P lname (this, w)
    = (Ok (row (lineCount (remote w) + 1)), (this2, w2))
    /\ this2 !! lname
       = Some (PList {| rows := rs ++ [row (lineCount (remote w) + 1)];
                        listname := lname; propNames := names; ready := true |}
                 sealed)
    /\ lineCount (remote w2) = lineCount (remote w) + 1.
Proof.
  intros Hw Hl.
  set (n := lineCount (remote w)).
  set (wa := {| remote := remote w;
                logged := logged w ++
                  [{| level := Debug; title := [Lit "Inserting Line Item"];
                      details := [Lit ("sublist: '" +:+ lname +:+ "' line: ");
                                  Shown (VNum (n + 1))] |}] |}).
  destruct (Hinsert wa) as (v & wb & Hins & Hgrown).
  change (lineCount (remote wa)) with n in Hins, Hgrown.
  set (wc := {| remote := remote wb;
                logged := logged wb ++
                  [{| level := Debug;
                      title := [Lit "Line count after adding:";
                                Shown (VNum (lineCount (remote wb)))];
                      details := [] |}] |}).
  exists (pushRow P lname (row (n + 1)) this), wc. split; [| split].
  - unfold addLine.
    unfold bind at 1. unfold getThis at 1. cbn [fst].
    rewrite Hl. cbn [ready listname propNames].
    rewrite (bind_ok _ _ _ _ _ (count_exposed this w Hw)).
    cbn [parseInt numValue numArg]. fold n.
    unfold bind at 1. unfold inWorld at 1. cbn [fst snd].
    rewrite log_run. fold wa.
    assert (Hcall : callProp P "insertLineItem" [VStr lname; VNum (n + 1)] (this, wa)
                    = (Ok v, (this, wb))).
    { rewrite callProp_exposed
        by (eapply wired_exposes; [exact Hw | simpl; tauto]).
      now rewrite Hins. }
    rewrite (bind_ok _ _ _ _ _ Hcall).
    rewrite (bind_ok _ _ _ _ _ (count_exposed this wb Hw)).
    unfold bind at 1. unfold inWorld at 1. cbn [fst snd].
    rewrite log_run. fold wc.
    apply (addNewLineItem_bound P lname names meta Hmeta Hplain
             (ANum (n + 1)) this wc Hw Hnodup).
  - rewrite (pushRow_lookup P lname this _ _ _ Hl). unfold Obj.
    apply lookup_insert_eq.
  - exact Hgrown.
Qed.

End Sequence.

Lemma boundRow_lookup P meta lname names linenum f :
  In f names ->
  boundRow P meta lname names linenum !! f
  = Some (CAccessor (cellDescriptor P (converterFor (cellType (meta f)))
                       lname f linenum)).
Proof.
  unfold boundRow.
  set (ins := fun (o : Row P) g =>
                <[g := CAccessor (cellDescriptor P (converterFor (cellType (meta g)))
                                    lname g linenum)]> o).
  assert (Hgen : forall rest (acc : Row P),
            foldl ins acc rest !! f
            = if decide (f ∈ rest)
              then Some (CAccessor (cellDescriptor P (converterFor (cellType (meta f)))
                                      lname f linenum))
              else acc !! f).
  { induction rest as [| g rest IH]; intros acc; simpl.
    - destruct (decide (f ∈ [])) as [Hin | _]; [| reflexivity].
      now apply elem_of_nil in Hin.
    - rewrite IH. destruct (decide (f ∈ rest)) as [Hin | Hnin].
      + rewrite decide_True by (now right). reflexivity.
      + unfold ins at 1. unfold Row in *.
        destruct (decide (f = g)) as [-> | Hne].
        * rewrite decide_True by (now left). apply lookup_insert_eq.
        * rewrite decide_False
            by (intros [? | ?]%elem_of_cons; contradiction).
          now apply lookup_insert_ne. }
  intros Hin. rewrite Hgen. rewrite decide_True; [reflexivity |].
  now apply list_elem_of_In.
Qed.

Lemma lineNumbers_length N :
  length (lineNumbers (Some N)) = Z.to_nat N.
Proof. unfold lineNumbers. now rewrite length_map, length_seq. Qed.

Lemma lineNumbers_lookup N i :
  1 <= i <= N -> lineNumbers (Some N) !! Z.to_nat (i - 1) = Some i.
Proof.
  intros Hi. unfold lineNumbers. rewrite list_lookup_fmap.
  rewrite lookup_seq_lt by lia. simpl. f_equal. lia.
Qed.

Lemma exposesb_spec {P} (this : Obj P) m : exposesb this m = true -> exposes this m.
Proof.
  unfold exposesb, exposes.
  destruct (this !! m) as [[d | v a | l a] |]; try discriminate.
  destruct v; try discriminate. destruct pre; try discriminate.
  destruct a as [[|] [|] [|]]; simpl; rewrite ?andb_false_r; try discriminate.
  rewrite !andb_true_r. intros ->%String.eqb_eq. reflexivity.
Qed.

(** C4, as the code has it: on an adapted record that passes the
    handle's line-item methods through, for a sublist name that is new
    on the record and distinct field names of which none is a
    multiselect or carries a type tag that names a member the
    descriptor table inherits from [Object.prototype], with field
    metadata that reads without effect, over a handle that answers its
    line count [N] (a pure read) and whose [insertLineItem] after the last line makes the count
    one more: [withSublist] returns with a sequence of [N] rows, the row
    at position [i - 1] bound to line [i] for [i] from 1 to [N]; one
    [addLine()] then returns a row bound to line [N + 1] (the fresh
    count plus one), the sequence has [N + 1] rows and the handle counts
    [N + 1] lines. *)
Theorem sublist_rows_follow_line_count (P : Platform) (lname : string)
    (names : list string) (meta : string -> Value)
    (lineCount : Remote P -> Z) (this : Obj P) (w : World P) (N : Z) :
  wired this -> this !! lname = None -> NoDup names ->
  readsMetadata P lname names meta -> plainCells names meta ->
  countsLines P lname lineCount -> insertsLine P lname lineCount ->
  lineCount (remote w) = N -> 0 <= N ->
  exists this1,
    withSublist P lname names (this, w) = (Ok this1, (this1, w))
    /\ length (rowsAt this1 lname) = Z.to_nat N
    /\ (forall i, 1 <= i <= N ->
          rowsAt this1 lname !! Z.to_nat (i - 1)
          = Some (boundRow P meta lname names (ANum i)))
    /\ exists this2 w2,
         addLine P lname (this1, w)
         = (Ok (boundRow P meta lname names (ANum (N + 1))), (this2, w2))
         /\ rowsAt this2 lname
            = (rowsAt this1 lname ++ [boundRow P meta lname names (ANum (N + 1))])%list
         /\ length (rowsAt this2 lname) = Z.to_nat (N + 1)
         /\ lineCount (remote w2) = N + 1
         /\ forall f, In f names ->
              boundRow P meta lname names (ANum (N + 1)) !! f
              = Some (CAccessor (cellDescriptor P (converterFor (cellType (meta f)))
                                   lname f (ANum (N + 1)))).
Proof.
  intros Hw Hnew Hnd Hmeta Hplain Hcount Hinsert HN Hpos.
  destruct (withSublist_rows P lname names meta lineCount Hmeta Hplain Hnd
              Hcount this w Hw Hnew) as (this1 & Hrun & Hw1 & Hl1).
  rewrite HN in Hl1.
  assert (Hrows1 : rowsAt this1 lname
                   = map (fun i => boundRow P meta lname names (ANum i))
                       (lineNumbers (Some N)))
    by (unfold rowsAt; now rewrite Hl1).
  exists this1. split; [exact Hrun |]. split; [| split].
  - now rewrite Hrows1, length_map, lineNumbers_length.
  - intros i Hi. rewrite Hrows1, list_lookup_fmap.
    now rewrite (lineNumbers_lookup N i Hi).
  - destruct (addLine_row P lname names meta lineCount Hmeta Hplain Hnd
                Hcount Hinsert this1 w _ Hw1 Hl1) as (this2 & w2 & Hadd & Hl2 & Hgrown).
    rewrite HN in Hadd, Hl2, Hgrown.
    assert (Hrows2 : rowsAt this2 lname
                     = (rowsAt this1 lname
                        ++ [boundRow P meta lname names (ANum (N + 1))])%list)
      by (unfold rowsAt at 1; now rewrite Hl2, Hrows1).
    exists this2, w2. split; [exact Hadd |]. split; [exact Hrows2 |].
    split; [| split; [exact Hgrown |]].
    + rewrite Hrows2, length_app, Hrows1, length_map, lineNumbers_length.
      simpl. lia.
    + intros f Hf. now apply boundRow_lookup.
Qed.

(** ** The demo sales order satisfies the assumptions *)

Lemma demoAdapted_wired : wired demoAdapted.
Proof.
  unfold wired.
  repeat (apply Forall_cons; split;
          [apply exposesb_spec; vm_compute; reflexivity |]).
  apply Forall_nil_2.
Qed.

Lemma demo_readsMetadata names : readsMetadata demoPlatform "item" names demoMeta.
Proof. intros f _. simpl. intros [r l]. reflexivity. Qed.

Lemma demo_countsLines : countsLines demoPlatform "item" demoLineCount.
Proof. intros [r l]. reflexivity. Qed.

Lemma demo_insertsLine : insertsLine demoPlatform "item" demoLineCount.
Proof.
  intros [r l]. eexists _, _. split; [reflexivity |].
  unfold demoLineCount. cbn [remote counts].
  now rewrite lookup_insert_eq.
Qed.

Lemma demo_plain_fields : plainCells ["quantity"; "shipdate"] demoMeta.
Proof.
  intros f [<- | [<- | []]]; split; vm_compute; reflexivity.
Qed.

Lemma demo_one_line : demoLineCount (remote demoLoaded) = 1.
Proof. vm_compute. reflexivity. Qed.

Lemma demo_names_distinct : NoDup ["quantity"; "shipdate"].
Proof.
  apply NoDup_cons. split.
  - intros Hin. apply list_elem_of_In in Hin. destruct Hin as [H | []].
    discriminate H.
  - apply NoDup_singleton.
Qed.

Lemma sublist_rows_follow_line_count_witness :
  exists this1,
    withSublist demoPlatform "item" ["quantity"; "shipdate"]
      (demoAdapted, demoLoaded) = (Ok this1, (this1, demoLoaded))
    /\ length (rowsAt this1 "item") = 1%nat
    /\ exists this2 w2,
         addLine demoPlatform "item" (this1, demoLoaded)
         = (Ok (boundRow demoPlatform demoMeta "item" ["quantity"; "shipdate"]
                  (ANum 2)), (this2, w2))
         /\ length (rowsAt this2 "item") = 2%nat
         /\ demoLineCount (remote w2) = 2.
Proof.
  destruct (sublist_rows_follow_line_count demoPlatform "item"
              ["quantity"; "shipdate"] demoMeta demoLineCount
              demoAdapted demoLoaded 1
              demoAdapted_wired (hasProp_false _ _ demoAdapted_no_item)
              demo_names_distinct
              (demo_readsMetadata _) demo_plain_fields
              demo_countsLines demo_insertsLine demo_one_line ltac:(lia))
    as (this1 & Hrun & Hlen & _ & this2 & w2 & Hadd & _ & Hlen2 & Hcount & _).
  exists this1. split; [exact Hrun |]. split; [exact Hlen |].
  exists this2, w2. split; [exact Hadd |]. split; [exact Hlen2 | exact Hcount].
Defined.

Lemma demo_count_answer :
  callProp demoPlatform "getLineItemCount" [VStr "item"] (demoAdapted, demoLoaded)
  = (Ok (VNum 1), (demoAdapted, demoLoaded)).
Proof.
  rewrite callProp_exposed
    by (eapply wired_exposes; [exact demoAdapted_wired | simpl; tauto]).
  rewrite demo_countsLines. cbn [fst snd]. now rewrite demo_one_line.
Qed.

Lemma demo_repeated_name_raises :
  raisesTypeError
    (fst (withSublist demoPlatform "item" ["quantity"; "quantity"]
            (demoAdapted, demoLoaded))) = true.
Proof. vm_compute. reflexivity. Qed.

(** The sequence does not always get its [N] rows: a field name
    requested twice cannot be defined twice on a row, and
    [withSublist] raises a [TypeError] over a sublist of one line. *)
Lemma withSublist_repeated_name_no_rows :
  ~ (forall (P : Platform) (fields : list string) (w0 w : World P)
            (this : Obj P) (lname : string) (names : list string) (N : Z),
       fromRecord P fields w0 = (Ok this, w) ->
       callProp P "getLineItemCount" [VStr lname] (this, w)
       = (Ok (VNum N), (this, w)) ->
       0 <= N ->
       exists r s,
         withSublist P lname names (this, w) = (Ok r, s)
         /\ length (rowsAt (fst s) lname) = Z.to_nat N).
Proof.
  intros H.
  destruct (H demoPlatform ["memo"] demoWorld demoLoaded demoAdapted "item"
              ["quantity"; "quantity"] 1 demoAdapted_built demo_count_answer
              ltac:(lia)) as (r & s & Hrun & _).
  pose proof demo_repeated_name_raises as Hraise.
  rewrite Hrun in Hraise. discriminate Hraise.
Qed.

(** ** Multiselect cells *)

Section MultiSelectCells.
Variable P : Platform.

Lemma passThru_names (obj : Obj P) n w obj' w' :
  passThru P obj n w = (Ok obj', w') ->
  forall k, is_Some (obj' !! k) -> k = n \/ is_Some (obj !! k).
Proof.
  unfold passThru. destruct (truthy (member P n)).
  - intros H. apply bind_ok_inv in H as (b & w1 & _ & H).
    now apply (assign_ok P _ _ _ _ _ _ H).
  - intros H k Hk. inversion H; subst. now right.
Qed.

Lemma passThru_fold_names names : forall (obj : Obj P) w obj' w',
  foldM (passThru P) obj names w = (Ok obj', w') ->
  forall k, is_Some (obj' !! k) -> In k names \/ is_Some (obj !! k).
Proof.
  induction names as [| n names IH]; intros obj w obj' w' H k Hk; simpl in H.
  - inversion H; subst. now right.
  - apply bind_ok_inv in H as (o1 & w1 & Hstep & Hrest).
    destruct (IH _ _ _ _ Hrest k Hk) as [Hin | Hk1]; [left; now right |].
    destruct (passThru_names _ _ _ _ _ Hstep k Hk1) as [-> | Hk0].
    + left. now left.
    + now right.
Qed.

(** The properties of an adapted record: the requested fields, the
    three names of [addFieldProperties] and the allow-listed methods. *)
Lemma fromRecord_names fields w this w' :
  fromRecord P fields w = (Ok this, w') ->
  forall k, is_Some (this !! k) ->
    In k fields \/ In k ownNames \/ In k functionsToPassThru.
Proof.
  unfold fromRecord. intros H k Hk.
  apply bind_ok_inv in H as (o0 & w0 & Hadd & H).
  apply bind_ok_inv in H as (o1 & w1 & Hpass & H).
  apply bind_ok_inv in H as (u & w2 & _ & H).
  inversion H; subst; clear H.
  destruct (passThru_fold_names _ _ _ _ _ Hpass k Hk) as [Hin | Hk0].
  - right. now right.
  - destruct (addFieldProperties_names P _ _ _ _ Hadd k Hk0) as [Hf | Ho].
    + now left.
    + right. now left.
Qed.

Lemma no_plural_accessors fields w this w' name :
  fromRecord P fields w = (Ok this, w') ->
  In name ["getLineItemValues"; "setLineItemValues"] ->
  ~ In name fields ->
  this !! name = None.
Proof.
  intros Hrec Hname Hfree.
  destruct (this !! name) eqn:E; [| reflexivity]. exfalso.
  destruct (fromRecord_names _ _ _ _ Hrec name) as [Hin | [Hin | Hin]].
  - rewrite E. now eexists.
  - contradiction.
  - simpl in Hname, Hin.
    destruct Hname as [<- | [<- | []]];
      repeat (destruct Hin as [Hin | Hin]; [discriminate Hin |]); exact Hin.
  - simpl in Hname, Hin.
    destruct Hname as [<- | [<- | []]];
      repeat (destruct Hin as [Hin | Hin]; [discriminate Hin |]); exact Hin.
Qed.

End MultiSelectCells.

(** C2 fails for multiselect fields: on a record built by
    [fromRecord], outside client scripts, attaching the cell of a field
    whose metadata says [multiselect] raises a [TypeError], because the
    row reads [getLineItemValues] and [setLineItemValues] off the
    adapted record, which does not pass them through; and what that
    table entry binds is the field name and the line only, without the
    sublist name, unlike the entries for the other types. *)
Theorem multiselect_cell_misses_coordinate (P : Platform)
    (fields : list string) (w0 w1 w w' : World P) (this : Obj P)
    (lname name : string) (linenum : Arg) (newItem : Row P) :
  fromRecord P fields w0 = (Ok this, w1) ->
  ~ In "getLineItemValues" fields ->
  isClientScript P = false ->
  callProp P "getLineItemField" [VStr lname; VStr name] (this, w)
  = (Ok (VField "multiselect"), (this, w')) ->
  attachCell P lname linenum newItem name (this, w)
  = (Throw TypeError, (this, w'))
  /\ sublistFieldDescriptors P (VStr "multiselect")
     = Some (fun _ fieldname line =>
               sublistBound P multiSelectDescriptor
                 "getLineItemValues" "setLineItemValues"
                 [AStr fieldname; line])
  /\ [AStr name; linenum] <> coordinate lname name linenum.
Proof.
  intros Hrec Hfree Hserver Hfield.
  split; [| split; [reflexivity | discriminate]].
  assert (Hnone : this !! "getLineItemValues" = None)
    by (apply (no_plural_accessors P fields w0 this w1);
        [exact Hrec | simpl; tauto | exact Hfree]).
  unfold attachCell. rewrite Hserver.
  rewrite (bind_ok _ _ _ _ _ Hfield). cbn [truthy typeProperty].
  change (sublistFieldDescriptors P (VStr "multiselect"))
    with (Some (fun (_ fieldname : string) (line : Arg) =>
                  sublistBound P multiSelectDescriptor
                    "getLineItemValues" "setLineItemValues"
                    [AStr fieldname; line])).
  cbv beta iota.
  apply bind_throw. unfold sublistBound. apply bind_throw.
  unfold bindProp, bind, getThis. cbn [fst snd]. now rewrite Hnone.
Qed.

Lemma demo_tags_metadata :
  callProp demoPlatform "getLineItemField" [VStr "item"; VStr "tags"]
    (demoAdapted, demoLoaded)
  = (Ok (VField "multiselect"), (demoAdapted, demoLoaded)).
Proof.
  rewrite callProp_exposed
    by (eapply wired_exposes; [exact demoAdapted_wired | simpl; tauto]).
  reflexivity.
Qed.

Lemma multiselect_cell_misses_coordinate_witness :
  attachCell demoPlatform "item" (ANum 1) ∅ "tags" (demoAdapted, demoLoaded)
  = (Throw TypeError, (demoAdapted, demoLoaded)).
Proof.
  apply (multiselect_cell_misses_coordinate demoPlatform ["memo"] demoWorld
           demoLoaded demoLoaded demoLoaded demoAdapted "item" "tags" (ANum 1) ∅
           demoAdapted_built).
  - intros [H | []]. discriminate H.
  - reflexivity.
  - exact demo_tags_metadata.
Defined.

(** The whole call on the demo record: [withSublist("item", ["tags"])]
    raises a [TypeError] and leaves an empty sequence attached, while
    the handle counts one line. *)
Lemma demo_tags_rows_raise :
  let run := withSublist demoPlatform "item" ["tags"] (demoAdapted, demoLoaded) in
  raisesTypeError (fst run) = true
  /\ length (rowsAt (fst (snd run)) "item") = 0%nat
  /\ hasProp (fst (snd run)) "item" = true
  /\ demoLineCount (remote (snd (snd run))) = 1.
Proof. vm_compute. repeat split; reflexivity. Qed.

(** * Further properties of the converters *)

Section RoundTrips.
Context {S : Type}.
Variable P : Platform.
Variable getter : M S Value.
Variable setter : Value -> M S Value.
Hypothesis Hecho : echoes getter setter.

Lemma echo_after_set (k : Value -> Value) (arg : Value) s :
  bind getter (fun raw => ret (k raw))
       (snd ((do! setter arg in ret tt) s))
  = (Ok (k arg), snd (setter arg s)).
Proof.
  destruct (Hecho arg s) as [Hget [r Hset]].
  unfold bind at 2. destruct (setter arg s) as [r0 s1].
  cbn [fst snd] in *. subst r0. unfold ret at 2. cbn [snd].
  now rewrite (bind_ok _ _ _ _ _ Hget).
Qed.

(** Over a store that echoes, writing a date and reading it back gives
    the moment of what the text parses to; when parsing undoes the
    serialisation of that date, the moment read is the moment of the
    native date written.  Writing any defined falsy value reads back as
    [null]. *)
Theorem dateTime_set_get_roundtrip (fieldType : string) (v : Value) (s : S) :
  let d := dateTimeDescriptor P fieldType getter setter in
  let date := toDate P (moment P v) in
  let text := nlapiDateToString P date fieldType in
  (truthy v = true -> truthy text = true ->
   nlapiStringToDate P text fieldType = date ->
   fst (get d (snd (set d v s))) = Ok (moment P date))
  /\ (truthy v = true -> truthy text = false ->
      fst (get d (snd (set d v s))) = Ok text)
  /\ (v <> VUndefined -> truthy v = false ->
      fst (get d (snd (set d v s))) = Ok VNull).
Proof.
  intros d date text. split; [| split].
  - intros Hv Ht Hinv. unfold d.
    rewrite (dateTime_set_truthy P fieldType getter setter v Hv).
    fold date. fold text. simpl get.
    rewrite (echo_after_set
               (fun raw => if truthy raw
                           then moment P (nlapiStringToDate P raw fieldType)
                           else raw)).
    cbn [fst]. now rewrite Ht, Hinv.
  - intros Hv Ht. unfold d.
    rewrite (dateTime_set_truthy P fieldType getter setter v Hv).
    fold date. fold text. simpl get.
    rewrite (echo_after_set
               (fun raw => if truthy raw
                           then moment P (nlapiStringToDate P raw fieldType)
                           else raw)).
    cbn [fst]. now rewrite Ht.
  - intros Hd Hv. unfold d.
    rewrite (dateTime_set_falsy P fieldType getter setter v Hd Hv).
    simpl get.
    rewrite (echo_after_set
               (fun raw => if truthy raw
                           then moment P (nlapiStringToDate P raw fieldType)
                           else raw)).
    reflexivity.
Qed.

(** Over a store that echoes, the default converter reads back every
    defined value it wrote, the falsy ones included, and a write of
    [undefined] leaves the next read as it was. *)
Theorem default_set_get_roundtrip (v : Value) (s : S) :
  let d := defaultDescriptor getter setter in
  (v <> VUndefined -> fst (get d (snd (set d v s))) = Ok v)
  /\ get d (snd (set d VUndefined s)) = get d s.
Proof.
  intros d. split; [| reflexivity].
  intros Hd. apply isDefined_true in Hd. unfold d. simpl set. rewrite Hd.
  simpl get. now rewrite (echo_after_set (fun raw => raw)).
Qed.

End RoundTrips.

Lemma dateTime_set_get_roundtrip_witness :
  let P := memPlatform noSchema [] false in
  fst (get (dateTimeDescriptor P "date" cellGetter cellSetter)
         (snd (set (dateTimeDescriptor P "date" cellGetter cellSetter)
                 (VDate 4) VNull)))
  = Ok (VMoment 4).
Proof.
  intros P.
  apply (proj1 (dateTime_set_get_roundtrip P cellGetter cellSetter cell_echoes
                  "date" (VDate 4) VNull));
    reflexivity.
Defined.

Lemma default_set_get_roundtrip_witness :
  fst (get (defaultDescriptor cellGetter cellSetter)
         (snd (set (defaultDescriptor cellGetter cellSetter) (VStr "") (VStr "Mx"))))
  = Ok (VStr "").
Proof.
  apply (proj1 (default_set_get_roundtrip cellGetter cellSetter cell_echoes
                  (VStr "") (VStr "Mx"))).
  discriminate.
Defined.

(** * Further properties of record building *)

Section BuiltRecord.
Variable P : Platform.

(** Assignment keeps every fixed property, and every property under
    another name. *)
Lemma assign_keeps (obj : Obj P) name v w obj' w' k p :
  assign P obj name v w = (Ok obj', w') ->
  obj !! k = Some p -> fixedProperty p = true \/ k <> name ->
  obj' !! k = Some p.
Proof.
  unfold assign. intros H Hk Hfix.
  destruct (decide (k = name)) as [-> | Hne].
  - destruct Hfix as [Hfix | Hne]; [| contradiction].
    rewrite Hk in H. destruct p as [d | x a | l a]; simpl in Hfix.
    + apply bind_ok_inv in H as (_ & w1 & _ & H). now inversion H; subst.
    + apply negb_true_iff in Hfix. rewrite Hfix in H. now inversion H; subst.
    + apply negb_true_iff in Hfix. rewrite Hfix in H. now inversion H; subst.
  - assert (Hins : forall q, (<[name := q]> obj : Obj P) !! k = Some p)
      by (intros q; unfold Obj in *; rewrite lookup_insert_ne; auto).
    destruct (obj !! name) as [[d | x a | l a] |].
    + apply bind_ok_inv in H as (_ & w1 & _ & H). now inversion H; subst.
    + inversion H; subst. destruct (writable a); auto.
    + inversion H; subst. destruct (writable a); auto.
    + inversion H; subst. auto.
Qed.

Lemma passThru_keeps (obj : Obj P) n w obj' w' k p :
  passThru P obj n w = (Ok obj', w') ->
  obj !! k = Some p -> fixedProperty p = true \/ k <> n ->
  obj' !! k = Some p.
Proof.
  unfold passThru. destruct (truthy (member P n)).
  - intros H. apply bind_ok_inv in H as (b & w1 & _ & H).
    now apply (assign_keeps _ _ _ _ _ _ _ _ H).
  - intros H. now inversion H; subst.
Qed.

Lemma passThru_fold_keeps names : forall (obj : Obj P) w obj' w' k p,
  foldM (passThru P) obj names w = (Ok obj', w') ->
  obj !! k = Some p -> fixedProperty p = true \/ ~ In k names ->
  obj' !! k = Some p.
Proof.
  induction names as [| n names IH]; intros obj w obj' w' k p H Hk Hfix;
    simpl in H.
  - now inversion H; subst.
  - apply bind_ok_inv in H as (o1 & w1 & Hstep & Hrest).
    apply (IH _ _ _ _ _ _ Hrest).
    + apply (passThru_keeps _ _ _ _ _ _ _ Hstep Hk).
      destruct Hfix as [Hfix | Hout]; [now left | right].
      intros ->. apply Hout. now left.
    + destruct Hfix as [Hfix | Hout]; [now left | right].
      intros Hin. apply Hout. now right.
Qed.

(** What a successful run of the field loop has attached: every name
    has its cell, and a cell that was there is kept. *)
Lemma attached_fields_present names : forall (o0 fields : Row P) w w',
  foldM (fun o n => tryCatch (attachField P o n) (onAttachError P n))
        o0 names w = (Ok fields, w') ->
  (forall n, In n names -> is_Some (fields !! n))
  /\ (forall k c, o0 !! k = Some c -> fields !! k = Some c).
Proof.
  induction names as [| n names IH]; intros o0 fields w w' H.
  - simpl in H. inversion H; subst. split; [now intros n [] | auto].
  - simpl in H. apply bind_ok_inv in H as (o1 & w1 & Hstep & Hrest).
    apply tryCatch_ok in Hstep; [| apply onAttachError_never_ok].
    destruct (IH _ _ _ _ Hrest) as (Hin & Hmono).
    assert (Hkept : forall k c, o0 !! k = Some c -> o1 !! k = Some c).
    { apply attachField_ok in Hstep as [(c & Hnew & ->) | [_ ->]]; [| auto].
      intros k c' Hk. unfold Row in *. rewrite lookup_insert_ne; [exact Hk |].
      intros ->. congruence. }
    assert (Hn : is_Some (o1 !! n)).
    { apply attachField_ok in Hstep as [(c & Hnew & ->) | [Hn ->]]; [| exact Hn].
      unfold Row. rewrite lookup_insert_eq. now eexists. }
    split.
    + intros m [<- | Hm]; [| now apply Hin].
      destruct Hn as [c Hc]. exists c. now apply Hmono.
    + intros k c Hk. apply Hmono. now apply Hkept.
Qed.

(** When every field is attached as an accessor, a successful run of
    the field loop was given distinct names. *)
Lemma attached_fields_distinct names :
  (forall n, In n names -> forall (o o' : Row P) w w',
     attachField P o n w = (Ok o', w') ->
     exists d, o !! n = None /\ o' = <[n := CAccessor d]> o) ->
  forall (o0 fields : Row P) w w',
  foldM (fun o n => tryCatch (attachField P o n) (onAttachError P n))
        o0 names w = (Ok fields, w') ->
  NoDup names
  /\ (forall n, In n names ->
        o0 !! n = None /\ exists d, fields !! n = Some (CAccessor d)).
Proof.
  induction names as [| n names IH]; intros Hacc o0 fields w w' H.
  - split; [apply NoDup_nil_2 | now intros n []].
  - simpl in H. apply bind_ok_inv in H as (o1 & w1 & Hstep & Hrest).
    apply tryCatch_ok in Hstep; [| apply onAttachError_never_ok].
    destruct (Hacc n (or_introl eq_refl) _ _ _ _ Hstep) as (d & Hnew & ->).
    destruct (IH (fun m Hm => Hacc m (or_intror Hm)) _ _ _ _ Hrest) as (Hnd & Hin).
    destruct (attached_fields_present _ _ _ _ _ Hrest) as [_ Hmono].
    split.
    + apply NoDup_cons. split; [| exact Hnd].
      intros Hmem. apply list_elem_of_In in Hmem.
      destruct (Hin n Hmem) as [Habs _].
      unfold Row in Habs. now rewrite lookup_insert_eq in Habs.
    + intros m [<- | Hm].
      * split; [exact Hnew |]. exists d. apply Hmono.
        unfold Row. apply lookup_insert_eq.
      * destruct (Hin m Hm) as [Hnone Hsome]. split; [| exact Hsome].
        destruct (decide (n = m)) as [-> | Hne]; unfold Row in Hnone.
        -- now rewrite lookup_insert_eq in Hnone.
        -- now rewrite lookup_insert_ne in Hnone.
Qed.

(** A field whose metadata is read without effect and names no member
    inherited from [Object.prototype] is attached as an accessor. *)
Lemma attachField_known names meta n (o o' : Row P) w w' :
  readsBodyMetadata P names meta -> In n names ->
  inherited (bodyType (meta n)) = None ->
  attachField P o n w = (Ok o', w') ->
  exists d, o !! n = None /\ o' = <[n := CAccessor d]> o.
Proof.
  intros Hmeta Hin Hinh H. unfold attachField in H.
  assert (Hfield : (if isClientScript P then ret VUndefined
                    else invoke P "getField" [VStr n]) w = (Ok (meta n), w)).
  { specialize (Hmeta n Hin). destruct (isClientScript P).
    - now rewrite Hmeta.
    - apply Hmeta. }
  rewrite (bind_ok _ _ _ _ _ Hfield) in H. fold (bodyType (meta n)) in H.
  rewrite Hinh in H.
  destruct (bodyFieldDescriptors P (bodyType (meta n))) as [make |];
    apply bind_ok_inv in H as (d & w2 & _ & H);
    apply liftR_ok in H as [H _]; apply defineAccessor_ok in H as [Hn ->];
    now exists d.
Qed.

End BuiltRecord.

Section RecordShape.
Variable P : Platform.

Lemma assign_fresh (obj : Obj P) name v w :
  obj !! name = None ->
  assign P obj name v w = (Ok (<[name := PValue v assigned]> obj), w).
Proof. intros H. unfold assign. now rewrite H. Qed.

Lemma addFieldProperties_shape names w obj w' :
  addFieldProperties P names w = (Ok obj, w') ->
  exists (fields : Row P) w1,
    foldM (fun o n => tryCatch (attachField P o n) (onAttachError P n))
          (∅ : Row P) names w = (Ok fields, w1)
    /\ ~ In "nlobjRecord" names
    /\ (forall n c, In n names -> fields !! n = Some c ->
          obj !! n = Some (cellProperty P c))
    /\ refersToHandle obj
    /\ (~ In "save" names ->
        obj !! "save" = Some (PValue (VAdapterFn "save") assigned))
    /\ (~ In "withSublist" names ->
        obj !! "withSublist" = Some (PValue (VAdapterFn "withSublist") assigned)).
Proof.
  unfold addFieldProperties. intros H.
  apply bind_ok_inv in H as (fields & w1 & Hfields & H).
  apply bind_ok_inv in H as (_ & w2 & _ & H).
  apply bind_ok_inv in H as (o1 & w3 & Href & H).
  apply bind_ok_inv in H as (o2 & w4 & Hsave & H).
  apply bind_ok_inv in H as (o3 & w5 & Hwith & H).
  inversion H; subst; clear H.
  exists fields, w1. split; [exact Hfields |].
  destruct (attached_fields_present P _ _ _ _ _ Hfields) as (Hin & _).
  apply liftR_ok in Href as [Href _]. unfold defineRecordRef in Href.
  destruct (fields !! "nlobjRecord") eqn:Eref; [discriminate |].
  inversion Href; subst o1; clear Href.
  assert (Hnoref : ~ In "nlobjRecord" names).
  { intros Habs. destruct (Hin _ Habs) as [x Hx]. congruence. }
  set (o1 := (<["nlobjRecord" := PValue VRecord hidden]> (cellProperty P <$> fields)
              : Obj P)) in *.
  assert (Hkeys : forall k, k <> "nlobjRecord" -> ~ In k names -> o1 !! k = None).
  { intros k Hk Hout. unfold o1, Obj, Row in *.
    rewrite lookup_insert_ne by congruence. rewrite lookup_fmap.
    destruct (fields !! k) eqn:E; [| reflexivity]. exfalso.
    destruct (attached_fields_named P _ _ _ _ _ Hfields k) as [[x Hx] | Hk'].
    - eexists. exact E.
    - unfold Row in Hx. now rewrite lookup_empty in Hx.
    - contradiction. }
  split; [exact Hnoref |]. split; [| split; [| split]].
  - intros n c Hn Hc.
    apply (assign_keeps P _ _ _ _ _ _ _ _ Hwith); [| left; now destruct c].
    apply (assign_keeps P _ _ _ _ _ _ _ _ Hsave); [| left; now destruct c].
    unfold o1, Obj, Row in *.
    rewrite lookup_insert_ne by (intros <-; contradiction).
    now rewrite lookup_fmap, Hc.
  - unfold refersToHandle.
    apply (assign_keeps P _ _ _ _ _ _ _ _ Hwith); [| now left].
    apply (assign_keeps P _ _ _ _ _ _ _ _ Hsave); [| now left].
    unfold o1, Obj. apply lookup_insert_eq.
  - intros Hout.
    apply (assign_keeps P _ _ _ _ _ _ _ _ Hwith); [| right; discriminate].
    rewrite (assign_fresh o1 "save" _ _ (Hkeys "save" ltac:(discriminate) Hout))
      in Hsave.
    inversion Hsave; subst. unfold Obj. apply lookup_insert_eq.
  - intros Hout.
    assert (Hnone : o2 !! "withSublist" = None).
    { destruct (o2 !! "withSublist") eqn:E; [| reflexivity]. exfalso.
      destruct (assign_ok P _ _ _ _ _ _ Hsave "withSublist") as [Habs | [x Hx]].
      - rewrite E. now eexists.
      - discriminate Habs.
      - pose proof (Hkeys "withSublist" ltac:(discriminate) Hout) as Hk.
        change (o1 !! "withSublist" = Some x) in Hx.
        rewrite Hk in Hx. discriminate Hx. }
    rewrite (assign_fresh o2 "withSublist" _ _ Hnone) in Hwith.
    inversion Hwith; subst. unfold Obj. apply lookup_insert_eq.
Qed.

Lemma built_record_fields names w obj w' :
  fromRecord P names w = (Ok obj, w') ->
  ~ In "nlobjRecord" names
  /\ (forall n, In n names -> exists c, obj !! n = Some (cellProperty P c))
  /\ (forall meta,
        readsBodyMetadata P names meta ->
        (forall f, In f names -> inherited (bodyType (meta f)) = None) ->
        NoDup names
        /\ forall n, In n names -> exists d, obj !! n = Some (PAccessor d)).
Proof.
  unfold fromRecord. intros H.
  apply bind_ok_inv in H as (o0 & w0 & Hadd & H).
  apply bind_ok_inv in H as (o1 & w1 & Hpass & H).
  apply bind_ok_inv in H as (u & w2 & _ & H).
  inversion H; subst; clear H.
  destruct (addFieldProperties_shape _ _ _ _ Hadd)
    as (fields & wf & Hfields & Hnoref & Hcell & _).
  assert (Hkeep : forall n c, In n names -> fields !! n = Some c ->
            obj !! n = Some (cellProperty P c)).
  { intros n c Hn Hc.
    apply (passThru_fold_keeps P _ _ _ _ _ _ _ Hpass (Hcell n c Hn Hc)).
    left. now destruct c. }
  split; [exact Hnoref |]. split.
  - intros n Hn.
    destruct (proj1 (attached_fields_present P _ _ _ _ _ Hfields) n Hn) as [c Hc].
    exists c. now apply Hkeep.
  - intros meta Hmeta Hplain.
    destruct (attached_fields_distinct P names
                (fun n Hn o o' w w' =>
                   attachField_known P names meta n o o' w w' Hmeta Hn (Hplain n Hn))
                _ _ _ _ Hfields) as (Hnd & Hacc).
    split; [exact Hnd |].
    intros n Hn. destruct (Hacc n Hn) as (_ & d & Hd). exists d.
    exact (Hkeep n _ Hn Hd).
Qed.

(** A record that [fromRecord] returns has no field named
    [nlobjRecord], and every requested name is a property of it that an
    assignment cannot replace: an accessor, or the blank hidden property
    left for a field whose type is tagged [constructor].  When the
    metadata of every field is read without effect (or not read, in a
    client script) and no type tag names a member the descriptor table
    inherits, the names are pairwise distinct and each is an accessor:
    a repeated field name then never yields a record. *)
Theorem fromRecord_fields_are_accessors names w obj w' :
  fromRecord P names w = (Ok obj, w') ->
  ~ In "nlobjRecord" names
  /\ (forall n, In n names ->
        exists c, obj !! n = Some (cellProperty P c)
                  /\ fixedProperty (cellProperty P c) = true)
  /\ (forall meta,
        readsBodyMetadata P names meta ->
        (forall f, In f names -> inherited (bodyType (meta f)) = None) ->
        NoDup names
        /\ forall n, In n names -> exists d, obj !! n = Some (PAccessor d)).
Proof.
  intros H. destruct (built_record_fields _ _ _ _ H) as (Hnoref & Hcell & Hacc).
  split; [exact Hnoref |]. split; [| exact Hacc].
  intros n Hn. destruct (Hcell n Hn) as [c Hc]. exists c.
  split; [exact Hc | now destruct c].
Qed.

Lemma built_record_own_names names w obj w' :
  fromRecord P names w = (Ok obj, w') ->
  refersToHandle obj
  /\ (~ In "save" names ->
      obj !! "save" = Some (PValue (VAdapterFn "save") assigned))
  /\ (~ In "withSublist" names ->
      obj !! "withSublist" = Some (PValue (VAdapterFn "withSublist") assigned)).
Proof.
  unfold fromRecord. intros H.
  apply bind_ok_inv in H as (o0 & w0 & Hadd & H).
  apply bind_ok_inv in H as (o1 & w1 & Hpass & H).
  apply bind_ok_inv in H as (u & w2 & _ & H).
  inversion H; subst; clear H.
  destruct (addFieldProperties_shape _ _ _ _ Hadd)
    as (fields & wf & _ & _ & _ & Href & Hsave & Hwith).
  split; [| split].
  - apply (passThru_fold_keeps P _ _ _ _ _ _ _ Hpass Href). now left.
  - intros Hout.
    apply (passThru_fold_keeps P _ _ _ _ _ _ _ Hpass (Hsave Hout)). right.
    intros Hin. apply (passThru_not_own "save" Hin). simpl. tauto.
  - intros Hout.
    apply (passThru_fold_keeps P _ _ _ _ _ _ _ Hpass (Hwith Hout)). right.
    intros Hin. apply (passThru_not_own "withSublist" Hin). simpl. tauto.
Qed.

(** A record that [fromRecord] returns refers back to the handle
    through [nlobjRecord], a property that is hidden, read-only and not
    configurable, and carries [save] and [withSublist] as plain
    properties unless a requested field took the name. *)
Theorem fromRecord_refers_to_handle names w obj w' :
  fromRecord P names w = (Ok obj, w') ->
  refersToHandle obj
  /\ (~ In "save" names ->
      obj !! "save" = Some (PValue (VAdapterFn "save") assigned))
  /\ (~ In "withSublist" names ->
      obj !! "withSublist" = Some (PValue (VAdapterFn "withSublist") assigned)).
Proof. apply built_record_own_names. Qed.

End RecordShape.

Lemma demoAdapted_refers : refersToHandle demoAdapted.
Proof.
  exact (proj1 (built_record_own_names demoPlatform ["memo"] demoWorld
                  demoAdapted demoLoaded demoAdapted_built)).
Qed.

Lemma demo_readsBodyMetadata names :
  readsBodyMetadata demoPlatform names demoBodyMeta.
Proof. intros f _. simpl. intros [r l]. reflexivity. Qed.

Lemma demo_memo_plain f :
  In f ["memo"] -> inherited (bodyType (demoBodyMeta f)) = None.
Proof. intros [<- | []]. vm_compute. reflexivity. Qed.

Lemma fromRecord_fields_are_accessors_witness :
  ~ In "nlobjRecord" ["memo"]
  /\ NoDup ["memo"]
  /\ forall n, In n ["memo"] -> exists d, demoAdapted !! n = Some (PAccessor d).
Proof.
  destruct (fromRecord_fields_are_accessors demoPlatform ["memo"] demoWorld
              demoAdapted demoLoaded demoAdapted_built) as (Hnoref & _ & Hacc).
  split; [exact Hnoref |].
  exact (Hacc demoBodyMeta (demo_readsBodyMetadata _) demo_memo_plain).
Defined.

Lemma fromRecord_refers_to_handle_witness :
  refersToHandle demoAdapted
  /\ demoAdapted !! "save" = Some (PValue (VAdapterFn "save") assigned).
Proof.
  destruct (fromRecord_refers_to_handle demoPlatform ["memo"] demoWorld
              demoAdapted demoLoaded demoAdapted_built) as (Href & Hsave & _).
  split; [exact Href |]. apply Hsave.
  intros [H | []]. discriminate H.
Defined.

(** * Calling a method that was passed through *)

Section Forwarding.
Variable P : Platform.

Lemma passThru_at (obj : Obj P) n w obj' w' m :
  passThru P obj n w = (Ok obj', w') ->
  obj !! m = None \/ exposes obj m ->
  obj' !! m = if String.eqb m n && hasMethod P m
              then Some (PValue (VMethod m []) assigned)
              else obj !! m.
Proof.
  intros Hstep Hm. destruct (String.eqb_spec m n) as [-> | Hne]; simpl.
  - rewrite (passThru_step P obj n w Hm) in Hstep. inversion Hstep; subst.
    destruct (hasMethod P n); [| reflexivity].
    unfold Obj. apply lookup_insert_eq.
  - destruct (obj !! m) as [p |] eqn:E.
    + apply (passThru_keeps P _ _ _ _ _ _ _ Hstep E). now right.
    + destruct (obj' !! m) eqn:E'; [| reflexivity]. exfalso.
      destruct (passThru_names P _ _ _ _ _ Hstep m) as [-> | [x Hx]].
      * rewrite E'. now eexists.
      * now apply Hne.
      * congruence.
Qed.

Lemma passThru_fold_at names m : forall (obj : Obj P) w obj' w',
  foldM (passThru P) obj names w = (Ok obj', w') ->
  obj !! m = None \/ exposes obj m ->
  obj' !! m = if existsb (String.eqb m) names && hasMethod P m
              then Some (PValue (VMethod m []) assigned)
              else obj !! m.
Proof.
  induction names as [| n names IH]; intros obj w obj' w' H Hm; simpl in H.
  - now inversion H; subst.
  - apply bind_ok_inv in H as (o1 & w1 & Hstep & Hrest).
    pose proof (passThru_at _ _ _ _ _ m Hstep Hm) as H1.
    assert (Hm1 : o1 !! m = None \/ exposes o1 m).
    { unfold exposes. rewrite H1.
      destruct (String.eqb m n && hasMethod P m); [now right | exact Hm]. }
    rewrite (IH _ _ _ _ Hrest Hm1), H1. simpl.
    destruct (String.eqb m n), (existsb (String.eqb m) names), (hasMethod P m);
      reflexivity.
Qed.

(** On a record that [fromRecord] returns, calling an allow-listed
    method that no requested field shadows is calling the handle's
    method with the same arguments: same result, same effect on the
    remote record, the adapted record untouched; when the handle lacks
    the method, the call raises a [TypeError]. *)
Theorem passed_method_calls_handle names w0 obj w1 m :
  fromRecord P names w0 = (Ok obj, w1) ->
  In m functionsToPassThru -> ~ In m names ->
  (forall args w,
     callProp P m args (obj, w)
     = (fst (invoke P m args w), (obj, snd (invoke P m args w))))
  /\ (hasMethod P m = false ->
      forall args w, callProp P m args (obj, w) = (Throw TypeError, (obj, w))).
Proof.
  intros Hrec Hm Hfree.
  unfold fromRecord in Hrec.
  apply bind_ok_inv in Hrec as (o0 & w0' & Hadd & Hrec).
  apply bind_ok_inv in Hrec as (o1 & w1' & Hpass & Hrec).
  apply bind_ok_inv in Hrec as (u & w2 & _ & Hrec).
  inversion Hrec; subst; clear Hrec.
  assert (Hnone : o0 !! m = None).
  { destruct (o0 !! m) eqn:E; [| reflexivity]. exfalso.
    destruct (addFieldProperties_names P _ _ _ _ Hadd m) as [Hin | Hin].
    - rewrite E. now eexists.
    - contradiction.
    - now apply (passThru_not_own m). }
  pose proof (passThru_fold_at _ m _ _ _ _ Hpass (or_introl Hnone)) as Hat.
  assert (Hex : existsb (String.eqb m) functionsToPassThru = true).
  { apply existsb_exists. exists m. split; [exact Hm | apply String.eqb_refl]. }
  rewrite Hex, Hnone in Hat. simpl in Hat.
  assert (Hmissing : hasMethod P m = false ->
            forall args w, callProp P m args (obj, w) = (Throw TypeError, (obj, w))).
  { intros Hno args w. rewrite Hno in Hat.
    unfold callProp, bind, getThis. cbn [fst snd]. now rewrite Hat. }
  split; [| exact Hmissing].
  intros args w. destruct (hasMethod P m) eqn:Hhas.
  - now apply callProp_exposed.
  - rewrite (Hmissing eq_refl). unfold invoke. now rewrite Hhas.
Qed.

End Forwarding.

Lemma passed_method_calls_handle_witness :
  callProp demoPlatform "getLineItemCount" [VStr "item"] (demoAdapted, demoLoaded)
  = (fst (invoke demoPlatform "getLineItemCount" [VStr "item"] demoLoaded),
     (demoAdapted,
      snd (invoke demoPlatform "getLineItemCount" [VStr "item"] demoLoaded))).
Proof.
  apply (proj1 (passed_method_calls_handle demoPlatform ["memo"] demoWorld
                  demoAdapted demoLoaded "getLineItemCount" demoAdapted_built
                  ltac:(simpl; tauto)
                  ltac:(intros [H | []]; discriminate H))).
Defined.

(** * Body fields bound to their name *)

Section BodyFields.
Variable P : Platform.
Variable names : list string.
Variable meta : string -> Value.
Hypothesis Haccessors : hasValueAccessors P.
Hypothesis Hmeta : readsBodyMetadata P names meta.
Hypothesis Hplain : forall f, In f names -> inherited (bodyType (meta f)) = None.

Lemma accessor_present m :
  In m ["getFieldValue"; "setFieldValue"; "getFieldValues"; "setFieldValues"] ->
  hasMethod P m = true.
Proof.
  intros Hin. unfold hasValueAccessors in Haccessors.
  rewrite Forall_forall in Haccessors. apply Haccessors.
  now apply list_elem_of_In.
Qed.

Lemma bodyBound_present conv g s name :
  In g ["getFieldValue"; "setFieldValue"; "getFieldValues"; "setFieldValues"] ->
  In s ["getFieldValue"; "setFieldValue"; "getFieldValues"; "setFieldValues"] ->
  bodyBound P conv g s name
  = Ok (conv (getterOf P (VMethod g [AStr name]))
             (setterOf P (VMethod s [AStr name]))).
Proof.
  intros Hg Hs. unfold bodyBound, member.
  now rewrite (accessor_present g Hg), (accessor_present s Hs).
Qed.

Lemma body_table_bound fieldType name :
  match bodyFieldDescriptors P fieldType with
  | Some make => make name
  | None => bodyDefaultDesc P name
  end = Ok (bodyDescriptor P (converterFor fieldType) name).
Proof.
  assert (Hsingle : forall conv,
            bodyBound P conv "getFieldValue" "setFieldValue" name
            = Ok (conv (getterOf P (VMethod "getFieldValue" [AStr name]))
                       (setterOf P (VMethod "setFieldValue" [AStr name]))))
    by (intros conv; apply bodyBound_present; simpl; tauto).
  assert (Hplural : forall conv,
            bodyBound P conv "getFieldValues" "setFieldValues" name
            = Ok (conv (getterOf P (VMethod "getFieldValues" [AStr name]))
                       (setterOf P (VMethod "setFieldValues" [AStr name]))))
    by (intros conv; apply bodyBound_present; simpl; tauto).
  destruct fieldType; try (apply (Hsingle defaultDescriptor)).
  unfold bodyFieldDescriptors, converterFor, bodyDateHandler.
  destruct (String.eqb s "date"); [apply (Hsingle (dateTimeDescriptor P "date")) |].
  destruct (String.eqb s "datetime");
    [apply (Hsingle (dateTimeDescriptor P "datetime")) |].
  destruct (String.eqb s "datetimetz");
    [apply (Hsingle (dateTimeDescriptor P "datetimetz")) |].
  destruct (String.eqb s "multiselect"); [apply (Hplural multiSelectDescriptor) |].
  destruct (String.eqb s "checkbox"); [apply (Hsingle checkboxDescriptor) |].
  destruct (String.eqb s "defaultDesc"); apply (Hsingle defaultDescriptor).
Qed.

Lemma attachField_bound (obj : Row P) name w :
  In name names -> obj !! name = None ->
  attachField P obj name w
  = (Ok (<[name := CAccessor (bodyDescriptor P (converterFor (bodyType (meta name)))
                                  name)]> obj),
     w).
Proof.
  intros Hin Hnew. unfold attachField.
  assert (Hfield : (if isClientScript P then ret VUndefined
                    else invoke P "getField" [VStr name]) w = (Ok (meta name), w)).
  { specialize (Hmeta name Hin). destruct (isClientScript P).
    - now rewrite Hmeta.
    - apply Hmeta. }
  rewrite (bind_ok _ _ _ _ _ Hfield). fold (bodyType (meta name)).
  pose proof (body_table_bound (bodyType (meta name)) name) as Ht.
  rewrite (Hplain name Hin).
  destruct (bodyFieldDescriptors P (bodyType (meta name))) as [make |];
    unfold bind, liftR; rewrite Ht; unfold defineAccessor; now rewrite Hnew.
Qed.

Lemma fields_fold w : forall rest (acc : Row P),
  NoDup rest ->
  (forall f, In f rest -> In f names /\ acc !! f = None) ->
  exists fields,
    foldM (fun o n => tryCatch (attachField P o n) (onAttachError P n))
          acc rest w = (Ok fields, w)
    /\ (forall f, In f rest ->
          fields !! f
          = Some (CAccessor (bodyDescriptor P (converterFor (bodyType (meta f))) f)))
    /\ (forall k, ~ In k rest -> fields !! k = acc !! k).
Proof.
  induction rest as [| f rest IH]; intros acc Hnd Hacc.
  - exists acc. split; [reflexivity |]. split; [now intros f [] | reflexivity].
  - apply NoDup_cons in Hnd as [Hnotin Hnd].
    destruct (Hacc f (or_introl eq_refl)) as [Hin Hnew].
    set (acc1 := (<[f := CAccessor (bodyDescriptor P (converterFor (bodyType (meta f)))
                                      f)]> acc
                  : Row P)).
    destruct (IH acc1 Hnd) as (fields & Hrun & Hbound & Hrest).
    { intros g Hg. destruct (Hacc g (or_intror Hg)) as [Hgin Hgnew].
      split; [exact Hgin |]. unfold acc1, Row in *.
      rewrite lookup_insert_ne; [exact Hgnew |].
      intros ->. apply Hnotin. now apply list_elem_of_In. }
    exists fields. split; [| split].
    + simpl. unfold bind at 1, tryCatch at 1.
      rewrite (attachField_bound acc f w Hin Hnew). exact Hrun.
    + intros g [<- | Hg]; [| now apply Hbound].
      rewrite Hrest by (intros Habs; apply Hnotin; now apply list_elem_of_In).
      unfold acc1, Row. apply lookup_insert_eq.
    + intros k Hk. rewrite Hrest by (intros Habs; apply Hk; now right).
      unfold acc1, Row. apply lookup_insert_ne. intros ->. apply Hk. now left.
Qed.

End BodyFields.

(** On a handle that has the four value accessors, with field metadata
    that reads without side effect and in which no type tag names a
    member the descriptor table inherits from [Object.prototype], and
    for distinct field names that are none of the record's own names
    nor an allow-listed method name,
    [fromRecord] returns a record: every requested name is an accessor
    that runs the converter of the field's declared type over the
    handle's [getFieldValue] and [setFieldValue] bound to that very name
    (over [getFieldValues] and [setFieldValues] for a multiselect); the
    remote record is untouched and the logger has received the two
    entries of a successful build. *)
Theorem fromRecord_binds_body_fields (P : Platform) (names : list string)
    (meta : string -> Value) (w : World P) :
  hasValueAccessors P -> readsBodyMetadata P names meta ->
  (forall f, In f names -> inherited (bodyType (meta f)) = None) ->
  NoDup names ->
  (forall n, In n names -> ~ In n ownNames /\ ~ In n functionsToPassThru) ->
  exists obj,
    fromRecord P names w = (Ok obj, withLogged w buildLog)
    /\ forall f, In f names ->
         obj !! f
         = Some (PAccessor (bodyDescriptor P (converterFor (bodyType (meta f))) f)).
Proof.
  intros Hacc Hmeta Hplain Hnd Hfree.
  destruct (fields_fold P names meta Hacc Hmeta Hplain w names ∅ Hnd)
    as (fields & Hfold & Hbound & Hrest).
  { intros f Hf. split; [exact Hf | unfold Row; apply lookup_empty]. }
  assert (Hout : forall k, ~ In k names -> fields !! k = None).
  { intros k Hk. rewrite (Hrest k Hk). unfold Row. apply lookup_empty. }
  assert (Hown : forall k, In k ownNames -> ~ In k names).
  { intros k Hk Hin. now apply (proj1 (Hfree k Hin)). }
  set (o1 := (<["nlobjRecord" := PValue VRecord hidden]> (cellProperty P <$> fields)
              : Obj P)).
  set (o2 := (<["save" := PValue (VAdapterFn "save") assigned]> o1 : Obj P)).
  set (o3 := (<["withSublist" := PValue (VAdapterFn "withSublist") assigned]> o2
              : Obj P)).
  assert (Hlook : forall k, ~ In k ownNames ->
            o3 !! k = cellProperty P <$> (fields !! k)).
  { intros k Hk. unfold o3, o2, o1, Obj, Row in *. simpl in Hk.
    rewrite !lookup_insert_ne by (intros <-; tauto).
    apply lookup_fmap. }
  set (w1 := withLogged w [{| level := Debug;
                              title := [Lit "adding [nlobjRecord] property to nsdal object"];
                              details := [] |}]).
  assert (Hadd : addFieldProperties P names w = (Ok o3, w1)).
  { unfold addFieldProperties. rewrite (bind_ok _ _ _ _ _ Hfold).
    unfold bind at 1. rewrite log_run. fold w1.
    unfold bind at 1, liftR, defineRecordRef.
    rewrite (Hout "nlobjRecord") by (apply Hown; simpl; tauto).
    fold hidden. fold o1.
    assert (H1 : o1 !! "save" = None).
    { unfold o1, Obj, Row in *. rewrite lookup_insert_ne by discriminate.
      rewrite lookup_fmap, (Hout "save") by (apply Hown; simpl; tauto).
      reflexivity. }
    rewrite (bind_ok _ _ _ _ _ (assign_fresh P o1 "save" _ w1 H1)). fold o2.
    assert (H2 : o2 !! "withSublist" = None).
    { unfold o2, o1, Obj, Row in *. rewrite !lookup_insert_ne by discriminate.
      rewrite lookup_fmap, (Hout "withSublist") by (apply Hown; simpl; tauto).
      reflexivity. }
    rewrite (bind_ok _ _ _ _ _ (assign_fresh P o2 "withSublist" _ w1 H2)).
    reflexivity. }
  destruct (passThru_all P functionsToPassThru o3 w1) as (obj & Hpass & Hkeep & _).
  { intros n Hn. left. rewrite Hlook by (now apply passThru_not_own).
    rewrite Hout; [reflexivity |].
    intros Hin. now apply (proj2 (Hfree n Hin)). }
  exists obj. split.
  - unfold fromRecord. rewrite (bind_ok _ _ _ _ _ Hadd).
    rewrite (bind_ok _ _ _ _ _ Hpass). unfold bind. rewrite log_run.
    unfold w1, withLogged, buildLog. cbn [remote logged].
    now rewrite <- app_assoc.
  - intros f Hf. destruct (Hfree f Hf) as [Hnown Hnpass].
    rewrite (Hkeep f Hnpass), (Hlook f Hnown), (Hbound f Hf). reflexivity.
Qed.

Lemma not_in_by_eqb (n : string) (l : list string) :
  existsb (String.eqb n) l = false -> ~ In n l.
Proof.
  intros H Hin.
  assert (existsb (String.eqb n) l = true); [| congruence].
  apply existsb_exists. exists n. split; [exact Hin | apply String.eqb_refl].
Qed.

Lemma full_hasValueAccessors : hasValueAccessors fullPlatform.
Proof.
  unfold hasValueAccessors.
  repeat (apply Forall_cons; split; [vm_compute; reflexivity |]).
  apply Forall_nil_2.
Qed.

Lemma full_readsBodyMetadata names :
  readsBodyMetadata fullPlatform names demoBodyMeta.
Proof. intros f _. simpl. intros [r l]. reflexivity. Qed.

Lemma full_memo_plain f :
  In f ["memo"] -> inherited (bodyType (demoBodyMeta f)) = None.
Proof. intros [<- | []]. vm_compute. reflexivity. Qed.

Lemma memo_is_free n :
  In n ["memo"] -> ~ In n ownNames /\ ~ In n functionsToPassThru.
Proof.
  intros [<- | []]. split; apply not_in_by_eqb; reflexivity.
Qed.

Lemma fromRecord_binds_body_fields_witness :
  exists obj,
    fromRecord fullPlatform ["memo"] fullWorld
    = (Ok obj, withLogged fullWorld buildLog)
    /\ forall f, In f ["memo"] ->
         obj !! f
         = Some (PAccessor
                   (bodyDescriptor fullPlatform
                      (converterFor (bodyType (demoBodyMeta f))) f)).
Proof.
  apply (fromRecord_binds_body_fields fullPlatform ["memo"] demoBodyMeta fullWorld
           full_hasValueAccessors (full_readsBodyMetadata _)).
  - exact full_memo_plain.
  - apply NoDup_singleton.
  - exact memo_is_free.
Defined.

(** * Assigning to a body property *)

Section WriteThrough.
Variable P : Platform.

Lemma setter_call name c arg w :
  (do! setterOf P (VMethod (setterName c) [AStr name]) arg in ret tt) w
  = (discard tt (fst (invoke P (setterName c) [VStr name; arg] w)),
     snd (invoke P (setterName c) [VStr name; arg] w)).
Proof.
  unfold bind, setterOf, callValue. cbn [map argValue app].
  now destruct (invoke P (setterName c) [VStr name; arg] w) as [[x | e |] w'].
Qed.

(** Assigning to a body property of the adapted record writes through
    to the handle: one call of [setFieldValue] ([setFieldValues] for a
    multiselect) with the field's own name, whose error, if any, is the
    assignment's; the record itself does not change.  The default and
    multiselect converters hand the value over as it is.  Assigning
    [undefined] calls nothing. *)
Theorem assignment_writes_through (obj : Obj P) (f : string) (c : Converter)
    (v : Value) (w : World P) :
  obj !! f = Some (PAccessor (bodyDescriptor P c f)) ->
  assign P obj f VUndefined w = (Ok obj, w)
  /\ (v <> VUndefined ->
      exists arg,
        assign P obj f v w
        = (discard obj (fst (invoke P (setterName c) [VStr f; arg] w)),
           snd (invoke P (setterName c) [VStr f; arg] w))
        /\ (isMultiSelect c = true \/ c = Default -> arg = v)).
Proof.
  intros Hf. split.
  - unfold assign. rewrite Hf. now destruct c.
  - intros Hv. apply isDefined_true in Hv.
    assert (Hset : exists arg,
              set (bodyDescriptor P c f) v
              = (do! setterOf P (VMethod (setterName c) [AStr f]) arg in ret tt)
              /\ (isMultiSelect c = true \/ c = Default -> arg = v)).
    { destruct c; simpl; rewrite Hv; eexists; (split; [reflexivity |]);
        try reflexivity; intros [H | H]; discriminate H. }
    destruct Hset as (arg & Hset & Harg). exists arg. split; [| exact Harg].
    unfold assign. rewrite Hf, Hset. unfold bind at 1.
    rewrite setter_call.
    now destruct (invoke P (setterName c) [VStr f; arg] w) as [[x | e |] w'].
Qed.

End WriteThrough.

Lemma assignment_writes_through_witness :
  let obj : Obj demoPlatform :=
    <["memo" := PAccessor (bodyDescriptor demoPlatform Default "memo")]> ∅ in
  exists arg,
    assign demoPlatform obj "memo" (VStr "Dr") demoWorld
    = (discard obj (fst (invoke demoPlatform "setFieldValue"
                           [VStr "memo"; arg] demoWorld)),
       snd (invoke demoPlatform "setFieldValue" [VStr "memo"; arg] demoWorld))
    /\ (isMultiSelect Default = true \/ Default = Default -> arg = VStr "Dr").
Proof.
  intros obj.
  apply (proj2 (assignment_writes_through demoPlatform obj "memo" Default
                  (VStr "Dr") demoWorld (lookup_insert_eq _ _ _))).
  discriminate.
Defined.

(** * Building in a client script *)

Section ClientScript.
Variable P : Platform.
Hypothesis Hclient : isClientScript P = true.

Lemma keeps_bind {A B} (c : M (World P) A) (k : A -> M (World P) B) w :
  keepsRemoteAt c w ->
  (forall a w', c w = (Ok a, w') -> keepsRemoteAt (k a) w') ->
  keepsRemoteAt (bind c k) w.
Proof.
  unfold keepsRemoteAt, bind. intros Hc Hk.
  destruct (c w) as [[a | e |] w'] eqn:E; cbn [snd] in *; try exact Hc.
  rewrite (Hk a w' eq_refl). exact Hc.
Qed.

Lemma keeps_log l t d w : keepsRemoteAt (log P l t d) w.
Proof. reflexivity. Qed.

Lemma keeps_liftR {A} (r : Result A) w : keepsRemoteAt (P := P) (liftR r) w.
Proof. reflexivity. Qed.

Lemma keeps_ret {A} (a : A) w : keepsRemoteAt (P := P) (ret a) w.
Proof. reflexivity. Qed.

Lemma keeps_attach (obj : Row P) name w :
  keepsRemoteAt (tryCatch (attachField P obj name) (onAttachError P name)) w.
Proof.
  unfold keepsRemoteAt, tryCatch.
  rewrite (attachField_plain P obj name w VUndefined w)
    by (first [now rewrite Hclient | now left]).
  unfold bind at 1. unfold liftR at 1.
  destruct (bodyDefaultDesc P name) as [d | e |]; try reflexivity.
  - unfold liftR. destruct (defineAccessor P obj name d) as [o | e |];
      try reflexivity.
    now rewrite onAttachError_throws.
  - now rewrite onAttachError_throws.
Qed.

Lemma keeps_attach_fold names : forall (obj : Row P) w,
  keepsRemoteAt
    (foldM (fun o n => tryCatch (attachField P o n) (onAttachError P n))
           obj names) w.
Proof.
  induction names as [| n names IH]; intros obj w; simpl.
  - apply keeps_ret.
  - apply keeps_bind; [apply keeps_attach | intros o w' _; apply IH].
Qed.

(** In a client script, building a record never calls the handle:
    whatever [fromRecord] ends in, the remote record is as before,
    provided no requested field is named like [save], [withSublist] or
    an allow-listed method (assigning over such a field would run its
    setter). *)
Theorem client_build_keeps_remote (names : list string) (w : World P) :
  (forall n, In n names -> ~ In n ["save"; "withSublist"]
                           /\ ~ In n functionsToPassThru) ->
  remote (snd (fromRecord P names w)) = remote w.
Proof.
  intros Hfree. change (keepsRemoteAt (fromRecord P names) w).
  assert (Hadd : keepsRemoteAt (addFieldProperties P names) w).
  { unfold addFieldProperties.
    apply keeps_bind; [apply keeps_attach_fold |].
    intros fields w1 Hfields.
    apply keeps_bind; [apply keeps_log | intros _ w2 _].
    apply keeps_bind; [apply keeps_liftR | intros o1 w3 Href].
    apply liftR_ok in Href as [Href _]. unfold defineRecordRef in Href.
    destruct (fields !! "nlobjRecord"); [discriminate |].
    inversion Href; subst o1; clear Href.
    assert (Hkeys : forall k, k <> "nlobjRecord" -> ~ In k names ->
              (<["nlobjRecord" := PValue VRecord hidden]> (cellProperty P <$> fields)
               : Obj P) !! k = None).
    { intros k Hk Hout. unfold Obj, Row in *.
      rewrite lookup_insert_ne by congruence. rewrite lookup_fmap.
      destruct (fields !! k) eqn:E; [| reflexivity]. exfalso.
      destruct (attached_fields_named P _ _ _ _ _ Hfields k) as [[x Hx] | Hk'].
      - eexists. exact E.
      - unfold Row in Hx. now rewrite lookup_empty in Hx.
      - contradiction. }
    assert (Hsave : ~ In "save" names)
      by (intros Hin; apply (proj1 (Hfree _ Hin)); simpl; tauto).
    assert (Hwith : ~ In "withSublist" names)
      by (intros Hin; apply (proj1 (Hfree _ Hin)); simpl; tauto).
    fold hidden.
    pose proof (Hkeys "save" ltac:(discriminate) Hsave) as Hs.
    apply keeps_bind.
    { unfold keepsRemoteAt. now rewrite (assign_fresh P _ "save" _ _ Hs). }
    intros o2 w4 Ho2. rewrite (assign_fresh P _ "save" _ _ Hs) in Ho2.
    inversion Ho2; subst o2 w4; clear Ho2.
    assert (Hw : (<["save" := PValue (VAdapterFn "save") assigned]>
                    (<["nlobjRecord" := PValue VRecord hidden]>
                       (cellProperty P <$> fields)) : Obj P) !! "withSublist" = None).
    { unfold Obj in *. rewrite lookup_insert_ne by discriminate.
      apply (Hkeys "withSublist"); [discriminate | exact Hwith]. }
    apply keeps_bind.
    { unfold keepsRemoteAt. now rewrite (assign_fresh P _ "withSublist" _ _ Hw). }
    intros; apply keeps_ret. }
  unfold fromRecord. apply keeps_bind; [exact Hadd |].
  intros o0 w0 Hrun.
  destruct (passThru_all P functionsToPassThru o0 w0) as (obj & Hpass & _).
  { intros n Hn. left. destruct (o0 !! n) eqn:E; [| reflexivity]. exfalso.
    destruct (addFieldProperties_names P _ _ _ _ Hrun n) as [Hin | Hin].
    - eexists. exact E.
    - now apply (proj2 (Hfree n Hin)).
    - now apply (passThru_not_own n). }
  apply keeps_bind.
  - unfold keepsRemoteAt. now rewrite Hpass.
  - intros o1 w1 _. apply keeps_bind; [apply keeps_log | intros; apply keeps_ret].
Qed.

End ClientScript.

Lemma save_free_names n :
  In n ["memo"] ->
  ~ In n ["save"; "withSublist"] /\ ~ In n functionsToPassThru.
Proof.
  intros [<- | []]. split; apply not_in_by_eqb; reflexivity.
Qed.

Lemma client_build_keeps_remote_witness :
  let P := memPlatform noSchema [] true in
  let w := memWorld noSchema [] true demoRecord in
  remote (snd (fromRecord P ["memo"] w)) = remote w.
Proof.
  intros P w.
  exact (client_build_keeps_remote P eq_refl ["memo"] w save_free_names).
Defined.

(** * What the sublist operations leave alone *)

Section Frame.
Variable P : Platform.
Variable key : string.

Lemma touchesOnly_reads {A} (c : M (Scope P) A) :
  readsThis c -> touchesOnly key c.
Proof. intros H s k _. now rewrite H. Qed.

Lemma touchesOnly_bind {A B} (c : M (Scope P) A) (k : A -> M (Scope P) B) :
  touchesOnly key c -> (forall a, touchesOnly key (k a)) ->
  touchesOnly key (bind c k).
Proof.
  intros Hc Hk s n Hn. unfold bind. specialize (Hc s n Hn).
  destruct (c s) as [[a | e |] s1]; cbn [fst snd] in *; try exact Hc.
  now rewrite Hk.
Qed.

Lemma touchesOnly_modify (f : Obj P -> Obj P) :
  (forall o k, k <> key -> f o !! k = o !! k) ->
  touchesOnly key (modifyThis P f).
Proof. intros Hf s k Hk. cbn [modifyThis fst snd]. now apply Hf. Qed.

Lemma pushRow_other row (o : Obj P) k :
  k <> key -> pushRow P key row o !! k = o !! k.
Proof.
  intros Hk. unfold pushRow. destruct (o !! key) as [[d | v a | l a] |];
    try reflexivity.
  unfold Obj. now rewrite lookup_insert_ne by congruence.
Qed.

Lemma markReady_other (o : Obj P) k :
  k <> key -> markReady P key o !! k = o !! k.
Proof.
  intros Hk. unfold markReady. destruct (o !! key) as [[d | v a | l a] |];
    try reflexivity.
  unfold Obj. now rewrite lookup_insert_ne by congruence.
Qed.

Lemma defineSublist_other names (o o' : Obj P) k :
  defineSublist P key names o = Ok o' -> k <> key -> o' !! k = o !! k.
Proof.
  unfold defineSublist. intros H Hk.
  destruct (o !! key) as [[d | v a | l a] |]; try discriminate;
    repeat match type of H with
           | (if ?b then _ else _) = _ => destruct b
           end;
    try discriminate; inversion H; subst;
    unfold Obj; now rewrite lookup_insert_ne by congruence.
Qed.

Lemma touchesOnly_addNewLineItem names linenum :
  touchesOnly key (addNewLineItem P key names linenum).
Proof.
  unfold addNewLineItem. apply touchesOnly_bind.
  - apply touchesOnly_reads, readsThis_foldM. intros b x.
    apply readsThis_attachCell.
  - intros row. apply touchesOnly_bind.
    + apply touchesOnly_modify. intros o k Hk. now apply pushRow_other.
    + intros _. apply touchesOnly_reads, readsThis_ret.
Qed.

Lemma touchesOnly_forEach {A} (f : A -> M (Scope P) unit) xs :
  (forall x, touchesOnly key (f x)) -> touchesOnly key (forEach f xs).
Proof.
  intros Hf. induction xs as [| x xs IH]; simpl.
  - apply touchesOnly_reads, readsThis_ret.
  - apply touchesOnly_bind; [apply Hf | intros _; exact IH].
Qed.

Lemma touchesOnly_withSublist names : touchesOnly key (withSublist P key names).
Proof.
  unfold withSublist. apply touchesOnly_bind.
  { apply touchesOnly_reads, readsThis_callProp. }
  intros count. intros s k Hk. unfold bind at 1, getThis at 1. cbn [fst].
  unfold bind at 1, liftR.
  destruct (defineSublist P key names (fst s)) as [this' | e |] eqn:Hdef;
    try reflexivity.
  pose proof (defineSublist_other names _ _ k Hdef Hk) as Hother.
  rewrite <- Hother.
  assert (Hrest : touchesOnly key
            (do! forEach (fun i => do! addNewLineItem P key names (ANum i)
                                   in ret tt)
                   (lineNumbers (parseInt P count)) in
             do! modifyThis P (markReady P key) in getThis P)).
  { apply touchesOnly_bind.
    - apply touchesOnly_forEach. intros i. apply touchesOnly_bind.
      + apply touchesOnly_addNewLineItem.
      + intros _. apply touchesOnly_reads, readsThis_ret.
    - intros _. apply touchesOnly_bind.
      + apply touchesOnly_modify. intros o n Hn. now apply markReady_other.
      + intros _. apply touchesOnly_reads, readsThis_getThis. }
  unfold bind at 1. unfold modifyThis at 1. cbn [fst snd].
  now rewrite (Hrest (this', snd s) k Hk).
Qed.

Lemma touchesOnly_addLine : touchesOnly key (addLine P key).
Proof.
  unfold addLine. apply touchesOnly_bind.
  { apply touchesOnly_reads, readsThis_getThis. }
  intros obj. destruct (obj !! key) as [[d | v a | l a] |];
    try (apply touchesOnly_reads, readsThis_throw).
  destruct (ready l); [| apply touchesOnly_reads, readsThis_throw].
  apply touchesOnly_bind; [apply touchesOnly_reads, readsThis_callProp |].
  intros c. apply touchesOnly_bind; [apply touchesOnly_reads, readsThis_inWorld |].
  intros _. apply touchesOnly_bind; [apply touchesOnly_reads, readsThis_callProp |].
  intros _. apply touchesOnly_bind; [apply touchesOnly_reads, readsThis_callProp |].
  intros c'. apply touchesOnly_bind; [apply touchesOnly_reads, readsThis_inWorld |].
  intros _. apply touchesOnly_addNewLineItem.
Qed.

Lemma readsThis_commitLine : readsThis (commitLine P key).
Proof.
  unfold commitLine. apply readsThis_bind; [apply readsThis_getThis |].
  intros obj. destruct (obj !! key) as [[d | v a | l a] |];
    try apply readsThis_throw.
  destruct (ready l); [| apply readsThis_throw].
  apply readsThis_bind; [apply readsThis_inWorld | intros _].
  apply readsThis_bind; [apply readsThis_callProp | intros _].
  apply readsThis_ret.
Qed.

End Frame.

(** [withSublist] and [addLine] change no property of the record other
    than the sequence they work on, however they end; [commitLine]
    changes nothing of the record at all. *)
Theorem sublist_calls_touch_one_property (P : Platform) (key : string)
    (names : list string) (this : Obj P) (w : World P) (k : string) :
  k <> key ->
  fst (snd (withSublist P key names (this, w))) !! k = this !! k
  /\ fst (snd (addLine P key (this, w))) !! k = this !! k
  /\ fst (snd (commitLine P key (this, w))) = this.
Proof.
  intros Hk. split; [| split].
  - exact (touchesOnly_withSublist P key names (this, w) k Hk).
  - exact (touchesOnly_addLine P key (this, w) k Hk).
  - exact (readsThis_commitLine P key (this, w)).
Qed.

Lemma sublist_calls_touch_one_property_witness :
  fst (snd (withSublist demoPlatform "item" ["tags"] (demoAdapted, demoLoaded)))
  !! "memo"
  = demoAdapted !! "memo".
Proof.
  apply (proj1 (sublist_calls_touch_one_property demoPlatform "item" ["tags"]
                  demoAdapted demoLoaded "memo" ltac:(discriminate))).
Defined.

Section Permanent.
Variable P : Platform.
Variable this : Obj P.
Hypothesis Href : refersToHandle this.

Lemma withSublist_over_reference names w :
  fst (snd (withSublist P "nlobjRecord" names (this, w))) = this
  /\ forall x s, withSublist P "nlobjRecord" names (this, w) <> (Ok x, s).
Proof.
  assert (Hrun : exists r w', withSublist P "nlobjRecord" names (this, w)
                              = (r, (this, w'))
                              /\ forall x, r <> Ok x).
  { unfold withSublist.
    pose proof (readsThis_callProp P "getLineItemCount" [VStr "nlobjRecord"]
                  (this, w)) as Hread.
    unfold bind at 1.
    destruct (callProp P "getLineItemCount" [VStr "nlobjRecord"] (this, w))
      as [[c | e |] [this' w']]; cbn [fst snd] in *; subst;
      try (eexists _, _; split; [reflexivity | intros x; discriminate]).
    unfold bind, getThis, liftR, defineSublist. cbn [fst snd].
    unfold refersToHandle in Href. rewrite Href. cbn.
    eexists _, _; split; [reflexivity | intros x; discriminate]. }
  destruct Hrun as (r & w' & Hrun & Hnot). rewrite Hrun. split; [reflexivity |].
  intros x s [= Hr _]. now apply (Hnot x).
Qed.

Lemma addLine_over_reference w :
  addLine P "nlobjRecord" (this, w) = (Throw TypeError, (this, w)).
Proof.
  unfold addLine, bind, getThis. cbn [fst snd].
  unfold refersToHandle in Href. now rewrite Href.
Qed.

Lemma refers_after_withSublist key names w :
  refersToHandle (fst (snd (withSublist P key names (this, w)))).
Proof.
  destruct (decide (key = "nlobjRecord")) as [-> | Hne].
  - now rewrite (proj1 (withSublist_over_reference names w)).
  - unfold refersToHandle.
    rewrite (touchesOnly_withSublist P key names (this, w)) by congruence.
    exact Href.
Qed.

Lemma refers_after_addLine key w :
  refersToHandle (fst (snd (addLine P key (this, w)))).
Proof.
  destruct (decide (key = "nlobjRecord")) as [-> | Hne].
  - now rewrite addLine_over_reference.
  - unfold refersToHandle.
    rewrite (touchesOnly_addLine P key (this, w)) by congruence.
    exact Href.
Qed.

(** The back-reference to the handle is permanent: assigning to
    [nlobjRecord] is ignored, and after [withSublist] or [addLine],
    with any sublist name and however they end, the record still refers
    to the handle; [withSublist("nlobjRecord", ...)] itself never
    returns. *)
Theorem handle_reference_is_permanent (key : string) (names : list string)
    (v : Value) (w : World P) :
  assign P this "nlobjRecord" v w = (Ok this, w)
  /\ refersToHandle (fst (snd (withSublist P key names (this, w))))
  /\ refersToHandle (fst (snd (addLine P key (this, w))))
  /\ (forall x s, withSublist P "nlobjRecord" names (this, w) <> (Ok x, s)).
Proof.
  split; [| split; [| split]].
  - unfold assign. unfold refersToHandle in Href. now rewrite Href.
  - apply refers_after_withSublist.
  - apply refers_after_addLine.
  - apply withSublist_over_reference.
Qed.

End Permanent.

Lemma handle_reference_is_permanent_witness :
  refersToHandle
    (fst (snd (withSublist demoPlatform "item" ["quantity"]
                 (demoAdapted, demoLoaded)))).
Proof.
  apply (proj1 (proj2 (handle_reference_is_permanent demoPlatform demoAdapted
                         demoAdapted_refers
                         "item" ["quantity"] VNull demoLoaded))).
Defined.

(** * Saving *)

Section Saving.
Variable P : Platform.
Variable nlapiSubmitRecord :
  Value -> Value -> Value -> Remote P -> Result Value * Remote P.

Lemma save_submits_handle (this : Obj P) doSourcing ignoreMandatoryFields w :
  refersToHandle this ->
  save P nlapiSubmitRecord doSourcing ignoreMandatoryFields this w
  = (fst (nlapiSubmitRecord VRecord doSourcing ignoreMandatoryFields (remote w)),
     {| remote := snd (nlapiSubmitRecord VRecord doSourcing
                         ignoreMandatoryFields (remote w));
        logged := logged w ++ [saveEntry doSourcing ignoreMandatoryFields] |}).
Proof.
  intros Href. unfold save, bind. rewrite log_run.
  unfold refersToHandle in Href. rewrite Href. unfold submit. cbn [remote logged].
  now destruct (nlapiSubmitRecord VRecord doSourcing ignoreMandatoryFields
                  (remote w)).
Qed.

(** Calling [save] through the property, while the property holds the
    function that [addFieldProperties] assigned. *)
Lemma callSave_submits_handle (this : Obj P) doSourcing ignoreMandatoryFields w :
  refersToHandle this ->
  this !! "save" = Some (PValue (VAdapterFn "save") assigned) ->
  callSave P nlapiSubmitRecord doSourcing ignoreMandatoryFields (this, w)
  = (fst (nlapiSubmitRecord VRecord doSourcing ignoreMandatoryFields (remote w)),
     (this,
      {| remote := snd (nlapiSubmitRecord VRecord doSourcing
                          ignoreMandatoryFields (remote w));
         logged := logged w ++ [saveEntry doSourcing ignoreMandatoryFields] |})).
Proof.
  intros Href Hsave. unfold callSave, bind, getThis. cbn [fst snd].
  rewrite Hsave. cbn [String.eqb Ascii.eqb Bool.eqb andb]. unfold inWorld.
  cbn [fst snd]. now rewrite (save_submits_handle this _ _ w Href).
Qed.

(** A call of [withSublist] that returns leaves a sequence under the
    name it was given. *)
Lemma withSublist_holds key names (this : Obj P) w r s1 :
  withSublist P key names (this, w) = (Ok r, s1) ->
  exists a, holdsList (fst s1) key a.
Proof.
  intros Hrun. unfold withSublist in Hrun.
  apply bind_ok_inv in Hrun as (count & s & Hcount & Hrun).
  apply bind_ok_inv in Hrun as (this0 & s0 & Hget & Hrun).
  unfold getThis in Hget. inversion Hget; subst this0 s0; clear Hget.
  apply bind_ok_inv in Hrun as (this' & s0 & Hdef & Hrun).
  apply liftR_ok in Hdef as [Hdef ->].
  assert (Hholds : exists a, holdsList this' key a).
  { unfold defineSublist in Hdef.
    destruct (fst s !! key) as [[d | v a | l a] |]; try discriminate;
      repeat match type of Hdef with
             | (if ?b then _ else _) = _ => destruct b
             end;
      try discriminate; inversion Hdef; subst;
      eexists; eexists; unfold Obj; apply lookup_insert_eq. }
  destruct Hholds as [a Hholds]. exists a.
  apply bind_ok_inv in Hrun as (u & s2 & Hmod & Hrun).
  unfold modifyThis in Hmod. inversion Hmod; subst u s2; clear Hmod.
  cbn [fst snd] in Hrun.
  apply bind_ok_inv in Hrun as (u & s3 & Hloop & Hrun).
  pose proof (rows_loop_holds P key names a
                (lineNumbers (parseInt P count)) this' (snd s) Hholds) as Hl.
  rewrite Hloop in Hl. cbn [fst snd] in Hl.
  apply bind_ok_inv in Hrun as (u' & s4 & Hmod & Hrun).
  unfold modifyThis in Hmod. inversion Hmod; subst u' s4; clear Hmod.
  unfold getThis in Hrun. inversion Hrun; subst. cbn [fst].
  now apply markReady_holds.
Qed.

(** [obj.save(doSourcing, ignoreMandatoryFields)] on a record that
    [fromRecord] built with no field named [save], also after a
    [withSublist] call on another name than [save], however that call
    ended, submits the handle the record was built over, with the two
    flags as they were passed: its outcome is the platform's (the id, or
    the error raised, with no second attempt), the logger receives one
    entry naming the flags, and the record is left as it was.  After
    [withSublist("save", ...)] has returned, the property holds the
    sequence and the same call raises a [TypeError], submitting
    nothing. *)
Theorem save_submits_the_built_record names w0 obj w1 key fields wa
    doSourcing ignoreMandatoryFields w :
  fromRecord P names w0 = (Ok obj, w1) ->
  ~ In "save" names ->
  let submitted :=
    nlapiSubmitRecord VRecord doSourcing ignoreMandatoryFields (remote w) in
  let after := {| remote := snd submitted;
                  logged := logged w
                            ++ [saveEntry doSourcing ignoreMandatoryFields] |} in
  callSave P nlapiSubmitRecord doSourcing ignoreMandatoryFields (obj, w)
  = (fst submitted, (obj, after))
  /\ (key <> "save" ->
      let obj' := fst (snd (withSublist P key fields (obj, wa))) in
      callSave P nlapiSubmitRecord doSourcing ignoreMandatoryFields (obj', w)
      = (fst submitted, (obj', after)))
  /\ (forall r s,
        withSublist P "save" fields (obj, wa) = (Ok r, s) ->
        callSave P nlapiSubmitRecord doSourcing ignoreMandatoryFields (fst s, w)
        = (Throw TypeError, (fst s, w))).
Proof.
  intros Hrec Hfree submitted after.
  destruct (built_record_own_names P _ _ _ _ Hrec) as (Href & Hsave & _).
  specialize (Hsave Hfree).
  split; [| split].
  - now apply callSave_submits_handle.
  - intros Hkey obj'. apply callSave_submits_handle.
    + now apply refers_after_withSublist.
    + unfold obj'.
      rewrite (touchesOnly_withSublist P key fields (obj, wa) "save")
        by congruence.
      exact Hsave.
  - intros r s Hrun.
    destruct (withSublist_holds _ _ _ _ _ _ Hrun) as (a & l & Hl).
    unfold callSave, callProp, bind, getThis. cbn [fst snd].
    destruct s as [this' w']. cbn [fst] in *. rewrite Hl.
    cbn [fst snd]. rewrite Hl. reflexivity.
Qed.

End Saving.

Lemma demoAdapted_save_free : ~ In "save" ["memo"].
Proof. intros [H | []]. discriminate H. Qed.

Lemma save_submits_the_built_record_witness :
  let obj' := fst (snd (withSublist demoPlatform "item" ["tags"]
                          (demoAdapted, demoLoaded))) in
  fst (callSave demoPlatform demoSubmit (VBool true) (VBool false)
         (obj', demoLoaded))
  = fst (demoSubmit VRecord (VBool true) (VBool false) (remote demoLoaded)).
Proof.
  intros obj'. unfold obj'.
  rewrite (proj1 (proj2 (save_submits_the_built_record demoPlatform demoSubmit
                           ["memo"] demoWorld demoAdapted demoLoaded "item" ["tags"]
                           demoLoaded (VBool true) (VBool false) demoLoaded
                           demoAdapted_built demoAdapted_save_free))
             ltac:(discriminate)).
  reflexivity.
Defined.

(** * Sublists without lines, and sequences left incomplete *)

Section EdgeCounts.
Variable P : Platform.
Variable key : string.
Variable names : list string.

Lemma lineNumbers_none (n : option Z) :
  n = None \/ (exists z, n = Some z /\ z <= 0) -> lineNumbers n = [].
Proof.
  intros [-> | (z & -> & Hz)]; [reflexivity |].
  unfold lineNumbers. now replace (Z.to_nat z) with 0%nat by lia.
Qed.

(** When the handle answers a line count that is not a positive number
    (zero, the -1 of an unknown sublist, or something that does not
    parse), [withSublist] on a new name builds no row and looks no
    metadata up: it returns the record with an empty, complete sequence,
    whatever the field names are. *)
Theorem withSublist_without_lines (this : Obj P) (w w1 : World P) (c : Value) :
  callProp P "getLineItemCount" [VStr key] (this, w) = (Ok c, (this, w1)) ->
  this !! key = None ->
  parseInt P c = None \/ (exists z, parseInt P c = Some z /\ z <= 0) ->
  withSublist P key names (this, w)
  = (Ok (<[key := emptySequence P key names]> this),
     (<[key := emptySequence P key names]> this, w1)).
Proof.
  intros Hcount Hnew Hnone. unfold withSublist.
  rewrite (bind_ok _ _ _ _ _ Hcount).
  rewrite (lineNumbers_none _ Hnone).
  unfold bind, getThis, liftR, defineSublist, modifyThis. cbn [fst snd forEach ret].
  rewrite Hnew. cbn [fst snd]. unfold markReady.
  unfold Obj. rewrite lookup_insert_eq. cbn [rows listname propNames].
  rewrite insert_insert_eq. reflexivity.
Qed.

Lemma pushRow_unready row (this : Obj P) :
  unready this key -> unready (pushRow P key row this) key.
Proof.
  intros (l & a & Hl & Hr). unfold pushRow. rewrite Hl.
  eexists _, a. split; [unfold Obj; apply lookup_insert_eq | exact Hr].
Qed.

Lemma addNewLineItem_unready linenum this w :
  unready this key ->
  unready (fst (snd (addNewLineItem P key names linenum (this, w)))) key.
Proof.
  intros H. pose proof (addNewLineItem_this P key names linenum this w) as Ht.
  destruct (addNewLineItem _ _ _ _ _) as [[row | e |] s]; cbn [fst snd] in *;
    rewrite Ht; auto using pushRow_unready.
Qed.

Lemma rows_loop_unready lines : forall this w,
  unready this key ->
  let run := forEach (fun i => do! addNewLineItem P key names (ANum i) in ret tt)
               lines (this, w) in
  unready (fst (snd run)) key.
Proof.
  induction lines as [| i lines IH]; intros this w H; simpl; [exact H |].
  unfold bind at 1. unfold bind at 1.
  pose proof (addNewLineItem_unready (ANum i) this w H) as H1.
  destruct (addNewLineItem _ _ _ _ _) as [[row | e |] [this1 w1]];
    cbn [fst snd] in *; try exact H1.
  unfold ret at 1. now apply IH.
Qed.

(** After a failed [withSublist] on a new name the sequence is missing
    or has no methods yet. *)
Lemma failed_withSublist_state (this : Obj P) w r s :
  this !! key = None ->
  withSublist P key names (this, w) = (r, s) ->
  isOk r = false ->
  fst s !! key = None \/ unready (fst s) key.
Proof.
  intros Hnew Hrun Hfail. unfold withSublist in Hrun.
  pose proof (readsThis_callProp P "getLineItemCount" [VStr key] (this, w))
    as Hread.
  unfold bind at 1 in Hrun.
  destruct (callProp P "getLineItemCount" [VStr key] (this, w))
    as [[c | e |] [this0 w0]]; cbn [fst snd] in *; subst this0;
    try (inversion Hrun; subst; now left).
  unfold bind at 1 in Hrun. unfold getThis at 1 in Hrun. cbn [fst snd] in Hrun.
  unfold bind at 1 in Hrun. unfold liftR at 1 in Hrun.
  unfold defineSublist in Hrun. rewrite Hnew in Hrun.
  unfold bind at 1 in Hrun. unfold modifyThis at 1 in Hrun.
  cbn [fst snd] in Hrun.
  unfold bind at 1 in Hrun.
  match type of Hrun with
  | context [forEach ?f ?ls (?t, w0)] =>
      pose proof (rows_loop_unready ls t w0) as Hloop
  end.
  cbv zeta in Hloop.
  destruct (forEach _ _ _) as [[u | e |] s2]; cbn [fst snd] in *.
  - unfold bind, modifyThis, getThis in Hrun. inversion Hrun; subst.
    discriminate Hfail.
  - inversion Hrun; subst. right. apply Hloop.
    eexists _, _. split; [unfold Obj; apply lookup_insert_eq | reflexivity].
  - inversion Hrun; subst. right. apply Hloop.
    eexists _, _. split; [unfold Obj; apply lookup_insert_eq | reflexivity].
Qed.

(** When [withSublist] fails on a name that was new on the record (a
    row could not be built, the count could not be read), whatever
    sequence it left attached has no [addLine] and no [commitLine]:
    calling either raises a [TypeError] and changes nothing. *)
Theorem failed_withSublist_leaves_no_methods (this : Obj P) (w w' : World P) :
  this !! key = None ->
  isOk (fst (withSublist P key names (this, w))) = false ->
  let this' := fst (snd (withSublist P key names (this, w))) in
  addLine P key (this', w') = (Throw TypeError, (this', w'))
  /\ commitLine P key (this', w') = (Throw TypeError, (this', w')).
Proof.
  intros Hnew Hfail this'.
  destruct (failed_withSublist_state this w _ _ Hnew
              (surjective_pairing _) Hfail) as [Hnone | Hun];
    fold this' in Hnone || fold this' in Hun.
  - unfold addLine, commitLine, bind, getThis. cbn [fst snd].
    rewrite Hnone. split; reflexivity.
  - destruct Hun as (l & a & Hl & Hr).
    unfold addLine, commitLine, bind, getThis. cbn [fst snd].
    rewrite Hl, Hr. split; reflexivity.
Qed.

End EdgeCounts.

Lemma demo_expense_count :
  callProp demoPlatform "getLineItemCount" [VStr "expense"]
    (demoAdapted, demoLoaded)
  = (Ok (VNum 0), (demoAdapted, demoLoaded)).
Proof.
  rewrite callProp_exposed
    by (eapply wired_exposes; [exact demoAdapted_wired | simpl; tauto]).
  assert (Hz : default 0 (counts (remote demoLoaded) !! "expense") = 0)
    by (vm_compute; reflexivity).
  destruct demoLoaded as [r l]. cbn [remote] in Hz.
  unfold invoke. cbn. now rewrite Hz.
Qed.

Lemma demoAdapted_no_expense : hasProp demoAdapted "expense" = false.
Proof. vm_compute. reflexivity. Qed.

Lemma withSublist_without_lines_witness :
  withSublist demoPlatform "expense" ["tags"; "tags"] (demoAdapted, demoLoaded)
  = (Ok (<["expense" := emptySequence demoPlatform "expense" ["tags"; "tags"]]>
           demoAdapted),
     (<["expense" := emptySequence demoPlatform "expense" ["tags"; "tags"]]>
        demoAdapted, demoLoaded)).
Proof.
  apply (withSublist_without_lines demoPlatform "expense" ["tags"; "tags"]
           demoAdapted demoLoaded demoLoaded (VNum 0) demo_expense_count
           (hasProp_false _ _ demoAdapted_no_expense)).
  right. exists 0. split; [reflexivity | lia].
Defined.

Lemma demo_tags_rows_fail :
  isOk (fst (withSublist demoPlatform "item" ["tags"] (demoAdapted, demoLoaded)))
  = false.
Proof. vm_compute. reflexivity. Qed.

Lemma failed_withSublist_leaves_no_methods_witness :
  let this' := fst (snd (withSublist demoPlatform "item" ["tags"]
                           (demoAdapted, demoLoaded))) in
  addLine demoPlatform "item" (this', demoLoaded)
  = (Throw TypeError, (this', demoLoaded)).
Proof.
  intros this'.
  apply (proj1 (failed_withSublist_leaves_no_methods demoPlatform "item" ["tags"]
                  demoAdapted demoLoaded demoLoaded
                  (hasProp_false _ _ demoAdapted_no_item) demo_tags_rows_fail)).
Defined.

(** * Adding and committing lines *)

Section Lines.
Variable P : Platform.
Variable key : string.
Variable names : list string.
Variable meta : string -> Value.
Variable lineCount : Remote P -> Z.

(** [addLine] takes the position of the new line from the handle, not
    from the sequence: for distinct fields of which none is a
    multiselect or carries a type tag that names a member the
    descriptor table inherits from [Object.prototype], with the handle
    counting [n] lines when it is called, and however many rows the
    sequence holds, it inserts at
    [n + 1], returns a row bound to line [n + 1] and appends it, after
    which the handle counts [n + 1]; the rows already there stay as
    they are. *)
Theorem addLine_follows_handle_count (this : Obj P) (w : World P)
    (held : list (Row P)) (a : Attrs) :
  wired this -> NoDup names ->
  readsMetadata P key names meta -> plainCells names meta ->
  countsLines P key lineCount -> insertsLine P key lineCount ->
  this !! key = Some (PList {| rows := held; listname := key;
                               propNames := names; ready := true |} a) ->
  let n := lineCount (remote w) in
  let row := boundRow P meta key names (ANum (n + 1)) in
  exists this2 w2,
    addLine P key (this, w) = (Ok row, (this2, w2))
    /\ rowsAt this2 key = (held ++ [row])%list
    /\ lineCount (remote w2) = n + 1
    /\ forall k, k <> key -> this2 !! k = this !! k.
Proof.
  intros Hw Hnd Hmeta Hplain Hcount Hinsert Hl n row.
  set (wa := withLogged w
               [{| level := Debug; title := [Lit "Inserting Line Item"];
                   details := [Lit ("sublist: '" +:+ key +:+ "' line: ");
                               Shown (VNum (n + 1))] |}]).
  destruct (Hinsert wa) as (v & wb & Hins & Hgrown).
  change (lineCount (remote wa)) with n in Hins, Hgrown.
  set (wc := withLogged wb
               [{| level := Debug;
                   title := [Lit "Line count after adding:";
                             Shown (VNum (lineCount (remote wb)))];
                   details := [] |}]).
  exists (pushRow P key row this), wc. split; [| split; [| split]].
  - unfold addLine.
    unfold bind at 1. unfold getThis at 1. cbn [fst].
    rewrite Hl. cbn [ready listname propNames].
    rewrite (bind_ok _ _ _ _ _ (count_exposed P key lineCount Hcount this w Hw)).
    cbn [parseInt numValue numArg]. fold n.
    unfold bind at 1. unfold inWorld at 1. cbn [fst snd].
    rewrite log_run. fold (withLogged w
      [{| level := Debug; title := [Lit "Inserting Line Item"];
          details := [Lit ("sublist: '" +:+ key +:+ "' line: ");
                      Shown (VNum (n + 1))] |}]). fold wa.
    assert (Hcall : callProp P "insertLineItem" [VStr key; VNum (n + 1)] (this, wa)
                    = (Ok v, (this, wb))).
    { rewrite callProp_exposed
        by (eapply wired_exposes; [exact Hw | simpl; tauto]).
      now rewrite Hins. }
    rewrite (bind_ok _ _ _ _ _ Hcall).
    rewrite (bind_ok _ _ _ _ _ (count_exposed P key lineCount Hcount this wb Hw)).
    unfold bind at 1. unfold inWorld at 1. cbn [fst snd].
    rewrite log_run.
    apply (addNewLineItem_bound P key names meta Hmeta Hplain
             (ANum (n + 1)) this _ Hw Hnd).
  - unfold rowsAt. rewrite (pushRow_lookup P key this _ _ _ Hl).
    unfold Obj. now rewrite lookup_insert_eq.
  - exact Hgrown.
  - intros k Hk. now apply pushRow_other.
Qed.

(** [commitLine] on a complete sequence, over a record that passes the
    handle's [commitLineItem] through, logs one entry and makes one
    call of the handle's [commitLineItem] with the sublist name; the
    outcome of that call is its own, and the record, rows included, is
    left as it was. *)
Theorem commitLine_forwards_once (this : Obj P) (w : World P)
    (held : list (Row P)) (a : Attrs) :
  exposes this "commitLineItem" ->
  this !! key = Some (PList {| rows := held; listname := key;
                               propNames := names; ready := true |} a) ->
  let call := invoke P "commitLineItem" [VStr key]
                (withLogged w [commitEntry key]) in
  commitLine P key (this, w) = (discard tt (fst call), (this, snd call)).
Proof.
  intros Hex Hl call. unfold commitLine.
  unfold bind at 1. unfold getThis at 1. cbn [fst].
  rewrite Hl. cbn [ready listname].
  unfold bind at 1. unfold inWorld at 1. cbn [fst snd]. rewrite log_run.
  unfold bind at 1. rewrite (callProp_exposed P this _ _ _ Hex).
  change (invoke P "commitLineItem" [VStr key] _) with call.
  now destruct call as [[x | e |] w'].
Qed.

End Lines.

Lemma demoStale_item :
  demoStale !! "item"
  = Some (PList {| rows := []; listname := "item";
                   propNames := ["quantity"; "shipdate"]; ready := true |}
            sealed).
Proof. unfold demoStale, emptySequence, Obj. apply lookup_insert_eq. Qed.

Lemma demoStale_exposes m : exposes demoAdapted m -> exposes demoStale m.
Proof.
  unfold exposes, demoStale, Obj. intros Hm.
  rewrite lookup_insert_ne; [exact Hm |].
  intros <-. pose proof (hasProp_false _ _ demoAdapted_no_item) as Hnone.
  unfold Obj in *. congruence.
Qed.

Lemma demoStale_wired : wired demoStale.
Proof.
  pose proof demoAdapted_wired as Hw. unfold wired in *.
  rewrite Forall_forall in *. intros m Hm. apply demoStale_exposes. now apply Hw.
Qed.

Lemma demoAdapted_commit : exposes demoAdapted "commitLineItem".
Proof. apply exposesb_spec. vm_compute. reflexivity. Qed.

Lemma addLine_follows_handle_count_witness :
  let row := boundRow demoPlatform demoMeta "item" ["quantity"; "shipdate"]
               (ANum (demoLineCount (remote demoLoaded) + 1)) in
  exists this2 w2,
    addLine demoPlatform "item" (demoStale, demoLoaded) = (Ok row, (this2, w2))
    /\ rowsAt this2 "item" = [row]
    /\ demoLineCount (remote w2) = demoLineCount (remote demoLoaded) + 1.
Proof.
  intros row.
  destruct (addLine_follows_handle_count demoPlatform "item"
              ["quantity"; "shipdate"] demoMeta demoLineCount
              demoStale demoLoaded [] sealed
              demoStale_wired demo_names_distinct (demo_readsMetadata _)
              demo_plain_fields demo_countsLines demo_insertsLine demoStale_item)
    as (this2 & w2 & Hadd & Hrows & Hcount & _).
  exists this2, w2. split; [exact Hadd |]. split; [exact Hrows | exact Hcount].
Defined.

Lemma commitLine_forwards_once_witness :
  commitLine demoPlatform "item" (demoStale, demoLoaded)
  = (discard tt (fst (invoke demoPlatform "commitLineItem" [VStr "item"]
                        (withLogged demoLoaded [commitEntry "item"]))),
     (demoStale,
      snd (invoke demoPlatform "commitLineItem" [VStr "item"]
             (withLogged demoLoaded [commitEntry "item"])))).
Proof.
  exact (commitLine_forwards_once demoPlatform "item" ["quantity"; "shipdate"]
           demoStale demoLoaded [] sealed
           (demoStale_exposes _ demoAdapted_commit) demoStale_item).
Defined.

(** * Sublist names that are taken *)

Section TakenNames.
Variable P : Platform.

Lemma defineSublist_resisted key names (this : Obj P) p :
  this !! key = Some p -> resists p = true ->
  defineSublist P key names this = Throw TypeError.
Proof.
  intros Hp Hres. unfold defineSublist. rewrite Hp.
  destruct p as [d | v a | l a]; [reflexivity | |];
    simpl in Hres; apply andb_true_iff in Hres as [Hc He];
    apply negb_true_iff in Hc, He; now rewrite Hc, He.
Qed.

(** [withSublist] under a name the record already uses for a body
    field (an accessor), for [nlobjRecord], or for a sequence attached
    earlier on a new name, never returns and leaves the record as it
    was: once the handle has answered the line count, the error is a
    [TypeError] (before that, whatever the count lookup raised). *)
Theorem withSublist_over_taken_name key names (this : Obj P) (w : World P) p :
  this !! key = Some p -> resists p = true ->
  fst (snd (withSublist P key names (this, w))) = this
  /\ isOk (fst (withSublist P key names (this, w))) = false
  /\ (forall c s,
        callProp P "getLineItemCount" [VStr key] (this, w) = (Ok c, s) ->
        withSublist P key names (this, w) = (Throw TypeError, s)).
Proof.
  intros Hp Hres.
  pose proof (readsThis_callProp P "getLineItemCount" [VStr key] (this, w))
    as Hread.
  assert (Hthrow : forall c s,
            callProp P "getLineItemCount" [VStr key] (this, w) = (Ok c, s) ->
            withSublist P key names (this, w) = (Throw TypeError, s)).
  { intros c s Hc. unfold withSublist. rewrite (bind_ok _ _ _ _ _ Hc).
    rewrite Hc in Hread. cbn [fst snd] in Hread.
    unfold bind, getThis, liftR. rewrite Hread.
    now rewrite (defineSublist_resisted key names this p Hp Hres). }
  destruct (callProp P "getLineItemCount" [VStr key] (this, w))
    as [[c | e |] s] eqn:Hc; cbn [fst snd] in Hread.
  - rewrite (Hthrow c s eq_refl). cbn [fst snd].
    split; [exact Hread |]. split; [reflexivity |].
    intros c' s' [= <- <-]. reflexivity.
  - unfold withSublist. rewrite (bind_throw _ _ _ _ _ Hc). cbn [fst snd].
    split; [exact Hread |]. split; [reflexivity | intros c' s' H; discriminate H].
  - unfold withSublist, bind. rewrite Hc. cbn [fst snd].
    split; [exact Hread |]. split; [reflexivity | intros c' s' H; discriminate H].
Qed.

End TakenNames.

Lemma demoAdapted_memo_accessor :
  exists d, demoAdapted !! "memo" = Some (PAccessor d).
Proof.
  apply (proj2 (proj2 (proj2 (built_record_fields demoPlatform ["memo"] demoWorld
                                demoAdapted demoLoaded demoAdapted_built))
                  demoBodyMeta (demo_readsBodyMetadata _) demo_memo_plain)).
  now left.
Qed.

Lemma withSublist_over_taken_name_witness :
  fst (snd (withSublist demoPlatform "memo" ["quantity"]
              (demoAdapted, demoLoaded))) = demoAdapted
  /\ isOk (fst (withSublist demoPlatform "memo" ["quantity"]
                  (demoAdapted, demoLoaded))) = false.
Proof.
  destruct demoAdapted_memo_accessor as [d Hd].
  destruct (withSublist_over_taken_name demoPlatform "memo" ["quantity"]
              demoAdapted demoLoaded (PAccessor d) Hd eq_refl)
    as (Hsame & Hfail & _).
  split; [exact Hsame | exact Hfail].
Defined.
